(** * PredicGuard: risk gates, manipulation detectors and audit ledger

    A shallow embedding of the TypeScript sources

      - [src/risk/position-sizing.ts]      (Kelly sizing, stop losses,
                                            portfolio balancer, drawdown)
      - [src/security/anti-manipulation.ts] (whale detector, oracle monitor)
      - [src/audit/audit-trail.ts]          (audit logger, Merkle root,
                                            trail verifier)
      - [src/agents/base-agent.ts]          (the decision pipeline, life
                                            cycle, position bookkeeping)
      - [src/agents/conservative-bot.ts]    (the conservative strategy)

    Conventions of the embedding.

      - A JavaScript [bigint] is a [Z]; bigint division truncates toward
        zero and is [Z.quot].
      - A JavaScript [number] is an exact rational [Q] in the modules
        [Risk], [Security] and [Agent].  Rounding of IEEE doubles, [NaN]
        and the infinities are outside these models; every comparison
        against a threshold is the comparison of the exact values.
        Millisecond timestamps ([Date.now()]) are integers.  Where a
        quotient of the sources can be infinite or [NaN] (a divisor of
        zero) the function returns an [option] and [None] stands for
        the result that is not a finite number.
      - The functions whose result is a rounded number or the floor of
        one, [calculateKellyCriterion], [calculateFixedFractional],
        [calculatePriceImpact] and [calculateConcentrationRisk], are
        embedded on IEEE 754 doubles as well (module [Double]): a
        [number] is a primitive [float], with the rounding, the zeros,
        the infinities and [NaN] of binary64, and [Number(n)] of a
        bigint is the nearest double.  The bounds on the values they
        return are proved of that embedding.
      - A [Map] that is only read and written by key is a [gmap]; a [Map]
        or array whose order is observable is a [list].
      - A function that may throw returns a [Completion]; methods of a
        class take the object's state and return the new state.
      - [Date.now()] is an explicit argument [now] of every method that
        reads the clock. *)

From Stdlib Require Import ZArith QArith Qround Qabs Lqa Lia.
From Stdlib Require Import String Ascii List.
From Stdlib Require Import Floats.
From stdpp Require Import gmap strings list pretty.
Import ListNotations.

Local Open Scope string_scope.
Local Open Scope Z_scope.

(** ** JavaScript values shared by all modules *)

Module JS.

(** Thrown values.  The sources throw [Error]s; the runtime adds
    [TypeError] (JSON serialisation of a bigint). *)
Inductive JSError : Type :=
| Error (message : string)
| TypeError (message : string).

Definition message (e : JSError) : string :=
  match e with
  | Error m => m
  | TypeError m => m
  end.

(** The result of evaluating a call: a value or a thrown error. *)
Inductive Completion (A : Type) : Type :=
| Return (a : A)
| Throw (e : JSError).
Arguments Return {A} a.
Arguments Throw {A} e.

Definition bind {A B} (c : Completion A) (k : A -> Completion B)
  : Completion B :=
  match c with
  | Return a => k a
  | Throw e => Throw e
  end.

(** Numbers. *)
Definition num_le (a b : Q) : bool := Qle_bool a b.
Definition num_lt (a b : Q) : bool := negb (Qle_bool b a).
Definition num_ge (a b : Q) : bool := num_le b a.
Definition num_gt (a b : Q) : bool := num_lt b a.

Definition Math_max (a b : Q) : Q := if num_lt a b then b else a.
Definition Math_min (a b : Q) : Q := if num_lt b a then b else a.
Definition Math_abs (a : Q) : Q := Qabs a.
(** [BigInt(Math.floor(x))] *)
Definition BigInt_floor (x : Q) : Z := Qfloor x.
(** [Number(b)] for a bigint [b] *)
Definition Number (b : Z) : Q := inject_Z b.

(** Truthiness of an optional number: [undefined] and [0] are falsy. *)
Definition truthy (o : option Q) : bool :=
  match o with
  | Some q => negb (Qeq_bool q 0)
  | None => false
  end.

End JS.
Import JS.

(** ** Risk management: [src/risk/position-sizing.ts] *)

Module Risk.

Record PositionSizingParams : Type := {
  bankroll : Z;
  winProbability : Q;
  winLossRatio : Q;
  kellyFraction : option Q;
  maxPositionPercent : option Q
}.

(** Destructuring defaults [kellyFraction = 0.25] and
    [maxPositionPercent = 0.1]. *)
Definition kellyFraction_of (params : PositionSizingParams) : Q :=
  default (25 # 100) (kellyFraction params).
Definition maxPositionPercent_of (params : PositionSizingParams) : Q :=
  default (1 # 10) (maxPositionPercent params).

Definition calculateKellyCriterion (params : PositionSizingParams)
  : Completion Z :=
  let p := winProbability params in
  let r := winLossRatio params in
  if num_le p 0 || num_ge p 1 then
    Throw (Error "Win probability must be between 0 and 1")
  else if num_le r 0 then
    Throw (Error "Win/loss ratio must be positive")
  else
    let lossProbability := (1 - p)%Q in
    let fullKelly := ((r * p - lossProbability) / r)%Q in
    let adjustedKelly := Math_max 0 (fullKelly * kellyFraction_of params) in
    let finalFraction := Math_min adjustedKelly (maxPositionPercent_of params) in
    Return (Z.quot (bankroll params * BigInt_floor (finalFraction * 10000))
                   10000).

Definition calculateFixedFractional
  (bankroll : Z) (fraction : Q) (maxPosition : option Z) : Z :=
  let position := Z.quot (bankroll * BigInt_floor (fraction * 10000)) 10000 in
  match maxPosition with
  | Some m => if negb (m =? 0) && (m <? position) then m else position
  | None => position
  end.

(** *** Stop losses *)

Record StopLossParams : Type := {
  entryPrice : Z;
  stopLossPercent : Q;
  takeProfitPercent : option Q;
  trailingStopPercent : option Q
}.

Record StopLossManager : Type := {
  params : StopLossParams;
  highestPrice : Z;
  lowestPrice : Z;
  isActive : bool
}.

Definition new_StopLossManager (p : StopLossParams) : StopLossManager :=
  {| params := p;
     highestPrice := entryPrice p;
     lowestPrice := entryPrice p;
     isActive := true |}.

Record ExitSignal : Type := {
  shouldExit : bool;
  reason : option string
}.

Definition noExit : ExitSignal := {| shouldExit := false; reason := None |}.
Definition exitWith (r : string) : ExitSignal :=
  {| shouldExit := true; reason := Some r |}.

Definition calculateStopLossPrice (m : StopLossManager) : Z :=
  let e := entryPrice (params m) in
  let drop := Z.quot (e * BigInt_floor (stopLossPercent (params m) * 100)) 10000 in
  e - drop.

Definition calculateTakeProfitPrice (m : StopLossManager) : Z :=
  match takeProfitPercent (params m) with
  | Some tp =>
      if truthy (Some tp) then
        let e := entryPrice (params m) in
        let gain := Z.quot (e * BigInt_floor (tp * 100)) 10000 in
        e + gain
      else 0
  | None => 0
  end.

Definition calculateTrailingStopPrice (m : StopLossManager) : Z :=
  match trailingStopPercent (params m) with
  | Some ts =>
      if truthy (Some ts) then
        let drop := Z.quot (highestPrice m * BigInt_floor (ts * 100)) 10000 in
        highestPrice m - drop
      else 0
  | None => 0
  end.

Definition updatePrice (m : StopLossManager) (currentPrice : Z)
  : ExitSignal * StopLossManager :=
  if negb (isActive m) then (noExit, m)
  else
    let m1 :=
      if highestPrice m <? currentPrice then
        {| params := params m; highestPrice := currentPrice;
           lowestPrice := lowestPrice m; isActive := isActive m |}
      else m in
    let m2 :=
      if currentPrice <? lowestPrice m1 then
        {| params := params m1; highestPrice := highestPrice m1;
           lowestPrice := currentPrice; isActive := isActive m1 |}
      else m1 in
    if currentPrice <=? calculateStopLossPrice m2 then
      (exitWith "STOP_LOSS", m2)
    else if truthy (takeProfitPercent (params m2))
            && (calculateTakeProfitPrice m2 <=? currentPrice) then
      (exitWith "TAKE_PROFIT", m2)
    else if truthy (trailingStopPercent (params m2))
            && (currentPrice <=? calculateTrailingStopPrice m2) then
      (exitWith "TRAILING_STOP", m2)
    else (noExit, m2).

Definition deactivate (m : StopLossManager) : StopLossManager :=
  {| params := params m; highestPrice := highestPrice m;
     lowestPrice := lowestPrice m; isActive := false |}.

Definition isPositionActive (m : StopLossManager) : bool := isActive m.

(** Feeding a sequence of prices; the signals are returned in order. *)
Fixpoint updatePrices (m : StopLossManager) (prices : list Z)
  : list ExitSignal * StopLossManager :=
  match prices with
  | [] => ([], m)
  | p :: ps =>
      let '(sig, m1) := updatePrice m p in
      let '(sigs, m2) := updatePrices m1 ps in
      (sig :: sigs, m2)
  end.

(** *** Portfolio balancer *)

Record PortfolioPosition : Type := {
  pos_marketId : string;
  position : Z;
  pos_entryPrice : Z;
  pos_currentPrice : Z;
  pos_timestamp : Z
}.

Record PortfolioState : Type := {
  totalValue : Z;
  positions : list PortfolioPosition;
  cash : Z;
  lastRebalance : Z
}.

Record PortfolioBalancer : Type := {
  targetAllocations : list (string * Q);
  rebalanceThreshold : Q;
  maxSlippagePercent : Q
}.

(** [Array.from(targetAllocations.values()).reduce((a, b) => a + b, 0)] *)
Definition allocationTotal (allocs : list (string * Q)) : Q :=
  fold_left (fun a b => (a + b)%Q) (map snd allocs) 0%Q.

Definition new_PortfolioBalancer
  (allocs : list (string * Q)) (threshold : option Q) (slippage : option Q)
  : Completion PortfolioBalancer :=
  let this := {| targetAllocations := allocs;
                 rebalanceThreshold := default (5 # 100) threshold;
                 maxSlippagePercent := default 1%Q slippage |} in
  let total := allocationTotal allocs in
  if num_gt (Math_abs (total - 1)) (1 # 100) then
    Throw (Error "Target allocations must sum to 1.0")
  else Return this.

(** *** Drawdown protection *)

Record DrawdownConfig : Type := {
  maxDailyDrawdownPercent : Q;
  maxTotalDrawdownPercent : Q;
  cooldownPeriodMs : Z;
  pauseOnTrigger : bool
}.

Record DrawdownState : Type := {
  peakValue : Z;
  currentValue : Z;
  dailyStartValue : Z;
  lastReset : Z;
  inCooldown : bool;
  cooldownEnd : Z;
  triggeredCount : Z
}.

Record DrawdownProtector : Type := {
  dd_config : DrawdownConfig;
  dd_state : DrawdownState
}.

Definition new_DrawdownProtector
  (config : DrawdownConfig) (initialValue : Z) (now : Z) : DrawdownProtector :=
  {| dd_config := config;
     dd_state := {| peakValue := initialValue;
                    currentValue := initialValue;
                    dailyStartValue := initialValue;
                    lastReset := now;
                    inCooldown := false;
                    cooldownEnd := 0;
                    triggeredCount := 0 |} |}.

Inductive DrawdownLevel : Type := NORMAL | WARNING | CRITICAL | COOLDOWN.

Record DrawdownStatus : Type := {
  canTrade : bool;
  drawdownPercent : Q;
  dailyDrawdownPercent : Q;
  status : DrawdownLevel
}.

Definition calculateDrawdown (s : DrawdownState) : Q :=
  if peakValue s =? 0 then 0%Q
  else (Number (peakValue s - currentValue s) / Number (peakValue s))%Q.

Definition calculateDailyDrawdown (s : DrawdownState) : Q :=
  if dailyStartValue s =? 0 then 0%Q
  else (Number (dailyStartValue s - currentValue s)
        / Number (dailyStartValue s))%Q.

Definition triggerCooldown (c : DrawdownConfig) (now : Z) (s : DrawdownState)
  : DrawdownState :=
  {| peakValue := peakValue s; currentValue := currentValue s;
     dailyStartValue := dailyStartValue s; lastReset := lastReset s;
     inCooldown := true;
     cooldownEnd := now + cooldownPeriodMs c;
     triggeredCount := triggeredCount s + 1 |}.

Definition isCritical (l : DrawdownLevel) : bool :=
  match l with CRITICAL => true | _ => false end.

Definition updateValue (d : DrawdownProtector) (now : Z) (value : Z)
  : DrawdownStatus * DrawdownProtector :=
  let c := dd_config d in
  let s0 := dd_state d in
  (* this.state.currentValue = currentValue *)
  let s1 := {| peakValue := peakValue s0; currentValue := value;
               dailyStartValue := dailyStartValue s0;
               lastReset := lastReset s0; inCooldown := inCooldown s0;
               cooldownEnd := cooldownEnd s0;
               triggeredCount := triggeredCount s0 |} in
  (* update peak *)
  let s2 := if peakValue s1 <? value then
              {| peakValue := value; currentValue := currentValue s1;
                 dailyStartValue := dailyStartValue s1;
                 lastReset := lastReset s1; inCooldown := inCooldown s1;
                 cooldownEnd := cooldownEnd s1;
                 triggeredCount := triggeredCount s1 |}
            else s1 in
  (* reset daily if needed *)
  let s3 := if 86400000 <? now - lastReset s2 then
              {| peakValue := peakValue s2; currentValue := currentValue s2;
                 dailyStartValue := value;
                 lastReset := now; inCooldown := inCooldown s2;
                 cooldownEnd := cooldownEnd s2;
                 triggeredCount := triggeredCount s2 |}
            else s2 in
  let evaluate (s : DrawdownState) :=
    let dd := calculateDrawdown s in
    let daily := calculateDailyDrawdown s in
    if num_ge dd (maxTotalDrawdownPercent c) then
      ({| canTrade := false; drawdownPercent := dd;
          dailyDrawdownPercent := daily; status := CRITICAL |},
       {| dd_config := c; dd_state := triggerCooldown c now s |})
    else if num_ge daily (maxDailyDrawdownPercent c) then
      ({| canTrade := false; drawdownPercent := dd;
          dailyDrawdownPercent := daily; status := CRITICAL |},
       {| dd_config := c; dd_state := triggerCooldown c now s |})
    else
      let warningThreshold := (maxDailyDrawdownPercent c * (8 # 10))%Q in
      let st := if num_gt daily warningThreshold then WARNING else NORMAL in
      ({| canTrade := negb (pauseOnTrigger c) || negb (isCritical st);
          drawdownPercent := dd;
          dailyDrawdownPercent := daily; status := st |},
       {| dd_config := c; dd_state := s |}) in
  if inCooldown s3 then
    if cooldownEnd s3 <=? now then
      evaluate {| peakValue := peakValue s3; currentValue := currentValue s3;
                  dailyStartValue := dailyStartValue s3;
                  lastReset := lastReset s3; inCooldown := false;
                  cooldownEnd := cooldownEnd s3;
                  triggeredCount := triggeredCount s3 |}
    else
      ({| canTrade := false;
          drawdownPercent := calculateDrawdown s3;
          dailyDrawdownPercent := calculateDailyDrawdown s3;
          status := COOLDOWN |},
       {| dd_config := c; dd_state := s3 |})
  else evaluate s3.

(** [getState] returns a copy; the protector is unchanged. *)
Definition getState (d : DrawdownProtector)
  : DrawdownState * DrawdownProtector := (dd_state d, d).

Definition resetPeak (d : DrawdownProtector) : DrawdownProtector :=
  let s := dd_state d in
  {| dd_config := dd_config d;
     dd_state := {| peakValue := currentValue s;
                    currentValue := currentValue s;
                    dailyStartValue := dailyStartValue s;
                    lastReset := lastReset s; inCooldown := inCooldown s;
                    cooldownEnd := cooldownEnd s;
                    triggeredCount := triggeredCount s |} |}.

(** The public operations of a protector; [OpUpdateValue] carries the
    clock reading of the call. *)
Inductive DrawdownOp : Type :=
| OpUpdateValue (now : Z) (value : Z)
| OpGetState
| OpResetPeak.

Definition applyOp (d : DrawdownProtector) (op : DrawdownOp)
  : DrawdownProtector :=
  match op with
  | OpUpdateValue now v => snd (updateValue d now v)
  | OpGetState => snd (getState d)
  | OpResetPeak => resetPeak d
  end.

Definition peak (d : DrawdownProtector) : Z := peakValue (dd_state d).

(** *** Rebalancing and concentration *)

Inductive RebalanceAction : Type := BUY | SELL.

Record RebalanceTrade : Type := {
  rt_marketId : string;
  rt_action : RebalanceAction;
  rt_amount : Z
}.

Definition positionValue (pos : PortfolioPosition) : Z :=
  position pos * pos_currentPrice pos.

(** The local map [currentAllocations]: a later position of a market
    replaces an earlier one. *)
Definition currentAllocations (ps : list PortfolioPosition) : gmap string Z :=
  fold_left (fun m pos => <[pos_marketId pos := positionValue pos]> m) ps ∅.

Definition targetValueOf (state : PortfolioState) (targetPct : Q) : Z :=
  Z.quot (totalValue state * BigInt_floor (targetPct * 10000)) 10000.

Definition currentValueOf (state : PortfolioState) (market : string) : Z :=
  default 0 (currentAllocations (positions state) !! market).

(** [Math.abs(deviation) > this.rebalanceThreshold] where [deviation] is
    [Number(currentValue - targetValue) / Number(totalValue)].  For a
    total value of zero the quotient is an infinity, which exceeds every
    threshold, unless the numerator is zero too, when it is [NaN], which
    exceeds none. *)
Definition deviationExceeds (b : PortfolioBalancer) (state : PortfolioState)
  (current target : Z) : bool :=
  if totalValue state =? 0 then negb (current - target =? 0)
  else num_gt (Math_abs (Number (current - target) / Number (totalValue state)))
              (rebalanceThreshold b).

(** One turn of the loop over the target allocations. *)
Definition rebalanceTradeFor (b : PortfolioBalancer) (state : PortfolioState)
  (allocation : string * Q) : list RebalanceTrade :=
  let targetValue := targetValueOf state (snd allocation) in
  let current := currentValueOf state (fst allocation) in
  if deviationExceeds b state current targetValue then
    let diff := if current <? targetValue then targetValue - current
                else current - targetValue in
    if 0 <? diff then
      [ {| rt_marketId := fst allocation;
           rt_action := if current <? targetValue then BUY else SELL;
           rt_amount := diff |} ]
    else []
  else [].

Definition calculateRebalanceTrades (b : PortfolioBalancer)
  (state : PortfolioState) : list RebalanceTrade :=
  concat (map (rebalanceTradeFor b state) (targetAllocations b)).

Definition shouldRebalance (b : PortfolioBalancer) (state : PortfolioState)
  : bool :=
  match calculateRebalanceTrades b state with
  | [] => false
  | _ => true
  end.

(** The largest position value found by the loop, starting from [0n]. *)
Definition largestPositionValue (ps : list PortfolioPosition) : Z :=
  fold_left (fun m pos => if m <? positionValue pos then positionValue pos else m)
            ps 0.

(** [None] stands for the results that are not finite numbers: with a
    total value of zero the quotient is an infinity or [NaN]. *)
Definition calculateConcentrationRisk (b : PortfolioBalancer)
  (state : PortfolioState) : option Q :=
  match positions state with
  | [] => Some 0%Q
  | _ =>
      if totalValue state =? 0 then None
      else Some (Number (largestPositionValue (positions state))
                 / Number (totalValue state))%Q
  end.

End Risk.

(** ** The functions that return a rounded number, on IEEE 754 doubles *)

Module Double.
Import JS.

#[local] Set Warnings "-inexact-float".

(** The RangeError of [BigInt(x)] for an [x] that is not an integer, with
    the message of V8; [shown] is the number as JavaScript prints it.
    The handlers of this code base read only the message of an error. *)
Definition notAnInteger (shown : string) : JSError :=
  Error ("The number " ++ shown
         ++ " cannot be converted to a BigInt because it is not an integer").

(** [Math.max(a, b)]: NaN when an argument is NaN; [+0] is larger than
    [-0]. *)
Definition Math_max (a b : float) : float :=
  if is_nan a || is_nan b then nan
  else if (a <? b)%float then b
  else if (b <? a)%float then a
  else if get_sign a then b else a.

(** [Math.min(a, b)]: NaN when an argument is NaN; [-0] is smaller than
    [+0]. *)
Definition Math_min (a b : float) : float :=
  if is_nan a || is_nan b then nan
  else if (a <? b)%float then a
  else if (b <? a)%float then b
  else if get_sign a then a else b.

(** [BigInt(Math.floor(x))]: the floor of [(-1)^s * m * 2^e] is an
    arithmetic shift; NaN and the infinities are not integers. *)
Definition BigInt_floor (x : float) : Completion Z :=
  match Prim2SF x with
  | S754_zero _ => Return 0
  | S754_finite s m e => Return (Z.shiftl (cond_Zopp s (Z.pos m)) e)
  | S754_infinity false => Throw (notAnInteger "Infinity")
  | S754_infinity true => Throw (notAnInteger "-Infinity")
  | S754_nan => Throw (notAnInteger "NaN")
  end.


Record PositionSizingParams : Type := {
  bankroll : Z;
  winProbability : float;
  winLossRatio : float;
  kellyFraction : option float;
  maxPositionPercent : option float
}.

(** [calculateKellyCriterion(params)] *)
Definition calculateKellyCriterion (params : PositionSizingParams)
  : Completion Z :=
  let winProbability := winProbability params in
  let winLossRatio := winLossRatio params in
  let kellyFraction := default 0.25%float (kellyFraction params) in
  let maxPositionPercent := default 0.1%float (maxPositionPercent params) in
  if (winProbability <=? 0)%float || (1 <=? winProbability)%float
  then Throw (Error "Win probability must be between 0 and 1")
  else if (winLossRatio <=? 0)%float
  then Throw (Error "Win/loss ratio must be positive")
  else
    let lossProbability := (1 - winProbability)%float in
    let fullKelly :=
      ((winLossRatio * winProbability - lossProbability)
       / winLossRatio)%float in
    let adjustedKelly := Math_max 0 (fullKelly * kellyFraction)%float in
    let finalFraction := Math_min adjustedKelly maxPositionPercent in
    bind (BigInt_floor (finalFraction * 10000)%float) (fun units =>
    Return (Z.quot (bankroll params * units) 10000)).

(** [calculateFixedFractional(bankroll, fraction, maxPosition)]; a
    [maxPosition] of [0n] is falsy and caps nothing. *)
Definition calculateFixedFractional
  (bankroll : Z) (fraction : float) (maxPosition : option Z)
  : Completion Z :=
  bind (BigInt_floor (fraction * 10000)%float) (fun units =>
  let position := Z.quot (bankroll * units) 10000 in
  Return match maxPosition with
         | Some m => if negb (m =? 0) && (m <? position) then m else position
         | None => position
         end).

(** [Number(n)] for a bigint [n]: the nearest double, ties to even. *)
Definition Number (n : Z) : float :=
  SF2Prim (binary_normalize prec emax n 0 false).

(** [calculatePriceImpact(amount, liquidity)] *)
Definition calculatePriceImpact (amount liquidity : Z) : float :=
  if liquidity =? 0 then 1%float
  else (Number amount / (Number liquidity + Number amount))%float.

(** [calculateConcentrationRisk(state)] *)
Definition calculateConcentrationRisk (b : Risk.PortfolioBalancer)
  (state : Risk.PortfolioState) : float :=
  match Risk.positions state with
  | [] => 0%float
  | _ =>
      (Number (Risk.largestPositionValue (Risk.positions state))
       / Number (Risk.totalValue state))%float
  end.

End Double.

(** ** Number formatting used in alert and issue messages *)

Module Format.

(** [b.toString()] for a bigint. *)
Definition bigintToString (z : Z) : string := pretty z.

Fixpoint zeros (n : nat) : string :=
  match n with
  | O => EmptyString
  | S k => String "0" (zeros k)
  end.

(** [x.toFixed(digits)]: the decimal numeral of the integer nearest to
    [|x| * 10^digits] (the larger one on a tie), with the decimal point
    put back and the sign of [x] in front. *)
Definition toFixed (x : Q) (digits : nat) : string :=
  let n := Qfloor (Qabs x * inject_Z (10 ^ Z.of_nat digits) + (1 # 2)) in
  let raw := pretty (Z.to_N n) in
  let padded := zeros (S digits - String.length raw) ++ raw in
  let intLen := (String.length padded - digits)%nat in
  let body :=
    match digits with
    | O => padded
    | _ => substring 0 intLen padded ++ "." ++ substring intLen digits padded
    end in
  if num_lt x 0 then "-" ++ body else body.

End Format.

(** ** Manipulation detectors: [src/security/anti-manipulation.ts] *)

Module Security.

Inductive Side : Type := BUY | SELL.

Record Order : Type := {
  id : string;
  marketId : string;
  trader : string;
  side : Side;
  amount : Z;
  price : Z;
  timestamp : Z;
  blockNumber : Z
}.

Record Trade : Type := {
  tr_id : string;
  tr_marketId : string;
  buyer : string;
  seller : string;
  tr_amount : Z;
  tr_price : Z;
  tr_timestamp : Z;
  tr_blockNumber : Z
}.

Inductive WhaleAlertType : Type := WHALE_ORDER | WHALE_TRADE | PRICE_IMPACT.
Inductive Severity : Type := LOW | MEDIUM | HIGH | CRITICAL.

(** The order LOW < MEDIUM < HIGH < CRITICAL. *)
Definition severityRank (s : Severity) : nat :=
  match s with
  | LOW => 0
  | MEDIUM => 1
  | HIGH => 2
  | CRITICAL => 3
  end.

Record WhaleAlert : Type := {
  alertType : WhaleAlertType;
  severity : Severity;
  al_trader : string;
  al_marketId : string;
  al_amount : Z;
  impact : Q;
  al_message : string;
  al_timestamp : Z
}.

Record WhaleDetector : Type := {
  volumeThreshold : Z;
  priceImpactThreshold : Q;
  historyWindowMs : Z;
  orderHistory : gmap string (list Order);
  volume24h : gmap string Z
}.

Definition new_WhaleDetector
  (threshold : Z) (impactThreshold : option Q) (window : option Z)
  : WhaleDetector :=
  {| volumeThreshold := threshold;
     priceImpactThreshold := default (2 # 100) impactThreshold;
     historyWindowMs := default 86400000 window;
     orderHistory := ∅;
     volume24h := ∅ |}.

Definition calculatePriceImpact (amount liquidity : Z) : Q :=
  if liquidity =? 0 then 1%Q
  else (Number amount / (Number liquidity + Number amount))%Q.

Definition storeOrder (d : WhaleDetector) (now : Z) (order : Order)
  : WhaleDetector :=
  let marketOrders :=
    (default [] (orderHistory d !! marketId order) ++ [order])%list in
  let cutoff := now - historyWindowMs d in
  let filtered := List.filter (fun o => cutoff <? timestamp o) marketOrders in
  {| volumeThreshold := volumeThreshold d;
     priceImpactThreshold := priceImpactThreshold d;
     historyWindowMs := historyWindowMs d;
     orderHistory := <[marketId order := filtered]> (orderHistory d);
     volume24h := volume24h d |}.

Definition updateVolume (d : WhaleDetector) (market : string) (volume : Z)
  : WhaleDetector :=
  {| volumeThreshold := volumeThreshold d;
     priceImpactThreshold := priceImpactThreshold d;
     historyWindowMs := historyWindowMs d;
     orderHistory := orderHistory d;
     volume24h := <[market := volume]> (volume24h d) |}.

(** The three checks of [analyzeOrder], each contributing at most one
    alert to the local array [alerts], in source order. *)
Definition sizeAlert (d : WhaleDetector) (now : Z) (order : Order)
  (currentLiquidity : Z) : list WhaleAlert :=
  if volumeThreshold d <=? amount order then
    [ {| alertType := WHALE_ORDER;
         severity := HIGH;
         al_trader := trader order;
         al_marketId := marketId order;
         al_amount := amount order;
         impact := calculatePriceImpact (amount order) currentLiquidity;
         al_message := "Large order detected: "
                         ++ Format.bigintToString (amount order) ++ " units";
         al_timestamp := now |} ]
  else [].

Definition impactAlert (d : WhaleDetector) (now : Z) (order : Order)
  (currentLiquidity : Z) : list WhaleAlert :=
  let imp := calculatePriceImpact (amount order) currentLiquidity in
  if num_ge imp (priceImpactThreshold d) then
    [ {| alertType := PRICE_IMPACT;
         severity := if num_gt imp (5 # 100) then CRITICAL else MEDIUM;
         al_trader := trader order;
         al_marketId := marketId order;
         al_amount := amount order;
         impact := imp;
         al_message := "High price impact detected: "
                         ++ Format.toFixed (imp * 100) 2 ++ "%";
         al_timestamp := now |} ]
  else [].

Definition volumeAlert (d : WhaleDetector) (now : Z) (order : Order)
  : list WhaleAlert :=
  let marketVolume := default 0 (volume24h d !! marketId order) in
  if 0 <? marketVolume then
    let relativeSize := (Number (amount order) / Number marketVolume)%Q in
    if num_gt relativeSize (1 # 10) then
      [ {| alertType := WHALE_TRADE;
           severity := if num_gt relativeSize (25 # 100) then CRITICAL else HIGH;
           al_trader := trader order;
           al_marketId := marketId order;
           al_amount := amount order;
           impact := relativeSize;
           al_message := "Order represents "
                           ++ Format.toFixed (relativeSize * 100) 1
                           ++ "% of 24h volume";
           al_timestamp := now |} ]
    else []
  else [].

(** The content of the local array [alerts] when [analyzeOrder] reaches
    its return statement. *)
Definition applicableAlerts (d : WhaleDetector) (now : Z) (order : Order)
  (currentLiquidity : Z) : list WhaleAlert :=
  (sizeAlert d now order currentLiquidity
     ++ impactAlert d now order currentLiquidity
     ++ volumeAlert d now order)%list.

Definition analyzeOrder (d : WhaleDetector) (now : Z) (order : Order)
  (currentLiquidity : Z) : option WhaleAlert * WhaleDetector :=
  let alerts := applicableAlerts d now order currentLiquidity in
  let d' := storeOrder d now order in
  (head alerts, d').

(** *** Wash trading detector and sandwich protector (construction only) *)

Record WashTradingDetector : Type := {
  minTradeCount : Z;
  timeWindowMs : Z;
  tradeHistory : gmap string (list Trade);
  addressPairs : gmap string Z
}.

Definition new_WashTradingDetector (minCount window : option Z)
  : WashTradingDetector :=
  {| minTradeCount := default 3 minCount;
     timeWindowMs := default 3600000 window;
     tradeHistory := ∅;
     addressPairs := ∅ |}.

Record SandwichProtector : Type := {
  blockWindow : Z;
  sw_maxSlippagePercent : Q;
  pendingTxs : gmap string Order;
  blockHistory : gmap Z (list Trade)
}.

Definition new_SandwichProtector (window : option Z) (slippage : option Q)
  : SandwichProtector :=
  {| blockWindow := default 2 window;
     sw_maxSlippagePercent := default (1 # 100) slippage;
     pendingTxs := ∅;
     blockHistory := ∅ |}.

(** *** Oracle monitor *)

Record OracleStatus : Type := {
  source : string;
  os_isActive : bool;
  lastUpdate : Z;
  os_price : Z;
  deviation : Q;
  stalenessMs : Z;
  confidence : Q
}.

Record OracleMonitor : Type := {
  sources : list string;
  maxStalenessMs : Z;
  maxDeviationPercent : Q;
  sourceStates : gmap string OracleStatus
}.

Definition new_OracleMonitor
  (srcs : list string) (staleness : option Z) (dev : option Q)
  : OracleMonitor :=
  {| sources := srcs;
     maxStalenessMs := default 300000 staleness;
     maxDeviationPercent := default (2 # 100) dev;
     sourceStates := ∅ |}.

Record OracleHealth : Type := {
  healthy : bool;
  issues : list string
}.

Definition sourceIssues (m : OracleMonitor) (src : string) : list string :=
  match sourceStates m !! src with
  | None => [src ++ ": No data received"]
  | Some state =>
      let stale :=
        if maxStalenessMs m <? stalenessMs state then
          [src ++ ": Stale data ("
               ++ Format.toFixed (Number (stalenessMs state) / 1000) 0
               ++ "s old)"]
        else [] in
      let deviating :=
        if num_gt (deviation state) (maxDeviationPercent m) then
          [src ++ ": High deviation ("
               ++ Format.toFixed (deviation state * 100) 2 ++ "%)"]
        else [] in
      (stale ++ deviating)%list
  end.

Definition checkHealth (m : OracleMonitor) : OracleHealth :=
  let issues := concat (map (sourceIssues m) (sources m)) in
  {| healthy := match issues with [] => true | _ => false end;
     issues := issues |}.

(** *** Oracle monitor: price updates *)

(** [Math.max(0, 1 - x / limit)].  For a limit of zero the quotient is
    infinite or NaN: the score is then 0 for a positive [x] and not a
    finite number otherwise ([None]). *)
Definition score (x limit : Q) : option Q :=
  if Qeq_bool limit 0 then
    if num_gt x 0 then Some 0%Q else None
  else Some (Math_max 0 (1 - x / limit)).

Definition calculateConfidence (m : OracleMonitor) (staleness : Z)
  (dev : Q) : option Q :=
  match score (Number staleness) (Number (maxStalenessMs m)),
        score dev (maxDeviationPercent m) with
  | Some stalenessScore, Some deviationScore =>
      Some ((stalenessScore + deviationScore) / 2)%Q
  | _, _ => None
  end.

(** The deviations of [price] from the other sources that have a
    positive price.  The sum of exact numbers does not depend on the
    order in which the map is walked. *)
Definition deviationsFrom (m : OracleMonitor) (src : string) (price : Z)
  : list Q :=
  omap (fun '(otherSource, state) =>
          if negb (String.eqb otherSource src) && (0 <? os_price state)
          then Some (Math_abs (Number (price - os_price state))
                     / Number (os_price state))%Q
          else None)
       (map_to_list (sourceStates m)).

Definition average (deviations : list Q) : Q :=
  match deviations with
  | [] => 0%Q
  | _ => (fold_left Qplus deviations 0 / Number (Z.of_nat (length deviations)))%Q
  end.

(** [updatePrice]; [None] when the confidence of the new status is not
    a finite number (a limit of zero). *)
Definition updatePrice (m : OracleMonitor) (now : Z) (src : string)
  (price ts : Z) : option (OracleStatus * OracleMonitor) :=
  let staleness := now - ts in
  let avgDeviation := average (deviationsFrom m src price) in
  match calculateConfidence m staleness avgDeviation with
  | Some c =>
      let status :=
        {| source := src;
           os_isActive := (staleness <? maxStalenessMs m)
                          && num_lt avgDeviation (maxDeviationPercent m);
           lastUpdate := ts;
           os_price := price;
           deviation := avgDeviation;
           stalenessMs := staleness;
           confidence := c |} in
      Some (status,
            {| sources := sources m;
               maxStalenessMs := maxStalenessMs m;
               maxDeviationPercent := maxDeviationPercent m;
               sourceStates := <[src := status]> (sourceStates m) |})
  | None => None
  end.

End Security.


(** ** JSON serialisation: the part of [JSON.stringify] the ledger uses *)

Module Json.

(** The values that reach [JSON.stringify] as audit payloads. *)
#[local] Unset Elimination Schemes.
Inductive JSValue : Type :=
| JUndefined
| JNull
| JBool (b : bool)
| JNumber (q : Q)
| JBigInt (z : Z)
| JString (s : string)
| JArray (elements : list JSValue)
| JObject (properties : list (string * JSValue)).
#[local] Set Elimination Schemes.

Definition dquote : ascii := ascii_of_N 34.
Definition backslash : ascii := ascii_of_N 92.

Definition hexDigit (n : N) : ascii :=
  if (n <? 10)%N then ascii_of_N (48 + n) else ascii_of_N (87 + n).

(** One character of [QuoteJSONString]. *)
Definition escapeChar (c : ascii) : string :=
  let n := N_of_ascii c in
  let esc (x : string) := String backslash x in
  if (n =? 34)%N then esc (String dquote EmptyString)
  else if (n =? 92)%N then esc (String backslash EmptyString)
  else if (n =? 8)%N then esc "b"
  else if (n =? 9)%N then esc "t"
  else if (n =? 10)%N then esc "n"
  else if (n =? 12)%N then esc "f"
  else if (n =? 13)%N then esc "r"
  else if (n <? 32)%N then
    esc (String "u" (String "0" (String "0"
          (String (hexDigit (n / 16)) (String (hexDigit (n mod 16)) EmptyString)))))
  else String c EmptyString.

Fixpoint escapeChars (s : string) : string :=
  match s with
  | EmptyString => EmptyString
  | String c rest => escapeChar c ++ escapeChars rest
  end.

Definition quote (s : string) : string :=
  String dquote (escapeChars s ++ String dquote EmptyString).

Fixpoint join (parts : list string) : string :=
  match parts with
  | [] => EmptyString
  | [p] => p
  | p :: rest => p ++ "," ++ join rest
  end.

Definition bigintError : JSError :=
  TypeError "Do not know how to serialize a BigInt".

Section Stringify.

(** [Number::toString] of the runtime. *)
Variable numberToString : Q -> string.

(** [SerializeJSONProperty]: [Return None] is the result [undefined]
    (the property is left out of an object and becomes [null] in an
    array); a bigint throws. *)
Fixpoint serialize (v : JSValue) : Completion (option string) :=
  match v with
  | JUndefined => Return None
  | JNull => Return (Some "null")
  | JBool b => Return (Some (if b then "true" else "false"))
  | JNumber q => Return (Some (numberToString q))
  | JBigInt _ => Throw bigintError
  | JString s => Return (Some (quote s))
  | JArray elements =>
      let fix items (l : list JSValue) : Completion (list string) :=
        match l with
        | [] => Return []
        | x :: rest =>
            bind (serialize x) (fun t =>
            bind (items rest) (fun ts =>
            Return (default "null" t :: ts)))
        end in
      bind (items elements) (fun ts =>
      Return (Some ("[" ++ join ts ++ "]")))
  | JObject properties =>
      let fix members (l : list (string * JSValue))
        : Completion (list string) :=
        match l with
        | [] => Return []
        | (k, x) :: rest =>
            bind (serialize x) (fun t =>
            bind (members rest) (fun ts =>
            Return match t with
                   | Some text => (quote k ++ ":" ++ text) :: ts
                   | None => ts
                   end))
        end in
      bind (members properties) (fun ts =>
      Return (Some ("{" ++ join ts ++ "}")))
  end.

(** [JSON.stringify(v)] for an object [v]: always a string. *)
Definition stringify (v : JSValue) : Completion string :=
  bind (serialize v) (fun t => Return (default "undefined" t)).

End Stringify.

End Json.

(** ** Audit ledger: [src/audit/audit-trail.ts] *)

Module Audit.
Import Json.

Inductive AuditMode : Type := local | onchain | both.

Record AuditEntry : Type := {
  type : string;
  agent : string;
  data : JSValue;
  timestamp : Z;
  hash : option string;
  signature : option string
}.

(** The argument of [log]: an entry without hash and signature. *)
Record LogRequest : Type := {
  rq_type : string;
  rq_agent : string;
  rq_data : JSValue;
  rq_timestamp : Z
}.

(** The logger.  [wallet] and [contract] stand for the ethers handles
    (the signing key and the contract address); both are absent in
    local mode. *)
Record AuditLogger : Type := {
  mode : AuditMode;
  entries : list AuditEntry;
  wallet : option string;
  contract : option string;
  lastFlush : Z;
  flushIntervalMs : Z;
  merkleTree : list string
}.

Definition new_localLogger (now : Z) : AuditLogger :=
  {| mode := local; entries := []; wallet := None; contract := None;
     lastFlush := now; flushIntervalMs := 60000; merkleTree := [] |}.

Definition withData (e : AuditEntry) (d : JSValue) : AuditEntry :=
  {| type := type e; agent := agent e; data := d;
     timestamp := timestamp e; hash := hash e; signature := signature e |}.

Section Logger.

(** The runtime and the ethers library. *)
Variable numberToString : Q -> string.
(** [ethers.keccak256(ethers.toUtf8Bytes(s))] *)
Variable keccak256 : string -> string.
(** [wallet.signMessage] for the wallet of a given key *)
Variable signMessage : string -> string -> string.
(** whether the transaction [contract.logEntry(hash, timestamp, type)]
    goes through *)
Variable chainLogEntry : string -> option string -> Z -> string -> bool.

(** The object literal handed to [JSON.stringify] by [generateHash]. *)
Definition hashedFields (ty ag : string) (d : JSValue) (ts : Z) : JSValue :=
  JObject [("type", JString ty); ("agent", JString ag);
           ("data", d); ("timestamp", JNumber (Number ts))].

Definition canonical (ty ag : string) (d : JSValue) (ts : Z)
  : Completion string :=
  stringify numberToString (hashedFields ty ag d ts).

Definition generateHash (ty ag : string) (d : JSValue) (ts : Z)
  : Completion string :=
  bind (canonical ty ag d ts) (fun text => Return (keccak256 text)).

Definition shouldFlush (l : AuditLogger) (now : Z) : bool :=
  flushIntervalMs l <? now - lastFlush l.

Definition unsigned (e : AuditEntry) : bool :=
  match signature e with
  | None => true
  | Some sig => String.eqb sig EmptyString
  end.

Definition flush (l : AuditLogger) (now : Z) : AuditLogger :=
  match contract l, mode l with
  | None, _ => l
  | Some _, local => l
  | Some c, _ =>
      let unflushed := List.filter unsigned (entries l) in
      if forallb (fun e => chainLogEntry c (hash e) (timestamp e) (type e))
                 (firstn 10 unflushed)
      then {| mode := mode l; entries := entries l; wallet := wallet l;
              contract := contract l; lastFlush := now;
              flushIntervalMs := flushIntervalMs l;
              merkleTree := merkleTree l |}
      else l
  end.

Definition log (l : AuditLogger) (now : Z) (entry : LogRequest)
  : Completion (AuditEntry * AuditLogger) :=
  let ts := if rq_timestamp entry =? 0 then now else rq_timestamp entry in
  bind (generateHash (rq_type entry) (rq_agent entry) (rq_data entry) ts)
    (fun h =>
       let fullEntry :=
         {| type := rq_type entry; agent := rq_agent entry;
            data := rq_data entry; timestamp := ts;
            hash := Some h;
            signature := match wallet l with
                         | Some key => Some (signMessage key h)
                         | None => None
                         end |} in
       let l1 := {| mode := mode l;
                    entries := (entries l ++ [fullEntry])%list;
                    wallet := wallet l; contract := contract l;
                    lastFlush := lastFlush l;
                    flushIntervalMs := flushIntervalMs l;
                    merkleTree := (merkleTree l ++ [h])%list |} in
       let l2 := if shouldFlush l1 now then flush l1 now else l1 in
       Return (fullEntry, l2)).

Definition verifyEntry (l : AuditLogger) (entry : AuditEntry)
  : Completion bool :=
  bind (generateHash (type entry) (agent entry) (data entry)
                     (timestamp entry))
    (fun computedHash =>
       Return (bool_decide (hash entry = Some computedHash))).

End Logger.

(** *** Typed log calls *)

Record TradeParams : Type := {
  tp_agent : string;
  tp_marketId : string;
  tp_action : Security.Side;
  tp_amount : Z;
  tp_price : Z;
  tp_reason : string
}.

Definition sideName (a : Security.Side) : string :=
  match a with
  | Security.BUY => "BUY"
  | Security.SELL => "SELL"
  end.

(** The payload of [logTrade]: the bigints are converted to strings. *)
Definition tradePayload (params : TradeParams) : JSValue :=
  JObject [("marketId", JString (tp_marketId params));
           ("action", JString (sideName (tp_action params)));
           ("amount", JString (Format.bigintToString (tp_amount params)));
           ("price", JString (Format.bigintToString (tp_price params)));
           ("value", JString (Format.bigintToString
                                (tp_amount params * tp_price params)));
           ("reason", JString (tp_reason params))].

Section TypedLogs.

Variable numberToString : Q -> string.
Variable keccak256 : string -> string.
Variable signMessage : string -> string -> string.
Variable chainLogEntry : string -> option string -> Z -> string -> bool.

Definition logTrade (l : AuditLogger) (now : Z) (params : TradeParams)
  : Completion (AuditEntry * AuditLogger) :=
  log numberToString keccak256 signMessage chainLogEntry l now
    {| rq_type := "TRADE";
       rq_agent := tp_agent params;
       rq_data := tradePayload params;
       rq_timestamp := now |}.

End TypedLogs.

(** *** Merkle root *)

Definition ZeroHash : string :=
  "0x0000000000000000000000000000000000000000000000000000000000000000".

Section Merkle.

(** [ethers.keccak256(ethers.concat([left, right]))] on two hashes of
    the ledger. *)
Variable hashPair : string -> string -> string.

(** One pass of the loop of [computeMerkleRoot]: the hashes are paired
    off, [hashes[i + 1] || left] pairing a hash with itself when it has
    no right neighbour (or an empty one). *)
Fixpoint nextLevel (hashes : list string) : list string :=
  match hashes with
  | [] => []
  | leftHash :: rest =>
      match rest with
      | [] => [hashPair leftHash leftHash]
      | rightHash :: rest' =>
          hashPair leftHash
                   (if String.eqb rightHash EmptyString then leftHash
                    else rightHash)
          :: nextLevel rest'
      end
  end.

(** The recursion of [computeMerkleRoot], which ends because a level of
    two or more hashes is shorter than the one before; [fuel] bounds the
    number of levels. *)
Fixpoint merkleFrom (fuel : nat) (hashes : list string) : string :=
  match hashes with
  | [] => ZeroHash
  | [h] => h
  | _ =>
      match fuel with
      | O => ZeroHash
      | S fuel' => merkleFrom fuel' (nextLevel hashes)
      end
  end.

Definition computeMerkleRoot (hashes : list string) : string :=
  merkleFrom (length hashes) hashes.

Definition getMerkleRoot (l : AuditLogger) : string :=
  computeMerkleRoot (merkleTree l).

End Merkle.

(** *** Verification of a trail: [AuditVerifier] *)

Record TrailReport : Type := {
  valid : bool;
  invalidCount : Z;
  tr_issues : list string
}.

(** The entries of a trail are objects; the array holds references to
    them and [entries.indexOf(entry)] compares references. *)
Definition Ref : Type := nat.

Fixpoint indexOf (trail : list Ref) (r : Ref) : option nat :=
  match trail with
  | [] => None
  | x :: rest =>
      if Nat.eqb x r then Some O
      else option_map S (indexOf rest r)
  end.

Section Verifier.

Variable numberToString : Q -> string.
Variable keccak256 : string -> string.
(** whether [ethers.verifyMessage(toUtf8Bytes(hash), signature)]
    returns; it throws on a malformed signature *)
Variable verifyMessage : string -> string -> bool.

(** The objects the references stand for. *)
Variable heap : Ref -> AuditEntry.

(** The body of the loop of [verifyTrail] for one entry, on the issues
    and the count found so far. *)
Definition checkEntry (trail : list Ref) (found : list string * Z) (r : Ref)
  : Completion (list string * Z) :=
  let entry := heap r in
  let '(issues, invalidCount) := found in
  bind (generateHash numberToString keccak256
          (type entry) (agent entry) (data entry) (timestamp entry))
    (fun computedHash =>
       let issue (what : string) : string :=
         "Entry " ++ default "undefined" (hash entry) ++ what in
       if negb (bool_decide (hash entry = Some computedHash)) then
         Return ((issues ++ [issue ": Hash mismatch"])%list,
                 invalidCount + 1)
       else
         let found1 :=
           match signature entry with
           | Some sig =>
               if String.eqb sig EmptyString then (issues, invalidCount)
               else if verifyMessage computedHash sig
                    then (issues, invalidCount)
                    else ((issues ++ [issue ": Invalid signature"])%list,
                          invalidCount + 1)
           | None => (issues, invalidCount)
           end in
         let found2 :=
           match indexOf trail r with
           | Some (S before) =>
               match nth_error trail before with
               | Some prev =>
                   if timestamp entry <? timestamp (heap prev) then
                     ((fst found1
                       ++ [issue ": Timestamp out of order"])%list,
                      snd found1 + 1)
                   else found1
               | None => found1
               end
           | _ => found1
           end in
         Return found2).

Fixpoint checkEntries (trail : list Ref) (found : list string * Z)
  (rest : list Ref) : Completion (list string * Z) :=
  match rest with
  | [] => Return found
  | r :: rest' =>
      bind (checkEntry trail found r) (fun found' =>
      checkEntries trail found' rest')
  end.

Definition verifyTrail (trail : list Ref) : Completion TrailReport :=
  bind (checkEntries trail ([], 0) trail) (fun found =>
  Return {| valid := snd found =? 0;
            invalidCount := snd found;
            tr_issues := fst found |}).

End Verifier.

End Audit.

(** ** The decision pipeline: [src/agents/base-agent.ts] *)

Module Agent.
Import Json.

Record AgentConfig : Type := {
  name : string;
  maxPositionPercent : Q;
  minConfidenceThreshold : Q;
  kellyFraction : Q;
  stopLossPercent : Q;
  takeProfitPercent : option Q;
  maxDailyDrawdownPercent : Q;
  maxTotalDrawdownPercent : Q;
  rebalanceThreshold : Q;
  whaleThreshold : Z;
  tradingEnabled : bool
}.

Record Wallet : Type := {
  address : string;
  balance : Z
}.

Record MarketData : Type := {
  marketId : string;
  currentPrice : Z;
  liquidity : Z;
  volume24h : Z;
  volatility : Q;
  timestamp : Z
}.

Record Prediction : Type := {
  p_marketId : string;
  outcome : bool;
  p_confidence : Q;
  expectedValue : Q;
  p_timestamp : Z
}.

Inductive Action : Type := BUY | SELL | HOLD.

Record TradeDecision : Type := {
  action : Action;
  amount : Z;
  d_marketId : string;
  reason : string;
  confidence : Q
}.

(** An alert handler returns normally ([None]) or throws. *)
Definition AlertHandler : Type := Security.WhaleAlert -> option JSError.

Record BaseAgent : Type := {
  config : AgentConfig;
  wallet : Wallet;
  portfolio : Risk.PortfolioState;
  drawdownProtector : Risk.DrawdownProtector;
  stopLossManagers : gmap string Risk.StopLossManager;
  portfolioBalancer : Risk.PortfolioBalancer;
  whaleDetector : Security.WhaleDetector;
  washTradingDetector : Security.WashTradingDetector;
  oracleMonitor : Security.OracleMonitor;
  sandwichProtector : Security.SandwichProtector;
  auditLogger : Audit.AuditLogger;
  isRunning : bool;
  alertHandlers : list AlertHandler
}.

(** *** Construction *)

Definition new_BaseAgent
  (config : AgentConfig) (wallet : Wallet) (auditLogger : Audit.AuditLogger)
  (now : Z) : Completion BaseAgent :=
  let portfolio :=
    {| Risk.totalValue := balance wallet;
       Risk.positions := [];
       Risk.cash := balance wallet;
       Risk.lastRebalance := now |} in
  let drawdownConfig :=
    {| Risk.maxDailyDrawdownPercent := maxDailyDrawdownPercent config;
       Risk.maxTotalDrawdownPercent := maxTotalDrawdownPercent config;
       Risk.cooldownPeriodMs := 3600000;
       Risk.pauseOnTrigger := true |} in
  let drawdownProtector :=
    Risk.new_DrawdownProtector drawdownConfig (balance wallet) now in
  (* new PortfolioBalancer(new Map(), config.rebalanceThreshold) *)
  bind (Risk.new_PortfolioBalancer [] (Some (rebalanceThreshold config)) None)
    (fun portfolioBalancer =>
       Return
         {| config := config;
            wallet := wallet;
            portfolio := portfolio;
            drawdownProtector := drawdownProtector;
            stopLossManagers := ∅;
            portfolioBalancer := portfolioBalancer;
            whaleDetector :=
              Security.new_WhaleDetector (whaleThreshold config) None None;
            washTradingDetector := Security.new_WashTradingDetector None None;
            oracleMonitor :=
              Security.new_OracleMonitor
                ["chainlink"; "uniswap"; "binance"] None None;
            sandwichProtector := Security.new_SandwichProtector None None;
            auditLogger := auditLogger;
            isRunning := false;
            alertHandlers := [] |}).

(** [x || d] on an optional number. *)
Definition orElse (o : option Q) (d : Q) : Q :=
  match o with
  | Some q => if truthy (Some q) then q else d
  | None => d
  end.

Record CustomParams : Type := {
  confidenceThreshold : option Q;
  cp_maxPositionPercent : option Q;
  cp_stopLossPercent : option Q;
  cp_maxVolatility : option Q
}.

Record ConservativeConfig : Type := {
  cc_wallet : Wallet;
  cc_auditLogger : Audit.AuditLogger;
  customParams : option CustomParams
}.

Record ConservativeBot : Type := {
  base : BaseAgent;
  maxVolatility : Q
}.

Definition with_portfolioBalancer (s : BaseAgent)
  (b : Risk.PortfolioBalancer) : BaseAgent :=
  {| config := config s; wallet := wallet s; portfolio := portfolio s;
     drawdownProtector := drawdownProtector s;
     stopLossManagers := stopLossManagers s;
     portfolioBalancer := b;
     whaleDetector := whaleDetector s;
     washTradingDetector := washTradingDetector s;
     oracleMonitor := oracleMonitor s;
     sandwichProtector := sandwichProtector s;
     auditLogger := auditLogger s; isRunning := isRunning s;
     alertHandlers := alertHandlers s |}.

Definition new_ConservativeBot (cfg : ConservativeConfig) (now : Z)
  : Completion ConservativeBot :=
  let custom (f : CustomParams -> option Q) : option Q :=
    match customParams cfg with
    | Some c => f c
    | None => None
    end in
  let agentConfig :=
    {| name := "ConservativeBot";
       maxPositionPercent := orElse (custom cp_maxPositionPercent) (1 # 100);
       minConfidenceThreshold := orElse (custom confidenceThreshold) (70 # 100);
       kellyFraction := 1 # 10;
       stopLossPercent := orElse (custom cp_stopLossPercent) (2 # 100);
       takeProfitPercent := Some (5 # 100);
       maxDailyDrawdownPercent := 3 # 100;
       maxTotalDrawdownPercent := 10 # 100;
       rebalanceThreshold := 2 # 100;
       whaleThreshold := 1000000000000000000;
       tradingEnabled := true |} in
  (* super(agentConfig, config.wallet, config.auditLogger) *)
  bind (new_BaseAgent agentConfig (cc_wallet cfg) (cc_auditLogger cfg) now)
    (fun this =>
  bind (Risk.new_PortfolioBalancer
          [("stable", 5 # 10); ("moderate", 3 # 10); ("speculative", 2 # 10)]
          (Some (2 # 100)) None)
    (fun balancer =>
       Return {| base := with_portfolioBalancer this balancer;
                 maxVolatility := orElse (custom cp_maxVolatility) (3 # 10) |})).

(** *** Methods: state passing with exceptions *)

(** The outcome of a method call on an agent: a value or a thrown error,
    with the state of the agent at that point. *)
Inductive Outcome (A : Type) : Type :=
| Ok (a : A) (s : BaseAgent)
| Raised (e : JSError) (s : BaseAgent).
Arguments Ok {A} a s.
Arguments Raised {A} e s.

Definition Method (A : Type) : Type := BaseAgent -> Outcome A.

Definition ret {A} (a : A) : Method A := fun s => Ok a s.
Definition throw {A} (e : JSError) : Method A := fun s => Raised e s.
Definition seq {A B} (m : Method A) (k : A -> Method B) : Method B :=
  fun s => match m s with
           | Ok a s1 => k a s1
           | Raised e s1 => Raised e s1
           end.
Definition this : Method BaseAgent := fun s => Ok s s.
Definition assign (s' : BaseAgent) : Method unit := fun _ => Ok tt s'.
(** [try { body } catch (error) { handler(error) }] *)
Definition tryCatch {A} (body : Method A) (handler : JSError -> Method A)
  : Method A :=
  fun s => match body s with
           | Ok a s1 => Ok a s1
           | Raised e s1 => handler e s1
           end.

Declare Scope method_scope.
Delimit Scope method_scope with method.
Notation "'let*' x := m 'in' k" :=
  (seq m (fun x => k))
    (at level 10, x pattern, m at level 100, k at level 200)
  : method_scope.
Notation "m ;;; k" :=
  (seq m (fun _ => k))
    (at level 100, k at level 200, right associativity) : method_scope.

Definition outcomeState {A} (o : Outcome A) : BaseAgent :=
  match o with
  | Ok _ s => s
  | Raised _ s => s
  end.

(** The audit ledger of an agent. *)
Definition ledger (s : BaseAgent) : list Audit.AuditEntry :=
  Audit.entries (auditLogger s).

Definition with_auditLogger (s : BaseAgent) (l : Audit.AuditLogger)
  : BaseAgent :=
  {| config := config s; wallet := wallet s; portfolio := portfolio s;
     drawdownProtector := drawdownProtector s;
     stopLossManagers := stopLossManagers s;
     portfolioBalancer := portfolioBalancer s;
     whaleDetector := whaleDetector s;
     washTradingDetector := washTradingDetector s;
     oracleMonitor := oracleMonitor s;
     sandwichProtector := sandwichProtector s;
     auditLogger := l; isRunning := isRunning s;
     alertHandlers := alertHandlers s |}.

Definition with_drawdownProtector (s : BaseAgent)
  (d : Risk.DrawdownProtector) : BaseAgent :=
  {| config := config s; wallet := wallet s; portfolio := portfolio s;
     drawdownProtector := d;
     stopLossManagers := stopLossManagers s;
     portfolioBalancer := portfolioBalancer s;
     whaleDetector := whaleDetector s;
     washTradingDetector := washTradingDetector s;
     oracleMonitor := oracleMonitor s;
     sandwichProtector := sandwichProtector s;
     auditLogger := auditLogger s; isRunning := isRunning s;
     alertHandlers := alertHandlers s |}.

Definition with_whaleDetector (s : BaseAgent)
  (d : Security.WhaleDetector) : BaseAgent :=
  {| config := config s; wallet := wallet s; portfolio := portfolio s;
     drawdownProtector := drawdownProtector s;
     stopLossManagers := stopLossManagers s;
     portfolioBalancer := portfolioBalancer s;
     whaleDetector := d;
     washTradingDetector := washTradingDetector s;
     oracleMonitor := oracleMonitor s;
     sandwichProtector := sandwichProtector s;
     auditLogger := auditLogger s; isRunning := isRunning s;
     alertHandlers := alertHandlers s |}.

Definition with_stopLossManagers (s : BaseAgent)
  (m : gmap string Risk.StopLossManager) : BaseAgent :=
  {| config := config s; wallet := wallet s; portfolio := portfolio s;
     drawdownProtector := drawdownProtector s;
     stopLossManagers := m;
     portfolioBalancer := portfolioBalancer s;
     whaleDetector := whaleDetector s;
     washTradingDetector := washTradingDetector s;
     oracleMonitor := oracleMonitor s;
     sandwichProtector := sandwichProtector s;
     auditLogger := auditLogger s; isRunning := isRunning s;
     alertHandlers := alertHandlers s |}.

(** *** Audit payloads *)

Definition levelName (l : Risk.DrawdownLevel) : string :=
  match l with
  | Risk.NORMAL => "NORMAL"
  | Risk.WARNING => "WARNING"
  | Risk.CRITICAL => "CRITICAL"
  | Risk.COOLDOWN => "COOLDOWN"
  end.

Definition statusToJS (st : Risk.DrawdownStatus) : JSValue :=
  JObject [("canTrade", JBool (Risk.canTrade st));
           ("drawdownPercent", JNumber (Risk.drawdownPercent st));
           ("dailyDrawdownPercent", JNumber (Risk.dailyDrawdownPercent st));
           ("status", JString (levelName (Risk.status st)))].

Definition alertTypeName (t : Security.WhaleAlertType) : string :=
  match t with
  | Security.WHALE_ORDER => "WHALE_ORDER"
  | Security.WHALE_TRADE => "WHALE_TRADE"
  | Security.PRICE_IMPACT => "PRICE_IMPACT"
  end.

Definition severityName (v : Security.Severity) : string :=
  match v with
  | Security.LOW => "LOW"
  | Security.MEDIUM => "MEDIUM"
  | Security.HIGH => "HIGH"
  | Security.CRITICAL => "CRITICAL"
  end.

Definition alertToJS (a : Security.WhaleAlert) : JSValue :=
  JObject [("type", JString (alertTypeName (Security.alertType a)));
           ("severity", JString (severityName (Security.severity a)));
           ("trader", JString (Security.al_trader a));
           ("marketId", JString (Security.al_marketId a));
           ("amount", JBigInt (Security.al_amount a));
           ("impact", JNumber (Security.impact a));
           ("message", JString (Security.al_message a));
           ("timestamp", JNumber (Number (Security.al_timestamp a)))].

Definition actionName (a : Action) : string :=
  match a with
  | BUY => "BUY"
  | SELL => "SELL"
  | HOLD => "HOLD"
  end.

Definition decisionToJS (d : TradeDecision) : JSValue :=
  JObject [("action", JString (actionName (action d)));
           ("amount", JBigInt (amount d));
           ("marketId", JString (d_marketId d));
           ("reason", JString (reason d));
           ("confidence", JNumber (confidence d))].

Definition optionalString (o : option string) : JSValue :=
  match o with
  | Some s => JString s
  | None => JUndefined
  end.

Definition getPositionSize (s : BaseAgent) (market : string) : Z :=
  match List.find (fun p => String.eqb (Risk.pos_marketId p) market)
                  (Risk.positions (portfolio s)) with
  | Some pos => Risk.position pos
  | None => 0
  end.

(** *** The pipeline *)

(** The return statements of [validateWithRiskManagement], in source
    order. *)
Inductive ValidationSite : Type :=
| LowConfidence
| NonPositiveSize
| StopLossOverride
| Sized.

(** The return statements of [processMarketData], in source order.
    [Caught] is the return of the [catch] block. *)
Inductive ReturnSite : Type :=
| NotRunning
| DrawdownHalt
| OracleUnhealthy
| ManipulationBlock
| NoDecision
| Rejected (v : ValidationSite)
| Approved (v : ValidationSite)
| Caught (e : JSError).

Definition modify (f : BaseAgent -> BaseAgent) : Method unit :=
  fun s => Ok tt (f s).

Definition lift {A} (c : Completion A) : Method A :=
  fun s => match c with
           | Return a => Ok a s
           | Throw e => Raised e s
           end.

Fixpoint callHandlers (handlers : list AlertHandler)
  (alert : Security.WhaleAlert) : Method unit :=
  match handlers with
  | [] => ret tt
  | handler :: rest =>
      match handler alert with
      | Some e => throw e
      | None => callHandlers rest alert
      end
  end.

Definition isCriticalSeverity (v : Security.Severity) : bool :=
  match v with
  | Security.CRITICAL => true
  | _ => false
  end.

Definition isHold (a : Action) : bool :=
  match a with
  | HOLD => true
  | _ => false
  end.

Definition kellyParamsOf (s : BaseAgent) (decision : TradeDecision)
  : Risk.PositionSizingParams :=
  {| Risk.bankroll := Risk.totalValue (portfolio s);
     Risk.winProbability := confidence decision;
     Risk.winLossRatio := 15 # 10;
     Risk.kellyFraction := Some (kellyFraction (config s));
     Risk.maxPositionPercent := Some (maxPositionPercent (config s)) |}.

Definition withAmount (d : TradeDecision) (a : Z) : TradeDecision :=
  {| action := action d; amount := a; d_marketId := d_marketId d;
     reason := reason d; confidence := confidence d |}.

Section Pipeline.
Local Open Scope method_scope.

Variable numberToString : Q -> string.
Variable keccak256 : string -> string.
Variable signMessage : string -> string -> string.
Variable chainLogEntry : string -> option string -> Z -> string -> bool.

(** The abstract method of the strategy subclass; it receives the
    clock reading of the tick. *)
Variable makeTradingDecision :
  MarketData -> Prediction -> Z -> Method (option TradeDecision).

Definition logEvent (ty : string) (d : JSValue) (now : Z) : Method unit :=
  fun s =>
    match Audit.log numberToString keccak256 signMessage chainLogEntry
            (auditLogger s) now
            {| Audit.rq_type := ty;
               Audit.rq_agent := name (config s);
               Audit.rq_data := d;
               Audit.rq_timestamp := now |} with
    | Return (_, l) => Ok tt (with_auditLogger s l)
    | Throw e => Raised e s
    end.

Definition handleAlert (alert : Security.WhaleAlert) (now : Z)
  : Method unit :=
  let* s := this in
  callHandlers (alertHandlers s) alert ;;;
  logEvent "SECURITY_ALERT" (alertToJS alert) now.

Definition checkForManipulation (marketData : MarketData) (now : Z)
  : Method (option Security.WhaleAlert * bool) :=
  let* s := this in
  let dummyOrder :=
    {| Security.id := "check";
       Security.marketId := marketId marketData;
       Security.trader := address (wallet s);
       Security.side := Security.BUY;
       Security.amount := Z.quot (liquidity marketData) 100;
       Security.price := currentPrice marketData;
       Security.timestamp := now;
       Security.blockNumber := 0 |} in
  let '(whaleAlert, detector) :=
    Security.analyzeOrder (whaleDetector s) now dummyOrder
                          (liquidity marketData) in
  modify (fun s => with_whaleDetector s detector) ;;;
  match whaleAlert with
  | Some alert =>
      if isCriticalSeverity (Security.severity alert)
      then ret (Some alert, true)
      else ret (None, false)
  | None => ret (None, false)
  end.

Definition validateWithRiskManagement
  (decision : TradeDecision) (marketData : MarketData) (now : Z)
  : Method (ValidationSite * option TradeDecision) :=
  let* s := this in
  if num_lt (confidence decision) (minConfidenceThreshold (config s)) then
    logEvent "LOW_CONFIDENCE"
      (JObject [("confidence", JNumber (confidence decision));
                ("threshold", JNumber (minConfidenceThreshold (config s)))])
      now ;;;
    ret (LowConfidence, None)
  else
    let* kellySize := lift (Risk.calculateKellyCriterion (kellyParamsOf s decision)) in
    let maxPosition :=
      Z.quot (Risk.totalValue (portfolio s)
              * BigInt_floor (maxPositionPercent (config s) * 10000))
             10000 in
    let positionSize :=
      if kellySize <? maxPosition then kellySize else maxPosition in
    if positionSize <=? 0 then ret (NonPositiveSize, None)
    else
      match stopLossManagers s !! d_marketId decision with
      | Some existingSL =>
          let '(slCheck, updated) :=
            Risk.updatePrice existingSL (currentPrice marketData) in
          modify (fun s =>
                    with_stopLossManagers s
                      (<[d_marketId decision := updated]>
                         (stopLossManagers s))) ;;;
          if Risk.shouldExit slCheck then
            logEvent "STOP_LOSS_TRIGGERED"
              (JObject [("marketId", JString (d_marketId decision));
                        ("reason", optionalString (Risk.reason slCheck))])
              now ;;;
            ret (StopLossOverride,
                 Some {| action := SELL;
                         amount := getPositionSize s (d_marketId decision);
                         d_marketId := d_marketId decision;
                         reason := "Stop loss: "
                                     ++ default "undefined" (Risk.reason slCheck);
                         confidence := 1 |})
          else ret (Sized, Some (withAmount decision positionSize))
      | None => ret (Sized, Some (withAmount decision positionSize))
      end.

(** Steps 1 to 3 of [processMarketData]: the gates before the strategy
    is consulted.  The result is the return statement taken, or [None]
    when control reaches step 4. *)
Definition runGates (marketData : MarketData) (now : Z)
  : Method (option ReturnSite) :=
  let* s := this in
  let '(drawdownStatus, protector) :=
    Risk.updateValue (drawdownProtector s) now
                     (Risk.totalValue (portfolio s)) in
  modify (fun s => with_drawdownProtector s protector) ;;;
  if negb (Risk.canTrade drawdownStatus) then
    logEvent "DRAWDOWN_HALT"
      (JObject [("status", statusToJS drawdownStatus)]) now ;;;
    ret (Some DrawdownHalt)
  else
    let oracleHealth := Security.checkHealth (oracleMonitor s) in
    if negb (Security.healthy oracleHealth) then
      logEvent "ORACLE_UNHEALTHY"
        (JObject [("issues",
                   JArray (map JString (Security.issues oracleHealth)))])
        now ;;;
      ret (Some OracleUnhealthy)
    else
      let* manipulationCheck := checkForManipulation marketData now in
      match manipulationCheck with
      | (Some alert, blockTrade) =>
          handleAlert alert now ;;;
          if blockTrade then ret (Some ManipulationBlock) else ret None
      | (None, _) => ret None
      end.

(** Steps 4 to 6: everything after the gates. *)
Definition decide (marketData : MarketData) (prediction : Prediction)
  (now : Z) : Method (ReturnSite * option TradeDecision) :=
  let* decision := makeTradingDecision marketData prediction now in
  match decision with
  | None => ret (NoDecision, None)
  | Some d =>
      if isHold (action d) then ret (NoDecision, None)
      else
        let* validated := validateWithRiskManagement d marketData now in
        match validated with
        | (site, None) => ret (Rejected site, None)
        | (site, Some validatedDecision) =>
            logEvent "TRADE_DECISION"
              (JObject [("decision", decisionToJS validatedDecision)])
              now ;;;
            ret (Approved site, Some validatedDecision)
        end
  end.

(** The body of the [try] block. *)
Definition tryBlock (marketData : MarketData) (prediction : Prediction)
  (now : Z) : Method (ReturnSite * option TradeDecision) :=
  let* gate := runGates marketData now in
  match gate with
  | Some site => ret (site, None)
  | None => decide marketData prediction now
  end.

Definition catchBlock (now : Z) (error : JSError)
  : Method (ReturnSite * option TradeDecision) :=
  logEvent "ERROR" (JObject [("error", JString (message error))]) now ;;;
  ret (Caught error, None).

(** [processMarketData], with the return statement taken next to the
    returned value. *)
Definition processMarketData_at
  (marketData : MarketData) (prediction : Prediction) (now : Z)
  : Method (ReturnSite * option TradeDecision) :=
  let* s := this in
  if negb (isRunning s) || negb (tradingEnabled (config s)) then
    ret (NotRunning, None)
  else
    tryCatch (tryBlock marketData prediction now) (catchBlock now).

Definition processMarketData
  (marketData : MarketData) (prediction : Prediction) (now : Z)
  : Method (option TradeDecision) :=
  let* r := processMarketData_at marketData prediction now in
  ret (snd r).

End Pipeline.

(** *** Lifecycle and position bookkeeping *)

Definition with_isRunning (s : BaseAgent) (b : bool) : BaseAgent :=
  {| config := config s; wallet := wallet s; portfolio := portfolio s;
     drawdownProtector := drawdownProtector s;
     stopLossManagers := stopLossManagers s;
     portfolioBalancer := portfolioBalancer s;
     whaleDetector := whaleDetector s;
     washTradingDetector := washTradingDetector s;
     oracleMonitor := oracleMonitor s;
     sandwichProtector := sandwichProtector s;
     auditLogger := auditLogger s; isRunning := b;
     alertHandlers := alertHandlers s |}.

Definition with_portfolio (s : BaseAgent) (p : Risk.PortfolioState)
  : BaseAgent :=
  {| config := config s; wallet := wallet s; portfolio := p;
     drawdownProtector := drawdownProtector s;
     stopLossManagers := stopLossManagers s;
     portfolioBalancer := portfolioBalancer s;
     whaleDetector := whaleDetector s;
     washTradingDetector := washTradingDetector s;
     oracleMonitor := oracleMonitor s;
     sandwichProtector := sandwichProtector s;
     auditLogger := auditLogger s; isRunning := isRunning s;
     alertHandlers := alertHandlers s |}.

Definition with_positions (p : Risk.PortfolioState)
  (ps : list Risk.PortfolioPosition) : Risk.PortfolioState :=
  {| Risk.totalValue := Risk.totalValue p; Risk.positions := ps;
     Risk.cash := Risk.cash p; Risk.lastRebalance := Risk.lastRebalance p |}.

Definition with_cash (p : Risk.PortfolioState) (c : Z) : Risk.PortfolioState :=
  {| Risk.totalValue := Risk.totalValue p; Risk.positions := Risk.positions p;
     Risk.cash := c; Risk.lastRebalance := Risk.lastRebalance p |}.

Definition with_totalValue (p : Risk.PortfolioState) (v : Z)
  : Risk.PortfolioState :=
  {| Risk.totalValue := v; Risk.positions := Risk.positions p;
     Risk.cash := Risk.cash p; Risk.lastRebalance := Risk.lastRebalance p |}.

Definition optionalNumber (o : option Q) : JSValue :=
  match o with
  | Some q => JNumber q
  | None => JUndefined
  end.

(** The configuration as [JSON.stringify] sees it, with the properties
    in the order of the object literals of the bots. *)
Definition configToJS (c : AgentConfig) : JSValue :=
  JObject [("name", JString (name c));
           ("maxPositionPercent", JNumber (maxPositionPercent c));
           ("minConfidenceThreshold", JNumber (minConfidenceThreshold c));
           ("kellyFraction", JNumber (kellyFraction c));
           ("stopLossPercent", JNumber (stopLossPercent c));
           ("takeProfitPercent", optionalNumber (takeProfitPercent c));
           ("maxDailyDrawdownPercent", JNumber (maxDailyDrawdownPercent c));
           ("maxTotalDrawdownPercent", JNumber (maxTotalDrawdownPercent c));
           ("rebalanceThreshold", JNumber (rebalanceThreshold c));
           ("whaleThreshold", JBigInt (whaleThreshold c));
           ("tradingEnabled", JBool (tradingEnabled c))].

Definition positionToJS (p : Risk.PortfolioPosition) : JSValue :=
  JObject [("marketId", JString (Risk.pos_marketId p));
           ("position", JBigInt (Risk.position p));
           ("entryPrice", JBigInt (Risk.pos_entryPrice p));
           ("currentPrice", JBigInt (Risk.pos_currentPrice p));
           ("timestamp", JNumber (Number (Risk.pos_timestamp p)))].

Definition portfolioToJS (p : Risk.PortfolioState) : JSValue :=
  JObject [("totalValue", JBigInt (Risk.totalValue p));
           ("positions", JArray (map positionToJS (Risk.positions p)));
           ("cash", JBigInt (Risk.cash p));
           ("lastRebalance", JNumber (Number (Risk.lastRebalance p)))].

(** The RangeError of a bigint division by [0n].  The handlers of this
    code base read only the message of an error. *)
Definition divisionByZero : JSError := Error "Division by zero".

(** [p.marketId === marketId] *)
Definition isMarket (market : string) (p : Risk.PortfolioPosition) : bool :=
  String.eqb (Risk.pos_marketId p) market.

(** Assignment to the fields of the object returned by [positions.find]:
    the first position of the market is replaced in place. *)
Fixpoint replaceFirst (market : string) (q : Risk.PortfolioPosition)
  (ps : list Risk.PortfolioPosition) : list Risk.PortfolioPosition :=
  match ps with
  | [] => []
  | p :: rest =>
      if isMarket market p then q :: rest
      else p :: replaceFirst market q rest
  end.

Definition positionsValue (ps : list Risk.PortfolioPosition) : Z :=
  fold_left (fun acc pos => acc + Risk.position pos * Risk.pos_currentPrice pos)
            ps 0.

Definition updateTotalValue : Method unit :=
  modify (fun s =>
            with_portfolio s
              (with_totalValue (portfolio s)
                 (Risk.cash (portfolio s)
                  + positionsValue (Risk.positions (portfolio s))))).

Definition setPositions (ps : list Risk.PortfolioPosition) : Method unit :=
  modify (fun s => with_portfolio s (with_positions (portfolio s) ps)).

Definition addCash (delta : Z) : Method unit :=
  modify (fun s =>
            with_portfolio s
              (with_cash (portfolio s) (Risk.cash (portfolio s) + delta))).

Section Lifecycle.
Local Open Scope method_scope.

Variable numberToString : Q -> string.
Variable keccak256 : string -> string.
Variable signMessage : string -> string -> string.
Variable chainLogEntry : string -> option string -> Z -> string -> bool.

Local Abbreviation logEvent :=
  (logEvent numberToString keccak256 signMessage chainLogEntry).

(** [start] and [stop] pass to [auditLogger.log] the request that
    [logEvent] builds. *)
Definition start (now : Z) : Method unit :=
  modify (fun s => with_isRunning s true) ;;;
  let* s := this in
  logEvent "AGENT_START" (JObject [("config", configToJS (config s))]) now.

Definition stop (now : Z) : Method unit :=
  modify (fun s => with_isRunning s false) ;;;
  let* s := this in
  logEvent "AGENT_STOP"
    (JObject [("finalPortfolio", portfolioToJS (portfolio s))]) now.

Definition updatePosition (market : string) (amount price : Z) (isBuy : bool)
  (now : Z) : Method unit :=
  let* s := this in
  let existingPosition :=
    List.find (isMarket market) (Risk.positions (portfolio s)) in
  (if isBuy then
     match existingPosition with
     | Some existing =>
         let totalValue :=
           Risk.position existing * Risk.pos_entryPrice existing
           + amount * price in
         let totalPosition := Risk.position existing + amount in
         if totalPosition =? 0 then throw divisionByZero
         else
           setPositions
             (replaceFirst market
                {| Risk.pos_marketId := Risk.pos_marketId existing;
                   Risk.position := totalPosition;
                   Risk.pos_entryPrice := Z.quot totalValue totalPosition;
                   Risk.pos_currentPrice := Risk.pos_currentPrice existing;
                   Risk.pos_timestamp := Risk.pos_timestamp existing |}
                (Risk.positions (portfolio s)))
     | None =>
         setPositions
           (Risk.positions (portfolio s)
            ++ [{| Risk.pos_marketId := market;
                   Risk.position := amount;
                   Risk.pos_entryPrice := price;
                   Risk.pos_currentPrice := price;
                   Risk.pos_timestamp := now |}])%list
     end ;;;
     let slParams :=
       {| Risk.entryPrice := price;
          Risk.stopLossPercent := stopLossPercent (config s);
          Risk.takeProfitPercent := takeProfitPercent (config s);
          Risk.trailingStopPercent := None |} in
     modify (fun s =>
               with_stopLossManagers s
                 (<[market := Risk.new_StopLossManager slParams]>
                    (stopLossManagers s))) ;;;
     addCash (- (amount * price))
   else
     match existingPosition with
     | Some existing =>
         let remaining := Risk.position existing - amount in
         setPositions
           (replaceFirst market
              {| Risk.pos_marketId := Risk.pos_marketId existing;
                 Risk.position := remaining;
                 Risk.pos_entryPrice := Risk.pos_entryPrice existing;
                 Risk.pos_currentPrice := Risk.pos_currentPrice existing;
                 Risk.pos_timestamp := Risk.pos_timestamp existing |}
              (Risk.positions (portfolio s))) ;;;
         if remaining <=? 0 then
           modify (fun s =>
                     with_portfolio s
                       (with_positions (portfolio s)
                          (List.filter (fun p => negb (isMarket market p))
                                       (Risk.positions (portfolio s))))) ;;;
           modify (fun s =>
                     with_stopLossManagers s
                       (delete market (stopLossManagers s)))
         else ret tt
     | None => ret tt
     end ;;;
     addCash (amount * price)) ;;;
  updateTotalValue ;;;
  let* s := this in
  logEvent "POSITION_UPDATE"
    (JObject [("marketId", JString market);
              ("amount", JBigInt amount);
              ("price", JBigInt price);
              ("isBuy", JBool isBuy);
              ("portfolio", portfolioToJS (portfolio s))])
    now.

(** *** The conservative strategy: [src/agents/conservative-bot.ts] *)

(** The quotient of two numbers converted from bigints, when it is not
    a finite number. *)
Inductive Quotient : Type :=
| Finite (q : Q)
| PlusInfinity
| MinusInfinity
| NotANumber.

Definition numberQuotient (a b : Z) : Quotient :=
  if b =? 0 then
    if a =? 0 then NotANumber
    else if 0 <? a then PlusInfinity else MinusInfinity
  else Finite (Number a / Number b).

Definition noPrediction (marketData : MarketData) (now : Z) : Prediction :=
  {| p_marketId := marketId marketData; outcome := false;
     p_confidence := 0; expectedValue := 0; p_timestamp := now |}.

(** [generatePrediction]; [None] stands for the prediction whose
    confidence is NaN (price and liquidity both [0n]). *)
Definition generatePrediction (maxVolatility : Q) (marketData : MarketData)
  (now : Z) (s : BaseAgent) : option Prediction :=
  if num_gt (volatility marketData) maxVolatility then
    Some (noPrediction marketData now)
  else
    let priceChange :=
      numberQuotient (currentPrice marketData) (liquidity marketData) in
    let predict (confidence : Q) (negative : bool) : Prediction :=
      if num_lt confidence (minConfidenceThreshold (config s)) then
        noPrediction marketData now
      else
        {| p_marketId := marketId marketData;
           outcome := negative;
           p_confidence := confidence;
           expectedValue := confidence * (5 # 10);
           p_timestamp := now |} in
    match priceChange with
    | Finite q =>
        Some (predict (Math_min (Math_abs q * 10) (95 # 100)) (num_lt q 0))
    | PlusInfinity => Some (predict (95 # 100) false)
    | MinusInfinity => Some (predict (95 # 100) true)
    | NotANumber => None
    end.

Definition makeTradingDecision (maxVolatility : Q) (marketData : MarketData)
  (prediction : Prediction) (now : Z) : Method (option TradeDecision) :=
  let* s := this in
  if num_lt (p_confidence prediction) (minConfidenceThreshold (config s)) then
    ret None
  else if liquidity marketData <? 500000000000000000 then
    logEvent "LOW_LIQUIDITY"
      (JObject [("marketId", JString (marketId marketData))]) now ;;;
    ret None
  else if num_gt (volatility marketData) maxVolatility then
    logEvent "HIGH_VOLATILITY_SKIP"
      (JObject [("volatility", JNumber (volatility marketData));
                ("max", JNumber maxVolatility)]) now ;;;
    ret None
  else
    let* s := this in
    let existingPosition := getPositionSize s (marketId marketData) in
    if outcome prediction then
      if 0 <? existingPosition then ret None
      else
        ret (Some {| action := BUY;
                     amount := 0;
                     d_marketId := marketId marketData;
                     reason := "High confidence buy signal: "
                               ++ Format.toFixed (p_confidence prediction * 100) 1
                               ++ "%";
                     confidence := p_confidence prediction |})
    else
      if existingPosition <=? 0 then ret None
      else
        ret (Some {| action := SELL;
                     amount := existingPosition;
                     d_marketId := marketId marketData;
                     reason := "Exit signal: confidence dropped to "
                               ++ Format.toFixed (p_confidence prediction * 100) 1
                               ++ "%";
                     confidence := p_confidence prediction |}).

Definition isBuyAction (a : Action) : bool :=
  match a with
  | BUY => true
  | _ => false
  end.

Definition executeTrade (decision : TradeDecision) (now : Z) : Method bool :=
  tryCatch
    (logEvent "EXECUTING_TRADE"
       (JObject [("decision", decisionToJS decision)]) now ;;;
     let price := 1000 in
     updatePosition (d_marketId decision) (amount decision) price
                    (isBuyAction (action decision)) now ;;;
     let* s := this in
     logEvent "TRADE_EXECUTED"
       (JObject [("decision", decisionToJS decision);
                 ("price", JBigInt price);
                 ("newBalance", JBigInt (Risk.cash (portfolio s)))]) now ;;;
     ret true)
    (fun error =>
       logEvent "TRADE_FAILED"
         (JObject [("decision", decisionToJS decision);
                   ("error", JString (message error))]) now ;;;
       ret false).

(** The loop of [emergencyDeRisk] over the positions held when it
    starts. *)
Fixpoint sellAll (held : list Risk.PortfolioPosition) (now : Z)
  : Method unit :=
  match held with
  | [] => ret tt
  | position :: rest =>
      let decision :=
        {| action := SELL;
           amount := Risk.position position;
           d_marketId := Risk.pos_marketId position;
           reason := "Emergency de-risking due to market conditions";
           confidence := 1 |} in
      executeTrade decision now ;;;
      sellAll rest now
  end.

Definition emergencyDeRisk (now : Z) : Method unit :=
  logEvent "EMERGENCY_DERISK_START" (JObject []) now ;;;
  let* s := this in
  sellAll (Risk.positions (portfolio s)) now ;;;
  let* s := this in
  logEvent "EMERGENCY_DERISK_COMPLETE"
    (JObject [("finalCash", JBigInt (Risk.cash (portfolio s)))]) now.

End Lifecycle.

End Agent.

(** * Vocabulary of the properties and sample data *)

(** ** Sample inputs of the sizer *)

Module KellyDefs.
Import Risk.

Definition sampleParams : PositionSizingParams :=
  {| bankroll := 10000; winProbability := 6 # 10; winLossRatio := 15 # 10;
     kellyFraction := Some (25 # 100); maxPositionPercent := None |}.

Definition certainWin : PositionSizingParams :=
  {| bankroll := 10000; winProbability := 1; winLossRatio := 15 # 10;
     kellyFraction := None; maxPositionPercent := None |}.

End KellyDefs.

(** ** Sample trackers and the two steps of an update *)

Module StopLossDefs.
Import Risk.

(** The tracker of the test suite: entry 1000, stop 5%, take 15%. *)
Definition plainParams : StopLossParams :=
  {| entryPrice := 1000; stopLossPercent := 5 # 100;
     takeProfitPercent := Some (15 # 100); trailingStopPercent := None |}.

(** The same with a trailing stop of 10%. *)
Definition trailingParams : StopLossParams :=
  {| entryPrice := 1000; stopLossPercent := 5 # 100;
     takeProfitPercent := Some (15 # 100);
     trailingStopPercent := Some (10 # 100) |}.

(** [updatePrice] on an active tracker, in two steps: the running high
    and low are refreshed, then the three levels are tested in order. *)
Definition track (m : StopLossManager) (p : Z) : StopLossManager :=
  {| params := params m;
     highestPrice := Z.max (highestPrice m) p;
     lowestPrice := Z.min (lowestPrice m) p;
     isActive := isActive m |}.

Definition signalAt (m : StopLossManager) (p : Z) : ExitSignal :=
  if p <=? calculateStopLossPrice m then exitWith "STOP_LOSS"
  else if truthy (takeProfitPercent (params m))
          && (calculateTakeProfitPrice m <=? p) then exitWith "TAKE_PROFIT"
  else if truthy (trailingStopPercent (params m))
          && (p <=? calculateTrailingStopPrice m) then exitWith "TRAILING_STOP"
  else noExit.

End StopLossDefs.

(** ** Sequences of operations on a protector *)

Module DrawdownDefs.
Import Risk.

Definition sampleConfig : DrawdownConfig :=
  {| maxDailyDrawdownPercent := 3 # 100;
     maxTotalDrawdownPercent := 10 # 100;
     cooldownPeriodMs := 3600000;
     pauseOnTrigger := true |}.

Definition isReset (op : DrawdownOp) : bool :=
  match op with
  | OpResetPeak => true
  | _ => false
  end.

Definition run (ops : list DrawdownOp) (d : DrawdownProtector)
  : DrawdownProtector := fold_left applyOp ops d.

End DrawdownDefs.

(** ** Sample orders *)

Module WhaleDefs.
Import Security.

Definition detector : WhaleDetector :=
  new_WhaleDetector 1000000000000000000 None None.

Definition orderOf (amt : Z) : Order :=
  {| id := "1"; marketId := "MARKET1"; trader := "0x123"; side := BUY;
     amount := amt; price := 1000; timestamp := 1700000000000;
     blockNumber := 1 |}.

Definition returned (d : WhaleDetector) (now : Z) (o : Order) (liq : Z)
  : option WhaleAlert := fst (analyzeOrder d now o liq).

End WhaleDefs.

(** ** The canonical text of an entry and a concrete runtime *)

Module LedgerDefs.
Import Json Audit.

(** The text [JSON.stringify] produces for the hashed fields, given the
    serialisation [t] of the payload ([None]: the payload is
    [undefined] and the property is left out): the part before the
    payload, the payload's member, the part after it. *)
Definition textBefore (ty ag : string) : string :=
  "{" ++ (quote "type" ++ ":" ++ quote ty) ++ ","
      ++ (quote "agent" ++ ":" ++ quote ag) ++ ",".

Definition dataMember (t : option string) : string :=
  match t with
  | Some text => (quote "data" ++ ":" ++ text) ++ ","
  | None => EmptyString
  end.

Definition textAfter (numberToString : Q -> string) (ts : Z) : string :=
  (quote "timestamp" ++ ":" ++ numberToString (Number ts)) ++ "}".

Definition entryText (numberToString : Q -> string)
  (ty ag : string) (t : option string) (ts : Z) : string :=
  textBefore ty ag ++ dataMember t ++ textAfter numberToString ts.

(** A concrete runtime for the examples: integers are printed in
    decimal, the hash is the identity (injective), signing concatenates
    key and message, the chain accepts every entry. *)
Definition printNumber (q : Q) : string := pretty (Qfloor q).

Definition identityHash (s : string) : string := s.

Definition concatSign (key msg : string) : string := key ++ msg.

Definition chainAccepts (c : string) (h : option string) (ts : Z)
  (ty : string) : bool := true.

(** The request of the test suite: [{ test: true }] logged by
    [test-agent]. *)
Definition testRequest : LogRequest :=
  {| rq_type := "TEST"; rq_agent := "test-agent";
     rq_data := JObject [("test", JBool true)];
     rq_timestamp := 1700000000000 |}.

Definition testEntry : AuditEntry :=
  match log printNumber identityHash concatSign chainAccepts
            (new_localLogger 1700000000000) 1700000000000 testRequest with
  | Return (e, _) => e
  | Throw _ =>
      {| type := EmptyString; agent := EmptyString; data := JUndefined;
         timestamp := 0; hash := None; signature := None |}
  end.

Definition testLogger : AuditLogger :=
  match log printNumber identityHash concatSign chainAccepts
            (new_localLogger 1700000000000) 1700000000000 testRequest with
  | Return (_, l) => l
  | Throw _ => new_localLogger 1700000000000
  end.

End LedgerDefs.

(** ** Vocabulary for the ledger of an agent *)

Module PipelineDefs.
Import Json Agent.

(** The audit entry type written next to each return statement, for the
    return statements that write one. *)
Definition siteTag (site : ReturnSite) : option string :=
  match site with
  | DrawdownHalt => Some "DRAWDOWN_HALT"
  | OracleUnhealthy => Some "ORACLE_UNHEALTHY"
  | ManipulationBlock => Some "SECURITY_ALERT"
  | Rejected LowConfidence => Some "LOW_CONFIDENCE"
  | Approved _ => Some "TRADE_DECISION"
  | Caught _ => Some "ERROR"
  | NotRunning | NoDecision | Rejected _ => None
  end.

(** [s'] is [s] with one more ledger entry, of type [ty]. *)
Definition appended (s s' : BaseAgent) (ty : string) (d : JSValue) : Prop :=
  exists e, ledger s' = (ledger s ++ [e])%list
            /\ Audit.type e = ty /\ Audit.data e = d.

Definition errorPayload (err : JSError) : JSValue :=
  JObject [("error", JString (message err))].

(** What the call has written: the ledger has grown by [added]; a return
    statement with a tag has written an entry of that type last; a
    decision is returned by the approval statement only. *)
Definition audited (s s' : BaseAgent) (site : ReturnSite)
  (r : option TradeDecision) : Prop :=
  exists added,
    ledger s' = (ledger s ++ added)%list
    /\ (forall ty, siteTag site = Some ty ->
         exists rest e, added = (rest ++ [e])%list /\ Audit.type e = ty)
    /\ (is_Some r -> exists v, site = Approved v).

Definition holdOrNone (od : option TradeDecision) : Prop :=
  match od with
  | None => True
  | Some d => isHold (action d) = true
  end.

(** Every return statement other than the two silent ones carries a tag. *)
Definition tagged (site : ReturnSite) : Prop :=
  site = NoDecision \/ site = Rejected NonPositiveSize
  \/ exists ty, siteTag site = Some ty.

End PipelineDefs.

(** ** A concrete agent *)

Module SampleDefs.
Import Json Agent.

Definition t0 : Z := 1700000000000.

Definition sampleConfig : AgentConfig :=
  {| name := "ConservativeBot";
     maxPositionPercent := 1 # 100;
     minConfidenceThreshold := 70 # 100;
     kellyFraction := 1 # 10;
     stopLossPercent := 2 # 100;
     takeProfitPercent := Some (5 # 100);
     maxDailyDrawdownPercent := 3 # 100;
     maxTotalDrawdownPercent := 10 # 100;
     rebalanceThreshold := 2 # 100;
     whaleThreshold := 1000000000000000000;
     tradingEnabled := true |}.

Definition sampleWallet : Wallet :=
  {| address := "0x1111"; balance := 10000000000000000000 |}.

Definition reading (src : string) : Security.OracleStatus :=
  {| Security.source := src; Security.os_isActive := true;
     Security.lastUpdate := t0; Security.os_price := 1000;
     Security.deviation := 0; Security.stalenessMs := 0;
     Security.confidence := 1 |}.

Definition sampleOracle : Security.OracleMonitor :=
  {| Security.sources := ["chainlink"; "uniswap"; "binance"];
     Security.maxStalenessMs := 300000;
     Security.maxDeviationPercent := 2 # 100;
     Security.sourceStates :=
       <["chainlink" := reading "chainlink"]>
         (<["uniswap" := reading "uniswap"]>
            (<["binance" := reading "binance"]> ∅)) |}.

(** The state the constructor of [ConservativeBot] is written to build
    for a wallet (with the allocations of the subclass), started, with
    three fresh oracle readings. *)
Definition agentOf (w : Wallet) : BaseAgent :=
  {| config := sampleConfig;
     wallet := w;
     portfolio := {| Risk.totalValue := balance w;
                     Risk.positions := [];
                     Risk.cash := balance w;
                     Risk.lastRebalance := t0 |};
     drawdownProtector :=
       Risk.new_DrawdownProtector
         {| Risk.maxDailyDrawdownPercent := 3 # 100;
            Risk.maxTotalDrawdownPercent := 10 # 100;
            Risk.cooldownPeriodMs := 3600000;
            Risk.pauseOnTrigger := true |}
         (balance w) t0;
     stopLossManagers := ∅;
     portfolioBalancer :=
       {| Risk.targetAllocations :=
            [("stable", 5 # 10); ("moderate", 3 # 10); ("speculative", 2 # 10)];
          Risk.rebalanceThreshold := 2 # 100;
          Risk.maxSlippagePercent := 1 |};
     whaleDetector :=
       Security.new_WhaleDetector (whaleThreshold sampleConfig) None None;
     washTradingDetector := Security.new_WashTradingDetector None None;
     oracleMonitor := sampleOracle;
     sandwichProtector := Security.new_SandwichProtector None None;
     auditLogger := Audit.new_localLogger t0;
     isRunning := true;
     alertHandlers := [] |}.

Definition sampleAgent : BaseAgent := agentOf sampleWallet.

(** An agent whose whole equity is 50 units: one percent of it rounds
    to a position of zero. *)
Definition smallAgent : BaseAgent :=
  agentOf {| address := "0x2222"; balance := 50 |}.

Definition sampleMarket : MarketData :=
  {| marketId := "MARKET1"; currentPrice := 1000;
     liquidity := 10000000000000000000; volume24h := 0;
     volatility := 1 # 10; timestamp := t0 |}.

Definition samplePrediction : Prediction :=
  {| p_marketId := "MARKET1"; outcome := true; p_confidence := 8 # 10;
     expectedValue := 4 # 10; p_timestamp := t0 |}.

Definition proposal (a : Action) (c : Q) : TradeDecision :=
  {| action := a; amount := 0; d_marketId := "MARKET1";
     reason := "signal"; confidence := c |}.

(** Strategies that look at nothing and always propose the same. *)
Definition always (od : option TradeDecision)
  : MarketData -> Prediction -> Z -> Method (option TradeDecision) :=
  fun _ _ _ => ret od.

Definition run (od : option TradeDecision) (s : BaseAgent)
  : Outcome (option TradeDecision) :=
  processMarketData LedgerDefs.printNumber LedgerDefs.identityHash
    LedgerDefs.concatSign LedgerDefs.chainAccepts (always od)
    sampleMarket samplePrediction t0 s.

Definition run_at (od : option TradeDecision) (s : BaseAgent)
  : Outcome (ReturnSite * option TradeDecision) :=
  processMarketData_at LedgerDefs.printNumber LedgerDefs.identityHash
    LedgerDefs.concatSign LedgerDefs.chainAccepts (always od)
    sampleMarket samplePrediction t0 s.

Definition gatesOf (s : BaseAgent) : Outcome (option ReturnSite) :=
  runGates LedgerDefs.printNumber LedgerDefs.identityHash
    LedgerDefs.concatSign LedgerDefs.chainAccepts sampleMarket t0 s.

Definition entryTypes {A} (o : Outcome A) : list string :=
  map Audit.type (ledger (outcomeState o)).

Definition afterGates : BaseAgent := outcomeState (gatesOf sampleAgent).

End SampleDefs.

(** ** Runs of equity updates *)

Module DrawdownRuns.
Import Risk.

(** Feeding a sequence of updates, each with the clock reading of its
    call; the statuses are returned in order. *)
Fixpoint updateValues (d : DrawdownProtector) (updates : list (Z * Z))
  : list DrawdownStatus * DrawdownProtector :=
  match updates with
  | [] => ([], d)
  | (now, value) :: rest =>
      let '(st, d1) := updateValue d now value in
      let '(sts, d2) := updateValues d1 rest in
      (st :: sts, d2)
  end.

Definition isCooldown (st : DrawdownStatus) : bool :=
  match status st with
  | COOLDOWN => true
  | _ => false
  end.

Definition criticalCount (sts : list DrawdownStatus) : Z :=
  Z.of_nat (length (List.filter (fun st => isCritical (status st)) sts)).

(** A protector that has just lost 5% of 10000 in one update. *)
Definition lossAtOnce : DrawdownProtector :=
  snd (updateValue (new_DrawdownProtector DrawdownDefs.sampleConfig 10000 0)
                   1000 9500).

End DrawdownRuns.

(** ** Runs of log calls *)

Module LedgerRuns.
Import Json Audit.

Section Runs.

Variable numberToString : Q -> string.
Variable keccak256 : string -> string.
Variable signMessage : string -> string -> string.
Variable chainLogEntry : string -> option string -> Z -> string -> bool.

(** A sequence of [log] calls, each with the clock reading of its call;
    a call that throws leaves the logger as it was and the next call
    goes on from there. *)
Fixpoint logAll (l : AuditLogger) (calls : list (Z * LogRequest))
  : AuditLogger :=
  match calls with
  | [] => l
  | (now, rq) :: rest =>
      match log numberToString keccak256 signMessage chainLogEntry l now rq with
      | Return (_, l1) => logAll l1 rest
      | Throw _ => logAll l rest
      end
  end.

End Runs.

End LedgerRuns.

(** ** More sample agents and calls *)

Module GateSamples.
Import Json Agent SampleDefs.

(** The sample agent with the oracle monitor as the constructor leaves
    it: three sources configured, nothing received. *)
Definition unfedAgent : BaseAgent :=
  {| config := config sampleAgent;
     wallet := wallet sampleAgent;
     portfolio := portfolio sampleAgent;
     drawdownProtector := drawdownProtector sampleAgent;
     stopLossManagers := stopLossManagers sampleAgent;
     portfolioBalancer := portfolioBalancer sampleAgent;
     whaleDetector := whaleDetector sampleAgent;
     washTradingDetector := washTradingDetector sampleAgent;
     oracleMonitor :=
       Security.new_OracleMonitor ["chainlink"; "uniswap"; "binance"] None None;
     sandwichProtector := sandwichProtector sampleAgent;
     auditLogger := auditLogger sampleAgent;
     isRunning := isRunning sampleAgent;
     alertHandlers := alertHandlers sampleAgent |}.

(** Risk validation of a proposal on an agent, with the sample runtime. *)
Definition validated (d : TradeDecision) (s : BaseAgent)
  : Outcome (ValidationSite * option TradeDecision) :=
  validateWithRiskManagement LedgerDefs.printNumber LedgerDefs.identityHash
    LedgerDefs.concatSign LedgerDefs.chainAccepts d sampleMarket t0 s.

Definition sizedBuy : TradeDecision :=
  match validated (proposal BUY (8 # 10)) sampleAgent with
  | Ok (_, Some vd) _ => vd
  | _ => proposal HOLD 0
  end.

(** Two log calls: the request of the test suite, then a payload that
    cannot be serialised. *)
Definition sampleCalls : list (Z * Audit.LogRequest) :=
  [(1700000000000, LedgerDefs.testRequest);
   (1700000000001,
    {| Audit.rq_type := "TRADE_DECISION"; Audit.rq_agent := "bot";
       Audit.rq_data := JObject [("amount", JBigInt 5)];
       Audit.rq_timestamp := 1700000000001 |})].

End GateSamples.

(** ** A sample portfolio *)

Module BalancerSamples.
Import Risk.

(** The balancer and the portfolio of the test suite: targets of one
    half each for A and B, 70 units of A and 30 of B at price 100. *)
Definition evenBalancer : PortfolioBalancer :=
  {| targetAllocations := [("A", 1 # 2); ("B", 1 # 2)];
     rebalanceThreshold := 5 # 100;
     maxSlippagePercent := 1 |}.

Definition holding (market : string) (units price : Z) : PortfolioPosition :=
  {| pos_marketId := market; position := units; pos_entryPrice := price;
     pos_currentPrice := price; pos_timestamp := 1700000000000 |}.

Definition tiltedPortfolio : PortfolioState :=
  {| totalValue := 10000;
     positions := [holding "A" 70 100; holding "B" 30 100];
     cash := 0;
     lastRebalance := 1700000000000 |}.

End BalancerSamples.

(** ** The books of an agent *)

Module BookDefs.
Import Agent.

Definition markets (s : BaseAgent) : list string :=
  map Risk.pos_marketId (Risk.positions (portfolio s)).

(** The books are in order: one position per market, each of positive
    size, and a stop-loss manager for exactly the markets held. *)
Definition inOrder (s : BaseAgent) : Prop :=
  NoDup (markets s)
  /\ Forall (fun p => 0 < Risk.position p) (Risk.positions (portfolio s))
  /\ forall market,
       is_Some (stopLossManagers s !! market) <-> In market (markets s).

(** Total value is cash plus the value of the positions. *)
Definition balanced (s : BaseAgent) : Prop :=
  Risk.totalValue (portfolio s)
  = Risk.cash (portfolio s) + positionsValue (Risk.positions (portfolio s)).

(** An agent that holds 5 units of market A, bought at 100. *)
Definition holdingAgent : BaseAgent :=
  let s := SampleDefs.sampleAgent in
  with_stopLossManagers
    (with_portfolio s
       {| Risk.totalValue := Risk.totalValue (portfolio s);
          Risk.positions := [BalancerSamples.holding "A" 5 100];
          Risk.cash := Risk.totalValue (portfolio s) - 500;
          Risk.lastRebalance := Risk.lastRebalance (portfolio s) |})
    (<["A" := Risk.new_StopLossManager
                {| Risk.entryPrice := 100;
                   Risk.stopLossPercent := stopLossPercent (config s);
                   Risk.takeProfitPercent := takeProfitPercent (config s);
                   Risk.trailingStopPercent := None |}]> ∅).

(** A market whose price equals its liquidity: the conservative bot is
    as confident as it gets. *)
Definition deepMarket : MarketData :=
  {| marketId := "A"; currentPrice := 1000000000000000000;
     liquidity := 1000000000000000000; volume24h := 0;
     volatility := 1 # 10; timestamp := SampleDefs.t0 |}.

End BookDefs.

(** ** Vocabulary for Merkle roots and trails *)

Module TrailDefs.
Import Json Audit.

(** A pair hash without collisions, for sample runs: the characters of
    the first hash are marked, so that the end of it can be told. *)
Fixpoint pairText (a b : string) : string :=
  match a with
  | EmptyString => String "0" b
  | String c a' => String "1" (String c (pairText a' b))
  end.

Definition nonEmpty (h : string) : Prop := h <> EmptyString.




(** Time stamps in the order of the trail never go back. *)
Definition timeSorted (stamps : list Z) : Prop :=
  forall i a b,
    nth_error stamps i = Some a -> nth_error stamps (S i) = Some b -> a <= b.

Section Entries.

Variable numberToString : Q -> string.
Variable keccak256 : string -> string.
Variable verifyMessage : string -> string -> bool.

(** The stored hash is the hash of the entry. *)
Definition intact (e : AuditEntry) : Prop :=
  exists h,
    generateHash numberToString keccak256 (type e) (agent e) (data e)
                 (timestamp e) = Return h
    /\ hash e = Some h.

(** A signature, when there is one, is well formed. *)
Definition wellSigned (e : AuditEntry) : Prop :=
  match signature e, hash e with
  | Some sig, Some h => sig = EmptyString \/ verifyMessage h sig = true
  | _, _ => True
  end.

(** The objects the references of a trail stand for. *)
Variable heap : Ref -> AuditEntry.

(** The entry is not older than the one before its first occurrence in
    the trail. *)
Definition orderedAt (trail : list Ref) (r : Ref) : Prop :=
  forall before prev,
    indexOf trail r = Some (S before) ->
    nth_error trail before = Some prev ->
    timestamp (heap prev) <= timestamp (heap r).

(** No check of [verifyTrail] finds fault with the entry. *)
Definition clean (trail : list Ref) (r : Ref) : Prop :=
  intact (heap r) /\ wellSigned (heap r) /\ orderedAt trail r.

End Entries.

(** A trail of two entry objects with the content of the test entry, and
    one in which the first object occurs again after a later entry. *)
Definition laterEntry : AuditEntry :=
  match log LedgerDefs.printNumber LedgerDefs.identityHash
            LedgerDefs.concatSign LedgerDefs.chainAccepts
            (new_localLogger 1700000000000) 1700000000500
            {| rq_type := "TEST"; rq_agent := "test-agent";
               rq_data := JNull; rq_timestamp := 1700000000500 |} with
  | Return (e, _) => e
  | Throw _ => LedgerDefs.testEntry
  end.

Definition sampleHeap (r : Ref) : AuditEntry :=
  match r with
  | 1%nat => laterEntry
  | _ => LedgerDefs.testEntry
  end.

Definition anySignature (h sig : string) : bool := true.

End TrailDefs.

(** ** Runs of price updates *)

Module OracleRuns.
Import Security.

(** One call of [updatePrice], with the clock reading of the call. *)
Record PriceUpdate : Type := {
  u_now : Z;
  u_source : string;
  u_price : Z;
  u_timestamp : Z
}.

Fixpoint feed (m : OracleMonitor) (updates : list PriceUpdate)
  : option OracleMonitor :=
  match updates with
  | [] => Some m
  | u :: rest =>
      match updatePrice m (u_now u) (u_source u) (u_price u) (u_timestamp u) with
      | Some (_, m') => feed m' rest
      | None => None
      end
  end.

(** Every recorded price is [p]. *)
Definition allQuote (m : OracleMonitor) (p : Z) : Prop :=
  forall src st, sourceStates m !! src = Some st -> os_price st = p.

Definition quote (now : Z) (src : string) (p : Z) : PriceUpdate :=
  {| u_now := now; u_source := src; u_price := p; u_timestamp := now - 1000 |}.

(** The first report to a monitor of two sources. *)
Definition firstReport : OracleStatus * OracleMonitor :=
  let m := new_OracleMonitor ["chainlink"; "uniswap"] None None in
  match updatePrice m 1700000000000 "chainlink" 2500 1699999999000 with
  | Some report => report
  | None =>
      ({| source := EmptyString; os_isActive := false; lastUpdate := 0;
          os_price := 0; deviation := 0; stalenessMs := 0; confidence := 0 |},
       m)
  end.

End OracleRuns.

(** ** Binary64 rounding on scaled integers *)

Module RoundingDefs.

(** Exponents are counted from [-bias]: the number [m * 2^e] is held as
    the integer [m * 2^(e + bias)]. *)
Definition bias : Z := 2200.

Definition scaled (m e : Z) : Z := m * 2 ^ (e + bias).

(** The quotient of [n] by [2^s], rounded to the nearest integer, the
    even one on a tie. *)
Definition roundUnits (n s : Z) : Z :=
  let q := n / 2 ^ s in
  match 2 * (n mod 2 ^ s) ?= 2 ^ s with
  | Lt => q
  | Eq => if Z.even q then q else q + 1
  | Gt => q + 1
  end.

(** The exponent of the last place of a binary64 number of the size of
    [n], on the scale of [scaled]. *)
Definition lastPlace (n : Z) : Z :=
  Z.max (Zdigits2 n - 53) (bias - 1074).

(** The binary64 number nearest to [n], ties to even, on the scale of
    [scaled] and without a bound on the exponent. *)
Definition nearest (n : Z) : Z :=
  roundUnits n (lastPlace n) * 2 ^ lastPlace n.

(** The position of a remainder [rem] below [full]. *)
Definition locOf (rem full : Z) : location :=
  if rem =? 0 then loc_Exact else loc_Inexact (2 * rem ?= full).

End RoundingDefs.

Module QuotientDefs.

(** The quotient of [n] by [p], rounded to the nearest integer, the even
    one on a tie. *)
Definition roundDiv (n p : Z) : Z :=
  let q := n / p in
  match 2 * (n mod p) ?= p with
  | Lt => q
  | Eq => if Z.even q then q else q + 1
  | Gt => q + 1
  end.

End QuotientDefs.

(** ** Order and shape of binary64 numbers *)

Module OrderDefs.
Import RoundingDefs.

(** The magnitude of a number in units of [2^-k]; the infinities sit at
    [2^1024], above every finite number. *)
Definition mag (k : Z) (x : spec_float) : Z :=
  match x with
  | S754_zero _ | S754_nan => 0
  | S754_finite _ m e => Z.pos m * 2 ^ (e + k)
  | S754_infinity _ => 2 ^ (1024 + k)
  end.

(** Zero of either sign, or a positive number or infinity. *)
Definition nonneg (x : spec_float) : Prop :=
  match x with
  | S754_zero _ => True
  | S754_finite s _ _ | S754_infinity s => s = false
  | S754_nan => False
  end.

(** Zero of either sign, or a negative number or infinity. *)
Definition nonpos (x : spec_float) : Prop :=
  match x with
  | S754_zero _ => True
  | S754_finite s _ _ | S754_infinity s => s = true
  | S754_nan => False
  end.

(** A positive number that is not an infinity. *)
Definition positiveNumber (x : spec_float) : Prop :=
  match x with S754_finite false _ _ => True | _ => False end.

(** The kinds of binary64 numbers. *)
Definition isNaN (x : spec_float) : bool :=
  match x with S754_nan => true | _ => false end.

Definition isZero (x : spec_float) : bool :=
  match x with S754_zero _ => true | _ => false end.


End OrderDefs.

Module ShapeDefs.
Import RoundingDefs.

(** The operands of a product are held in units of [2^-half], so that
    the product of two magnitudes is on the scale of [scaled]. *)
Definition half : Z := 1100.

(** [x] is the binary64 number nearest to [n / 2^bias], or an infinity
    when that is out of range. *)
Definition rounded (n : Z) (x : spec_float) : Prop :=
  match x with
  | S754_zero _ => nearest n = 0
  | S754_finite _ m e =>
      scaled (Z.pos m) e = nearest n /\ -1074 <= e <= 971
  | S754_infinity _ => scaled 1 972 <= nearest n
  | S754_nan => False
  end.

(** [x] is a number or infinity of sign [sx]. *)
Definition signed (sx : bool) (x : spec_float) : Prop :=
  match x with
  | S754_zero s | S754_finite s _ _ | S754_infinity s => s = sx
  | S754_nan => False
  end.

End ShapeDefs.

Module DoubleDefs.
Import RoundingDefs OrderDefs ShapeDefs.

(** Zeros and finite numbers; finite numbers other than the zeros. *)
Definition isFinite (x : spec_float) : bool :=
  match x with S754_zero _ | S754_finite _ _ _ => true | _ => false end.



End DoubleDefs.

(** ** Sizing samples on doubles *)

Module SizingSamples.
Import Double.
#[local] Set Warnings "-inexact-float".

(** An even-money bet won six times out of ten, with the default
    fractions. *)
Definition favourable : PositionSizingParams :=
  {| bankroll := 10000; winProbability := 0.6; winLossRatio := 1;
     kellyFraction := None; maxPositionPercent := None |}.



End SizingSamples.

(** * Properties *)

(** ** Comparisons of numbers *)

Module JSFacts.

Lemma num_le_iff a b : num_le a b = true <-> (a <= b)%Q.
Proof. unfold num_le. apply Qle_bool_iff. Qed.

Lemma num_lt_iff a b : num_lt a b = true <-> (a < b)%Q.
Proof.
  unfold num_lt. rewrite negb_true_iff.
  split; intros H.
  - apply Qnot_le_lt. intros Hle. apply Qle_bool_iff in Hle. congruence.
  - destruct (Qle_bool b a) eqn:E; [|reflexivity].
    apply Qle_bool_iff in E. exfalso. apply (Qlt_irrefl a).
    eapply Qlt_le_trans; eauto.
Qed.

Lemma num_lt_false_iff a b : num_lt a b = false <-> (b <= a)%Q.
Proof.
  unfold num_lt. rewrite negb_false_iff. apply Qle_bool_iff.
Qed.

Lemma num_le_false_iff a b : num_le a b = false <-> (b < a)%Q.
Proof.
  unfold num_le. split; intros H.
  - apply Qnot_le_lt. intros Hle. apply Qle_bool_iff in Hle. congruence.
  - destruct (Qle_bool a b) eqn:E; [|reflexivity].
    apply Qle_bool_iff in E. exfalso. apply (Qlt_irrefl b).
    eapply Qlt_le_trans; eauto.
Qed.

End JSFacts.
Import JSFacts.

(** ** Binary64 arithmetic *)

Module RoundingFacts.
Import RoundingDefs.

Lemma digits2_pos_size (p : positive) : digits2_pos p = Pos.size p.
Proof. induction p; simpl; congruence. Qed.

Lemma Zdigits2_log2 (n : Z) : 0 < n -> Zdigits2 n = Z.log2 n + 1.
Proof.
  destruct n as [|p|p]; try lia. intros _. simpl.
  rewrite digits2_pos_size. destruct p; simpl; lia.
Qed.

Lemma Zdigits2_bounds (n : Z) :
  0 < n -> 2 ^ (Zdigits2 n - 1) <= n < 2 ^ Zdigits2 n.
Proof.
  intros H. rewrite (Zdigits2_log2 n H).
  replace (Z.log2 n + 1 - 1) with (Z.log2 n) by lia.
  replace (Z.log2 n + 1) with (Z.succ (Z.log2 n)) by lia.
  apply Z.log2_spec. exact H.
Qed.

Lemma Zdigits2_nonneg (n : Z) : 0 <= Zdigits2 n.
Proof. destruct n; simpl; lia. Qed.

Lemma Zdigits2_pos (n : Z) : 0 < n -> 0 < Zdigits2 n.
Proof. destruct n; simpl; lia. Qed.

Lemma Zdigits2_mono (a b : Z) : 0 <= a <= b -> Zdigits2 a <= Zdigits2 b.
Proof.
  intros [Ha Hab]. destruct (Z.eq_dec a 0) as [->|Hne].
  - apply Zdigits2_nonneg.
  - rewrite !Zdigits2_log2 by lia.
    pose proof (Z.log2_le_mono a b Hab). lia.
Qed.

Lemma Zdigits2_mul_pow2 (m k : Z) :
  0 < m -> 0 <= k -> Zdigits2 (m * 2 ^ k) = Zdigits2 m + k.
Proof.
  intros Hm Hk. rewrite !Zdigits2_log2 by (try apply Z.mul_pos_pos; lia).
  rewrite Z.log2_mul_pow2 by lia. lia.
Qed.

Lemma Zdigits2_lt_pow2 (n d : Z) : 0 <= n < 2 ^ d -> 0 <= d -> Zdigits2 n <= d.
Proof.
  intros [H0 H] Hd. destruct (Z.eq_dec n 0) as [->|Hne]; [simpl; lia|].
  rewrite Zdigits2_log2 by lia.
  enough (Z.log2 n < d) by lia. apply Z.log2_lt_pow2; lia.
Qed.

Lemma Zdigits2_ge_pow2 (n d : Z) : 0 <= d -> 2 ^ d <= n -> d + 1 <= Zdigits2 n.
Proof.
  intros Hd H. assert (0 < n) by (pose proof (Z.pow_pos_nonneg 2 d); lia).
  rewrite Zdigits2_log2 by lia.
  enough (d <= Z.log2 n) by lia. apply Z.log2_le_pow2; lia.
Qed.

(** *** [roundUnits] *)

Lemma roundUnits_range (n s : Z) :
  0 <= s -> n / 2 ^ s <= roundUnits n s <= n / 2 ^ s + 1.
Proof.
  intros Hs. unfold roundUnits.
  destruct (2 * (n mod 2 ^ s) ?= 2 ^ s); [destruct (Z.even _)| |]; lia.
Qed.

Lemma roundUnits_exact (k s : Z) : 0 <= s -> roundUnits (k * 2 ^ s) s = k.
Proof.
  intros Hs. unfold roundUnits.
  assert (Hp : 0 < 2 ^ s) by (apply Z.pow_pos_nonneg; lia).
  rewrite Z.mod_mul by lia. rewrite Z.div_mul by lia.
  replace (2 * 0) with 0 by lia.
  destruct (Z.compare_spec 0 (2 ^ s)); [lia | reflexivity | lia].
Qed.

Lemma roundUnits_mono (a b s : Z) :
  0 <= s -> a <= b -> roundUnits a s <= roundUnits b s.
Proof.
  intros Hs Hab.
  assert (Hp : 0 < 2 ^ s) by (apply Z.pow_pos_nonneg; lia).
  pose proof (Z.div_le_mono a b (2 ^ s) Hp Hab) as Hq.
  destruct (Z.eq_dec (a / 2 ^ s) (b / 2 ^ s)) as [E|NE].
  - assert (Hr : a mod 2 ^ s <= b mod 2 ^ s).
    { pose proof (Z.div_mod a (2 ^ s)). pose proof (Z.div_mod b (2 ^ s)).
      rewrite E in *. nia. }
    unfold roundUnits. rewrite E.
    destruct (Z.compare_spec (2 * (a mod 2 ^ s)) (2 ^ s));
      destruct (Z.compare_spec (2 * (b mod 2 ^ s)) (2 ^ s));
      try destruct (Z.even (b / 2 ^ s)); lia.
  - pose proof (roundUnits_range a s Hs). pose proof (roundUnits_range b s Hs).
    lia.
Qed.

Lemma roundUnits_nonneg (n s : Z) : 0 <= s -> 0 <= n -> 0 <= roundUnits n s.
Proof.
  intros Hs Hn. pose proof (roundUnits_range n s Hs).
  assert (0 <= n / 2 ^ s) by (apply Z.div_pos; [lia | apply Z.pow_pos_nonneg; lia]).
  lia.
Qed.

(** *** [nearest] *)

Lemma lastPlace_nonneg (n : Z) : 0 <= lastPlace n.
Proof. unfold lastPlace, bias. lia. Qed.

Lemma lastPlace_mono (a b : Z) : 0 <= a <= b -> lastPlace a <= lastPlace b.
Proof.
  intros H. unfold lastPlace. pose proof (Zdigits2_mono a b H). lia.
Qed.


(** Rounding to nearest is monotone. *)
Lemma nearest_mono (a b : Z) : 0 <= a <= b -> nearest a <= nearest b.
Proof.
  intros [Ha Hab].
  pose proof (lastPlace_mono a b (conj Ha Hab)) as Hs.
  pose proof (lastPlace_nonneg a) as Hsa.
  unfold nearest.
  destruct (Z.eq_dec (lastPlace a) (lastPlace b)) as [E|NE].
  - rewrite E. apply Z.mul_le_mono_nonneg_r; [apply Z.pow_nonneg; lia|].
    apply roundUnits_mono; lia.
  - (* [a] and [b] lie in different binades: the power of two between
       them is a binary64 number at both scales. *)
    assert (Hlt : lastPlace a < lastPlace b) by lia.
    assert (Hb0 : 0 < b).
    { destruct (Z.eq_dec b 0) as [->|]; [|lia].
      assert (a = 0) by lia. subst a. lia. }
    assert (Hdb : lastPlace b = Zdigits2 b - 53).
    { unfold lastPlace in *. lia. }
    set (sa := lastPlace a) in *. set (sb := lastPlace b) in *.
    set (P := 2 ^ (sb + 52)).
    assert (HPb : P <= b).
    { unfold P. replace (sb + 52) with (Zdigits2 b - 1) by lia.
      apply Zdigits2_bounds. exact Hb0. }
    assert (HaP : a <= P).
    { destruct (Z.eq_dec a 0) as [->|Hane];
        [unfold P; apply Z.pow_nonneg; lia|].
      pose proof (Zdigits2_bounds a ltac:(lia)) as [_ Hau].
      assert (Zdigits2 a <= sb + 52).
      { unfold sa, lastPlace in Hlt. lia. }
      assert (2 ^ Zdigits2 a <= P).
      { unfold P. apply Z.pow_le_mono_r; lia. }
      lia. }
    assert (EPa : P = 2 ^ (sb + 52 - sa) * 2 ^ sa).
    { unfold P. rewrite <- Z.pow_add_r by lia. f_equal. lia. }
    assert (EPb : P = 2 ^ 52 * 2 ^ sb).
    { unfold P. rewrite <- Z.pow_add_r by lia. f_equal. lia. }
    assert (RPa : roundUnits P sa = 2 ^ (sb + 52 - sa))
      by (rewrite EPa; apply roundUnits_exact; lia).
    assert (RPb : roundUnits P sb = 2 ^ 52)
      by (rewrite EPb; apply roundUnits_exact; lia).
    apply Z.le_trans with P.
    + pose proof (roundUnits_mono a P sa Hsa HaP) as H1.
      rewrite RPa in H1.
      rewrite EPa. apply Z.mul_le_mono_nonneg_r; [apply Z.pow_nonneg; lia|].
      exact H1.
    + pose proof (roundUnits_mono P b sb ltac:(lia) HPb) as H1.
      rewrite RPb in H1.
      rewrite EPb. apply Z.mul_le_mono_nonneg_r; [apply Z.pow_nonneg; lia|].
      exact H1.
Qed.

End RoundingFacts.

(** ** The rounding of the binary64 operations *)

Module Binary64Facts.
Import RoundingDefs RoundingFacts.

Lemma fexp_eq (d : Z) : fexp prec emax d = Z.max (d - 53) (-1074).
Proof. reflexivity. Qed.

Lemma iter_pos_nat {A : Type} (f : A -> A) (p : positive) (x : A) :
  SpecFloat.iter_pos f p x = Nat.iter (Pos.to_nat p) f x.
Proof.
  revert x. induction p as [p IH|p IH|]; intros x; cbn [SpecFloat.iter_pos].
  - rewrite !IH, Pos2Nat.inj_xI.
    replace (S (2 * Pos.to_nat p))%nat
      with (Pos.to_nat p + S (Pos.to_nat p))%nat by lia.
    rewrite Nat.iter_add, Nat.iter_succ_r. reflexivity.
  - rewrite !IH, Pos2Nat.inj_xO.
    replace (2 * Pos.to_nat p)%nat
      with (Pos.to_nat p + Pos.to_nat p)%nat by lia.
    rewrite Nat.iter_add. reflexivity.
  - reflexivity.
Qed.

Lemma shr_1_nonneg (m : Z) (r s : bool) :
  0 <= m ->
  shr_1 {| shr_m := m; shr_r := r; shr_s := s |}
  = {| shr_m := m / 2; shr_r := Z.odd m; shr_s := r || s |}.
Proof.
  intros Hm. destruct m as [|p|p]; [reflexivity| |lia].
  destruct p as [p|p|]; simpl shr_1; f_equal.
  - change (Z.pos p~1) with (2 * Z.pos p + 1).
    apply Z.div_unique with 1; lia.
  - change (Z.pos p~0) with (2 * Z.pos p).
    apply Z.div_unique with 0; lia.
Qed.

(** [j] shifts to the right divide by [2^j] and keep track of the
    position of the remainder. *)
Lemma shr_iter (m : Z) (j : nat) :
  0 <= m ->
  let st := Nat.iter j shr_1 {| shr_m := m; shr_r := false; shr_s := false |} in
  shr_m st = m / 2 ^ Z.of_nat j
  /\ loc_of_shr_record st
     = locOf (m mod 2 ^ Z.of_nat j) (2 ^ Z.of_nat j).
Proof.
  intros Hm. induction j as [|j IH].
  - simpl. rewrite Z.div_1_r, Z.mod_1_r. split; reflexivity.
  - rewrite Nat.iter_succ. cbv zeta in IH |- *.
    destruct (Nat.iter j shr_1 _) as [q r s]. simpl in IH.
    destruct IH as [Hq Hloc].
    set (P := 2 ^ Z.of_nat j) in *.
    assert (HP : 0 < P) by (apply Z.pow_pos_nonneg; lia).
    assert (Hq0 : 0 <= q) by (rewrite Hq; apply Z.div_pos; lia).
    rewrite shr_1_nonneg by exact Hq0. cbn [shr_m].
    assert (EP : 2 ^ Z.of_nat (S j) = P * 2).
    { rewrite Nat2Z.inj_succ, Z.pow_succ_r by lia. unfold P. lia. }
    rewrite EP. split.
    + rewrite Hq. apply Z.div_div; lia.
    + assert (Hrem : m mod (P * 2) = m mod P + P * (if Z.odd q then 1 else 0)).
      { rewrite Z.rem_mul_r by lia. rewrite <- Hq, Zmod_odd. reflexivity. }
      rewrite Hrem.
      pose proof (Z.mod_pos_bound m P HP) as Hb.
      unfold locOf in *.
      destruct (Z.eqb_spec (m mod P) 0) as [E0|N0].
      * (* no remainder so far *)
        destruct r, s; try discriminate Hloc. rewrite E0.
        destruct (Z.odd q); simpl.
        -- destruct (Z.eqb_spec (0 + P * 1) 0); [lia|].
           replace (2 * (0 + P * 1)) with (P * 2) by lia.
           now rewrite Z.compare_refl.
        -- destruct (Z.eqb_spec (0 + P * 0) 0); [reflexivity | lia].
      * assert (Hrs : r || s = true) by (destruct r, s; try discriminate; reflexivity).
        rewrite Hrs.
        assert (Hcmp : (2 * (m mod P) ?= P)
                       = match r, s with
                         | false, _ => Lt
                         | true, false => Eq
                         | true, true => Gt
                         end).
        { destruct r, s; simpl in Hloc; try discriminate;
            injection Hloc as Hloc; symmetry; exact Hloc. }
        destruct (Z.odd q); simpl.
        -- destruct (Z.eqb_spec (m mod P + P * 1) 0); [lia|].
           f_equal. symmetry. apply Z.compare_gt_iff. lia.
        -- destruct (Z.eqb_spec (m mod P + P * 0) 0); [lia|].
           f_equal. symmetry. apply Z.compare_lt_iff. lia.
Qed.

Lemma shr_exact (m e n : Z) :
  0 <= m ->
  let '(st, e') := shr {| shr_m := m; shr_r := false; shr_s := false |} e n in
  (n <= 0 -> st = {| shr_m := m; shr_r := false; shr_s := false |} /\ e' = e)
  /\ (0 < n ->
      shr_m st = m / 2 ^ n
      /\ loc_of_shr_record st = locOf (m mod 2 ^ n) (2 ^ n)
      /\ e' = e + n).
Proof.
  intros Hm. unfold shr. destruct n as [|p|p].
  - split; [auto | lia].
  - split; [lia|]. intros _. rewrite iter_pos_nat.
    destruct (shr_iter m (Pos.to_nat p) Hm) as [H1 H2].
    rewrite positive_nat_Z in H1, H2. auto.
  - split; [auto | lia].
Qed.

Lemma round_nearest_even_units (m n : Z) :
  0 <= n ->
  round_nearest_even (m / 2 ^ n) (locOf (m mod 2 ^ n) (2 ^ n))
  = roundUnits m n.
Proof.
  intros Hn. unfold roundUnits, locOf.
  pose proof (Z.pow_pos_nonneg 2 n ltac:(lia) Hn) as HP.
  destruct (Z.eqb_spec (m mod 2 ^ n) 0) as [E|NE].
  - rewrite E. cbn [round_nearest_even].
    destruct (Z.compare_spec (2 * 0) (2 ^ n)); [lia | reflexivity | lia].
  - cbn [round_nearest_even].
    destruct (2 * (m mod 2 ^ n) ?= 2 ^ n); reflexivity.
Qed.

Lemma roundUnits_scale (m n a : Z) :
  0 <= a -> 0 <= n -> roundUnits (m * 2 ^ a) (n + a) = roundUnits m n.
Proof.
  intros Ha Hn. unfold roundUnits.
  assert (Pa : 0 < 2 ^ a) by (apply Z.pow_pos_nonneg; lia).
  assert (Pn : 0 < 2 ^ n) by (apply Z.pow_pos_nonneg; lia).
  rewrite Z.pow_add_r by lia.
  rewrite Z.div_mul_cancel_r by lia.
  rewrite Z.mul_mod_distr_r by lia.
  replace (2 * (m mod 2 ^ n * 2 ^ a)) with (2 * (m mod 2 ^ n) * 2 ^ a) by lia.
  destruct (Z.compare_spec (2 * (m mod 2 ^ n) * 2 ^ a) (2 ^ n * 2 ^ a)),
    (Z.compare_spec (2 * (m mod 2 ^ n)) (2 ^ n)); try reflexivity; nia.
Qed.

(** What [binary_round_aux] returns for an exact positive product
    [m * 2^e]: the nearest binary64 number, or infinity past the
    range. *)
Lemma round_aux_nearest (sx : bool) (m : positive) (e : Z) :
  - bias <= e ->
  match binary_round_aux prec emax sx (Z.pos m) e loc_Exact with
  | S754_zero s => s = sx /\ nearest (scaled (Z.pos m) e) = 0
  | S754_finite s m' e' =>
      s = sx /\ scaled (Z.pos m') e' = nearest (scaled (Z.pos m) e)
      /\ -1074 <= e' <= 971
  | S754_infinity s =>
      s = sx /\ scaled 1 972 <= nearest (scaled (Z.pos m) e)
  | S754_nan => False
  end.
Proof.
  intros He.
  assert (Hbias : bias = 2200) by reflexivity.
  set (d := Zdigits2 (Z.pos m) + e).
  set (x := fexp prec emax d).
  assert (Hx : x = Z.max (d - 53) (-1074)) by apply fexp_eq.
  assert (Hlast : lastPlace (scaled (Z.pos m) e) = x + bias).
  { unfold lastPlace, scaled. rewrite Zdigits2_mul_pow2 by lia.
    fold d. lia. }
  pose proof (Zdigits2_bounds (Z.pos m) ltac:(lia)) as [Hlo Hhi].
  unfold binary_round_aux, shr_fexp. fold d. fold x.
  change (shr_record_of_loc (Z.pos m) loc_Exact)
    with {| shr_m := Z.pos m; shr_r := false; shr_s := false |}.
  pose proof (shr_exact (Z.pos m) e (x - e) ltac:(lia)) as S1.
  destruct (shr _ e (x - e)) as [st1 e1].
  destruct S1 as [S1a S1b].
  destruct (Z.leb_spec (x - e) 0) as [Hn|Hn].
  - (* the product is a binary64 number already *)
    destruct (S1a Hn) as [-> ->]. cbn [shr_m loc_of_shr_record round_nearest_even].
    fold d. fold x.
    change (shr_record_of_loc (Z.pos m) loc_Exact)
      with {| shr_m := Z.pos m; shr_r := false; shr_s := false |}.
    pose proof (shr_exact (Z.pos m) e (x - e) ltac:(lia)) as S2.
    destruct (shr _ e (x - e)) as [st2 e2].
    destruct S2 as [S2a _]. destruct (S2a Hn) as [-> ->]. cbn [shr_m].
    assert (Hnear : nearest (scaled (Z.pos m) e) = scaled (Z.pos m) e).
    { unfold nearest. rewrite Hlast. unfold scaled.
      replace (Z.pos m * 2 ^ (e + bias))
        with ((Z.pos m * 2 ^ (e - x)) * 2 ^ (x + bias)).
      - rewrite roundUnits_exact by lia. reflexivity.
      - rewrite <- Z.mul_assoc, <- Z.pow_add_r by lia. do 2 f_equal. lia. }
    change (emax - prec) with 971.
    destruct (Z.leb_spec e 971).
    + split; [reflexivity|]. split; [symmetry; exact Hnear | lia].
    + split; [reflexivity|]. rewrite Hnear. unfold scaled.
      rewrite Z.mul_1_l.
      apply Z.le_trans with (2 ^ (e + bias)).
      * apply Z.pow_le_mono_r; lia.
      * pose proof (Z.pow_pos_nonneg 2 (e + bias) ltac:(lia) ltac:(lia)). nia.
  - (* the product is rounded at the last place [x] *)
    destruct (S1b Hn) as (Hm1 & Hloc1 & ->).
    replace (e + (x - e)) with x by lia.
    rewrite Hm1, Hloc1, round_nearest_even_units by lia.
    set (m1 := roundUnits (Z.pos m) (x - e)).
    assert (Hunits : roundUnits (scaled (Z.pos m) e) (x + bias) = m1).
    { unfold scaled, m1.
      replace (x + bias) with ((x - e) + (e + bias)) by lia.
      apply roundUnits_scale; lia. }
    assert (Hnear : nearest (scaled (Z.pos m) e) = m1 * 2 ^ (x + bias)).
    { unfold nearest. now rewrite Hlast, Hunits. }
    assert (Hq : Z.pos m / 2 ^ (x - e) < 2 ^ 53).
    { apply Z.div_lt_upper_bound; [apply Z.pow_pos_nonneg; lia|].
      rewrite <- Z.pow_add_r by lia.
      apply Z.lt_le_trans with (2 ^ Zdigits2 (Z.pos m)); [exact Hhi|].
      apply Z.pow_le_mono_r; [lia|]. unfold d in Hx. lia. }
    assert (Hm1r : 0 <= m1 <= 2 ^ 53).
    { pose proof (roundUnits_range (Z.pos m) (x - e) ltac:(lia)).
      pose proof (roundUnits_nonneg (Z.pos m) (x - e) ltac:(lia) ltac:(lia)).
      fold m1 in H, H0. lia. }
    rewrite Hnear.
    change (shr_record_of_loc m1 loc_Exact)
      with {| shr_m := m1; shr_r := false; shr_s := false |}.
    pose proof (shr_exact m1 x (fexp prec emax (Zdigits2 m1 + x) - x)
                  ltac:(lia)) as S2.
    destruct (shr _ x (fexp prec emax (Zdigits2 m1 + x) - x)) as [st2 e2].
    destruct S2 as [S2a S2b].
    rewrite fexp_eq in S2a, S2b.
    change (emax - prec) with 971.
    destruct (Z.eq_dec m1 (2 ^ 53)) as [Etop|Ntop].
    + (* rounding reached the next power of two *)
      assert (Hd1 : Zdigits2 m1 = 54) by (rewrite Etop; reflexivity).
      rewrite Hd1 in S2b.
      destruct (S2b ltac:(lia)) as (Hm2 & _ & ->).
      replace (Z.max (54 + x - 53) (-1074) - x) with 1 in Hm2 by lia.
      rewrite Hm2, Etop. change (2 ^ 53 / 2 ^ 1) with (Z.pos (2 ^ 52)).
      cbv iota.
      replace (x + (Z.max (54 + x - 53) (-1074) - x)) with (x + 1) by lia.
      assert (Hval : scaled (Z.pos (2 ^ 52)) (x + 1) = 2 ^ 53 * 2 ^ (x + bias)).
      { unfold scaled. replace (x + 1 + bias) with (1 + (x + bias)) by lia.
        rewrite Z.pow_add_r by lia. change (Z.pos (2 ^ 52)) with (2 ^ 52).
        change (2 ^ 53) with (2 ^ 52 * 2 ^ 1). lia. }
      destruct (Z.leb_spec (x + 1) 971).
      * split; [reflexivity|]. split; [exact Hval | lia].
      * split; [reflexivity|]. rewrite <- Hval. unfold scaled.
        rewrite Z.mul_1_l.
        apply Z.le_trans with (2 ^ (x + 1 + bias)).
        -- apply Z.pow_le_mono_r; lia.
        -- pose proof (Z.pow_pos_nonneg 2 (x + 1 + bias) ltac:(lia) ltac:(lia)).
           change (Z.pos (2 ^ 52)) with (2 ^ 52). nia.
    + assert (Hd1 : Zdigits2 m1 <= 53)
        by (apply Zdigits2_lt_pow2; lia).
      destruct (S2a ltac:(lia)) as [-> ->]. cbn [shr_m].
      destruct m1 as [|m1p|m1p] eqn:E1; [|  |lia].
      * split; [reflexivity | lia].
      * destruct (Z.leb_spec x 971).
        -- split; [reflexivity|]. split; [reflexivity | lia].
        -- split; [reflexivity|]. unfold scaled. rewrite Z.mul_1_l.
           apply Z.le_trans with (2 ^ (x + bias)).
           ++ apply Z.pow_le_mono_r; lia.
           ++ pose proof (Z.pow_pos_nonneg 2 (x + bias) ltac:(lia) ltac:(lia)).
              nia.
Qed.

End Binary64Facts.

Module OrderFacts.
Import RoundingDefs RoundingFacts OrderDefs.

Lemma valid_finite (s : bool) (m : positive) (e : Z) :
  SpecFloat.valid_binary prec emax (S754_finite s m e) = true ->
  e = Z.max (Zdigits2 (Z.pos m) + e - 53) (-1074) /\ e <= 971.
Proof.
  unfold SpecFloat.valid_binary, bounded, canonical_mantissa. intros H.
  apply andb_prop in H as [H1 H2].
  apply Z.eqb_eq in H1. apply Z.leb_le in H2.
  change (fexp prec emax (Z.pos (digits2_pos m) + e))
    with (Z.max (Z.pos (digits2_pos m) + e - 53) (-1074)) in H1.
  change (emax - prec) with 971 in H2.
  simpl Zdigits2. lia.
Qed.

Lemma mantissa_bound (s : bool) (m : positive) (e : Z) :
  SpecFloat.valid_binary prec emax (S754_finite s m e) = true ->
  Z.pos m < 2 ^ 53 /\ (-1074 < e -> 2 ^ 52 <= Z.pos m).
Proof.
  intros H. apply valid_finite in H as [H _].
  pose proof (Zdigits2_bounds (Z.pos m) ltac:(lia)) as [Hlo Hhi].
  split.
  - apply Z.lt_le_trans with (2 ^ Zdigits2 (Z.pos m)); [exact Hhi|].
    apply Z.pow_le_mono_r; lia.
  - intros He. replace 52 with (Zdigits2 (Z.pos m) - 1) by lia. exact Hlo.
Qed.

Lemma mag_nonneg (k : Z) (x : spec_float) : 0 <= mag k x.
Proof.
  destruct x; simpl; try lia;
    try apply Z.mul_nonneg_nonneg; try apply Z.pow_nonneg; lia.
Qed.

Lemma mag_finite_pos (k : Z) (s : bool) (m : positive) (e : Z) :
  0 <= e + k -> 0 < mag k (S754_finite s m e).
Proof.
  intros H. simpl. apply Z.mul_pos_pos; [lia | apply Z.pow_pos_nonneg; lia].
Qed.

Lemma mag_finite_below_top (k : Z) (s : bool) (m : positive) (e : Z) :
  1074 <= k ->
  SpecFloat.valid_binary prec emax (S754_finite s m e) = true ->
  mag k (S754_finite s m e) < 2 ^ (1024 + k).
Proof.
  intros Hk H. pose proof (mantissa_bound s m e H) as [Hm _].
  apply valid_finite in H as [He1 He2]. simpl.
  apply Z.lt_le_trans with (2 ^ 53 * 2 ^ (e + k)).
  - apply Z.mul_lt_mono_pos_r; [apply Z.pow_pos_nonneg; lia | exact Hm].
  - rewrite <- Z.pow_add_r by lia. apply Z.pow_le_mono_r; lia.
Qed.

(** Numbers with a smaller exponent are smaller. *)
Lemma mag_exponent_lt (k : Z) (s1 s2 : bool) (m1 m2 : positive) (e1 e2 : Z) :
  1074 <= k ->
  SpecFloat.valid_binary prec emax (S754_finite s1 m1 e1) = true ->
  SpecFloat.valid_binary prec emax (S754_finite s2 m2 e2) = true ->
  e1 < e2 ->
  mag k (S754_finite s1 m1 e1) < mag k (S754_finite s2 m2 e2).
Proof.
  intros Hk V1 V2 He.
  pose proof (mantissa_bound _ _ _ V1) as [Hm1 _].
  pose proof (mantissa_bound _ _ _ V2) as [_ Hm2].
  apply valid_finite in V1 as [E1 _]. apply valid_finite in V2 as [E2 _].
  specialize (Hm2 ltac:(lia)). simpl.
  apply Z.lt_le_trans with (2 ^ 53 * 2 ^ (e1 + k)).
  - apply Z.mul_lt_mono_pos_r; [apply Z.pow_pos_nonneg; lia | exact Hm1].
  - apply Z.le_trans with (2 ^ 52 * 2 ^ (e2 + k)).
    + rewrite <- !Z.pow_add_r by lia. apply Z.pow_le_mono_r; lia.
    + apply Z.mul_le_mono_nonneg_r; [apply Z.pow_nonneg; lia | exact Hm2].
Qed.

Lemma compare_cont_Eq (m1 m2 : positive) :
  Pos.compare_cont Eq m1 m2 = (Z.pos m1 ?= Z.pos m2).
Proof. reflexivity. Qed.

(** On valid numbers that are not negative the comparison of IEEE 754
    is the comparison of the magnitudes. *)
Lemma compare_mag (k : Z) (x y : spec_float) :
  1074 <= k ->
  SpecFloat.valid_binary prec emax x = true ->
  SpecFloat.valid_binary prec emax y = true ->
  nonneg x -> nonneg y ->
  SFcompare x y = Some (mag k x ?= mag k y).
Proof.
  intros Hk Vx Vy Nx Ny.
  assert (Htop : 0 < 2 ^ (1024 + k)) by (apply Z.pow_pos_nonneg; lia).
  destruct x as [sx|sx| |sx mx ex], y as [sy|sy| |sy my ey];
    simpl in Nx, Ny; try contradiction; subst;
    cbn [SFcompare]; f_equal; symmetry.
  - apply Z.compare_lt_iff. exact Htop.
  - pose proof (valid_finite _ _ _ Vy) as [E _].
    apply Z.compare_lt_iff. apply (mag_finite_pos k false my ey). lia.
  - apply Z.compare_gt_iff. exact Htop.
  - apply Z.compare_refl.
  - apply Z.compare_gt_iff. now apply mag_finite_below_top.
  - pose proof (valid_finite _ _ _ Vx) as [E _].
    apply Z.compare_gt_iff. apply (mag_finite_pos k false mx ex). lia.
  - apply Z.compare_lt_iff. now apply mag_finite_below_top.
  - destruct (Z.compare_spec ex ey) as [E|L|G].
    + subst ey. rewrite compare_cont_Eq. cbn [mag].
      pose proof (valid_finite _ _ _ Vx) as [E _].
      assert (0 < 2 ^ (ex + k)) by (apply Z.pow_pos_nonneg; lia).
      destruct (Z.compare_spec (Z.pos mx) (Z.pos my)) as [E1|L1|G1].
      * apply Z.compare_eq_iff. rewrite E1. reflexivity.
      * apply Z.compare_lt_iff. nia.
      * apply Z.compare_gt_iff. nia.
    + apply Z.compare_lt_iff. now apply mag_exponent_lt.
    + apply Z.compare_gt_iff. apply mag_exponent_lt; [assumption..|lia].
Qed.

Lemma SFleb_mag (k : Z) (x y : spec_float) :
  1074 <= k ->
  SpecFloat.valid_binary prec emax x = true -> SpecFloat.valid_binary prec emax y = true ->
  nonneg x -> nonneg y ->
  SFleb x y = (mag k x <=? mag k y).
Proof.
  intros Hk Vx Vy Nx Ny. unfold SFleb.
  rewrite (compare_mag k x y Hk Vx Vy Nx Ny). unfold Z.leb.
  destruct (mag k x ?= mag k y); reflexivity.
Qed.

Lemma SFltb_mag (k : Z) (x y : spec_float) :
  1074 <= k ->
  SpecFloat.valid_binary prec emax x = true -> SpecFloat.valid_binary prec emax y = true ->
  nonneg x -> nonneg y ->
  SFltb x y = (mag k x <? mag k y).
Proof.
  intros Hk Vx Vy Nx Ny. unfold SFltb.
  rewrite (compare_mag k x y Hk Vx Vy Nx Ny). unfold Z.ltb.
  destruct (mag k x ?= mag k y); reflexivity.
Qed.





End OrderFacts.

Module ShapeFacts.
Import RoundingDefs RoundingFacts Binary64Facts OrderDefs OrderFacts ShapeDefs.

Lemma round_aux_rounded (sx : bool) (m : positive) (e : Z) :
  - bias <= e ->
  rounded (scaled (Z.pos m) e)
    (binary_round_aux prec emax sx (Z.pos m) e loc_Exact)
  /\ signed sx (binary_round_aux prec emax sx (Z.pos m) e loc_Exact).
Proof.
  intros He. pose proof (round_aux_nearest sx m e He) as H.
  destruct (binary_round_aux _ _ _ _ _ _); simpl; tauto.
Qed.

Lemma shr_nonneg (st : shr_record) (e n : Z) :
  0 <= shr_m st -> 0 <= shr_m (fst (shr st e n)).
Proof.
  intros H. unfold shr. destruct n as [|p|p]; cbn [fst]; try exact H.
  rewrite iter_pos_nat. induction (Pos.to_nat p) as [|j IH]; [exact H|].
  rewrite Nat.iter_succ. destruct (Nat.iter j shr_1 st) as [q r s].
  cbn [shr_m] in IH. rewrite shr_1_nonneg by exact IH. cbn [shr_m].
  apply Z.div_pos; lia.
Qed.

Lemma shr_record_of_loc_m (m : Z) (l : location) :
  shr_m (shr_record_of_loc m l) = m.
Proof. destruct l as [|[]]; reflexivity. Qed.

Lemma round_nearest_even_nonneg (m : Z) (l : location) :
  0 <= m -> 0 <= round_nearest_even m l.
Proof.
  intros H. destruct l as [|[]]; simpl; try lia. destruct (Z.even m); lia.
Qed.

(** Rounding never produces NaN, and keeps the sign it is given. *)
Lemma round_aux_signed (sx : bool) (mx ex : Z) (lx : location) :
  0 <= mx -> signed sx (binary_round_aux prec emax sx mx ex lx).
Proof.
  intros H. unfold binary_round_aux, shr_fexp.
  pose proof (shr_nonneg (shr_record_of_loc mx lx) ex
                (fexp prec emax (Zdigits2 mx + ex) - ex)) as H1.
  rewrite shr_record_of_loc_m in H1. specialize (H1 H).
  destruct (shr (shr_record_of_loc mx lx) ex _) as [st1 e1]. cbn [fst] in H1.
  set (m1 := round_nearest_even (shr_m st1) (loc_of_shr_record st1)).
  assert (Hm1 : 0 <= m1) by (apply round_nearest_even_nonneg; exact H1).
  pose proof (shr_nonneg (shr_record_of_loc m1 loc_Exact) e1
                (fexp prec emax (Zdigits2 m1 + e1) - e1)) as H2.
  rewrite shr_record_of_loc_m in H2. specialize (H2 Hm1).
  destruct (shr (shr_record_of_loc m1 loc_Exact) e1 _) as [st2 e2].
  cbn [fst] in H2. destruct (shr_m st2); [reflexivity| |lia].
  destruct (e2 <=? emax - prec); reflexivity.
Qed.

Lemma nearest_zero : nearest 0 = 0.
Proof. reflexivity. Qed.


End ShapeFacts.

(** ** Doubles: floor, [Math.max], [Math.min] *)

Module DoubleFacts.
Import RoundingDefs RoundingFacts Binary64Facts OrderDefs OrderFacts.
Import ShapeDefs ShapeFacts Double DoubleDefs.

Lemma SF_zero : Prim2SF 0 = S754_zero false.
Proof. reflexivity. Qed.



Lemma SF_infinity : Prim2SF infinity = S754_infinity false.
Proof. reflexivity. Qed.





Lemma leb_mag (k : Z) (a b : float) :
  1074 <= k -> nonneg (Prim2SF a) -> nonneg (Prim2SF b) ->
  (a <=? b)%float = (mag k (Prim2SF a) <=? mag k (Prim2SF b)).
Proof.
  intros Hk Na Nb. rewrite FloatAxioms.leb_spec.
  apply SFleb_mag; auto using FloatAxioms.Prim2SF_valid.
Qed.

Lemma ltb_mag (k : Z) (a b : float) :
  1074 <= k -> nonneg (Prim2SF a) -> nonneg (Prim2SF b) ->
  (a <? b)%float = (mag k (Prim2SF a) <? mag k (Prim2SF b)).
Proof.
  intros Hk Na Nb. rewrite FloatAxioms.ltb_spec.
  apply SFltb_mag; auto using FloatAxioms.Prim2SF_valid.
Qed.


Lemma nonpos_not_nan (x : spec_float) : nonpos x -> isNaN x = false.
Proof. destruct x; simpl; tauto. Qed.


(** *** The floor of a double *)









(** *** [Math.max] and [Math.min] *)


Lemma Math_min_nan (c : float) : Math_min nan c = nan.
Proof. reflexivity. Qed.


(** *** Sums and quotients never invent a NaN *)

Lemma iter_xO (m d : positive) :
  Z.pos (Pos.iter xO m d) = Z.pos m * 2 ^ Z.pos d.
Proof.
  induction d as [|d IH] using Pos.peano_ind.
  - cbn [Pos.iter]. rewrite Pos2Z.inj_xO. change (2 ^ 1) with 2. lia.
  - rewrite Pos.iter_succ, Pos2Z.inj_xO, IH, Pos2Z.inj_succ.
    rewrite Z.pow_succ_r by lia. lia.
Qed.

Lemma shl_align_scaled (m : positive) (e e' : Z) :
  snd (shl_align m e e') = Z.min e e'
  /\ Z.pos (fst (shl_align m e e')) = Z.pos m * 2 ^ (e - Z.min e e').
Proof.
  unfold shl_align. destruct (e' - e) as [|d|d] eqn:E; cbn [fst snd].
  - replace (Z.min e e') with e by lia. rewrite Z.sub_diag. split; lia.
  - replace (Z.min e e') with e by lia. rewrite Z.sub_diag. split; lia.
  - replace (Z.min e e') with e' by lia. split; [reflexivity|].
    rewrite iter_xO. do 2 f_equal. lia.
Qed.

Lemma binary_round_rounded (sx : bool) (m : positive) (e : Z) :
  -1074 <= e ->
  rounded (scaled (Z.pos m) e) (binary_round prec emax sx m e)
  /\ signed sx (binary_round prec emax sx m e).
Proof.
  intros He. unfold binary_round.
  pose proof (shl_align_scaled m e
                (fexp prec emax (Z.pos (digits2_pos m) + e))) as [H1 H2].
  destruct (shl_align m e _) as [mz ez]. cbn [fst snd] in H1, H2.
  rewrite fexp_eq in H1, H2.
  assert (Hb : bias = 2200) by reflexivity.
  replace (scaled (Z.pos m) e) with (scaled (Z.pos mz) ez).
  - apply round_aux_rounded. lia.
  - unfold scaled. rewrite H2, <- H1, <- Z.mul_assoc, <- Z.pow_add_r by lia.
    do 2 f_equal. lia.
Qed.



Lemma nearest_one : nearest (2 ^ bias) = 2 ^ bias.
Proof. vm_compute. reflexivity. Qed.



Lemma div_core_nonneg (m1 m2 : positive) (e1 e2 : Z) :
  0 <= fst (fst (SFdiv_core_binary prec emax (Z.pos m1) e1 (Z.pos m2) e2)).
Proof.
  unfold SFdiv_core_binary.
  set (s := e1 - e2 - _).
  set (m' := match s with Z.pos _ => Z.shiftl (Z.pos m1) s
                     | 0 => Z.pos m1 | Z.neg _ => 0 end).
  assert (Hm : 0 <= m').
  { unfold m'. destruct s; try lia. apply Z.shiftl_nonneg. lia. }
  destruct (Z.div_eucl m' (Z.pos m2)) as [q r] eqn:E. cbn [fst].
  assert (Hq : q = m' / Z.pos m2) by (unfold Z.div; rewrite E; reflexivity).
  rewrite Hq. apply Z.div_pos; lia.
Qed.

Lemma SFdiv_finite_signed (sx sy : bool) (mx my : positive) (ex ey : Z) :
  signed (xorb sx sy)
    (SFdiv prec emax (S754_finite sx mx ex) (S754_finite sy my ey)).
Proof.
  cbn [SFdiv].
  pose proof (div_core_nonneg mx my ex ey) as H.
  destruct (SFdiv_core_binary _ _ _ _ _ _) as [[mz ez] lz]. cbn [fst] in H.
  apply round_aux_signed. exact H.
Qed.






(** *** Signs *)



(** *** The chain of the sizing functions *)




Lemma finite_not_nan (x : spec_float) : isFinite x = true -> isNaN x = false.
Proof. destruct x; simpl; intros; try reflexivity; discriminate. Qed.







End DoubleFacts.

(** ** Quotients of doubles *)

Module QuotientFacts.
Import RoundingDefs RoundingFacts Binary64Facts OrderDefs OrderFacts.
Import ShapeDefs ShapeFacts QuotientDefs.

Lemma roundDiv_range (n p : Z) :
  0 < p -> n / p <= roundDiv n p <= n / p + 1.
Proof.
  intros Hp. unfold roundDiv.
  destruct (2 * (n mod p) ?= p); [destruct (Z.even (n / p))|..]; lia.
Qed.

Lemma roundDiv_upper (n p b : Z) :
  0 < p -> n <= b * p -> roundDiv n p <= b.
Proof.
  intros Hp H. unfold roundDiv.
  pose proof (Z.div_mod n p ltac:(lia)) as E.
  pose proof (Z.mod_pos_bound n p Hp) as Hr.
  set (q := n / p) in *. set (r := n mod p) in *.
  assert (Hq : q <= b) by nia.
  destruct (Z.compare_spec (2 * r) p) as [C|C|C].
  - destruct (Z.even q); [lia|]. assert (q <> b) by nia. lia.
  - lia.
  - assert (q <> b) by nia. lia.
Qed.

Lemma roundDiv_lower (n p b : Z) :
  0 < p -> b * p <= n -> b <= roundDiv n p.
Proof.
  intros Hp H. pose proof (roundDiv_range n p Hp) as [R _].
  assert (b <= n / p) by (apply Z.div_le_lower_bound; lia). lia.
Qed.

Lemma record_of_loc (q : Z) (l : location) :
  shr_m (shr_record_of_loc q l) = q
  /\ loc_of_shr_record (shr_record_of_loc q l) = l.
Proof. destruct l as [|[]]; split; reflexivity. Qed.

(** [j] shifts to the right of a quotient [n / d] with its remainder
    divide by [2^j] and keep track of the position of the remainder. *)
Lemma shr_iter_quotient (n d : Z) (j : nat) :
  0 <= n -> 0 < d ->
  let st := Nat.iter j shr_1
              (shr_record_of_loc (n / d) (locOf (n mod d) d)) in
  shr_m st = n / (d * 2 ^ Z.of_nat j)
  /\ loc_of_shr_record st
     = locOf (n mod (d * 2 ^ Z.of_nat j)) (d * 2 ^ Z.of_nat j).
Proof.
  intros Hn Hd. induction j as [|j IH].
  - cbn [Nat.iter Z.of_nat]. change (2 ^ 0) with 1. rewrite Z.mul_1_r.
    apply record_of_loc.
  - rewrite Nat.iter_succ. cbv zeta in IH |- *.
    destruct (Nat.iter j shr_1 _) as [q r s]. cbn [shr_m] in IH.
    destruct IH as [Hq Hloc].
    set (P := d * 2 ^ Z.of_nat j) in *.
    assert (HP : 0 < P).
    { unfold P. apply Z.mul_pos_pos; [lia | apply Z.pow_pos_nonneg; lia]. }
    assert (Hq0 : 0 <= q) by (rewrite Hq; apply Z.div_pos; lia).
    rewrite shr_1_nonneg by exact Hq0. cbn [shr_m].
    assert (EP : d * 2 ^ Z.of_nat (S j) = P * 2).
    { rewrite Nat2Z.inj_succ, Z.pow_succ_r by lia. unfold P. ring. }
    rewrite EP. split.
    + rewrite Hq. apply Z.div_div; lia.
    + assert (Hrem : n mod (P * 2) = n mod P + P * (if Z.odd q then 1 else 0)).
      { rewrite Z.rem_mul_r by lia. rewrite <- Hq, Zmod_odd. reflexivity. }
      rewrite Hrem.
      pose proof (Z.mod_pos_bound n P HP) as Hb.
      unfold locOf in *.
      destruct (Z.eqb_spec (n mod P) 0) as [E0|N0].
      * destruct r, s; try discriminate Hloc. rewrite E0.
        destruct (Z.odd q); simpl.
        -- destruct (Z.eqb_spec (0 + P * 1) 0); [lia|].
           replace (2 * (0 + P * 1)) with (P * 2) by lia.
           now rewrite Z.compare_refl.
        -- destruct (Z.eqb_spec (0 + P * 0) 0); [reflexivity | lia].
      * assert (Hrs : r || s = true)
          by (destruct r, s; try discriminate; reflexivity).
        rewrite Hrs.
        assert (Hcmp : (2 * (n mod P) ?= P)
                       = match r, s with
                         | false, _ => Lt
                         | true, false => Eq
                         | true, true => Gt
                         end).
        { destruct r, s; simpl in Hloc; try discriminate;
            injection Hloc as Hloc; symmetry; exact Hloc. }
        destruct (Z.odd q); simpl.
        -- destruct (Z.eqb_spec (n mod P + P * 1) 0); [lia|].
           f_equal. symmetry. apply Z.compare_gt_iff. lia.
        -- destruct (Z.eqb_spec (n mod P + P * 0) 0); [lia|].
           f_equal. symmetry. apply Z.compare_lt_iff.
           destruct r, s; try discriminate Hcmp;
             apply Z.compare_lt_iff in Hcmp || apply Z.compare_eq_iff in Hcmp
             || apply Z.compare_gt_iff in Hcmp; lia.
Qed.

Lemma shr_quotient (n d e k : Z) :
  0 <= n -> 0 < d ->
  let '(st, e') := shr (shr_record_of_loc (n / d) (locOf (n mod d) d)) e k in
  (k <= 0 ->
   st = shr_record_of_loc (n / d) (locOf (n mod d) d) /\ e' = e)
  /\ (0 < k ->
      shr_m st = n / (d * 2 ^ k)
      /\ loc_of_shr_record st = locOf (n mod (d * 2 ^ k)) (d * 2 ^ k)
      /\ e' = e + k).
Proof.
  intros Hn Hd. unfold shr. destruct k as [|p|p].
  - split; [auto | lia].
  - split; [lia|]. intros _. rewrite iter_pos_nat.
    destruct (shr_iter_quotient n d (Pos.to_nat p) Hn Hd) as [H1 H2].
    rewrite positive_nat_Z in H1, H2. auto.
  - split; [auto | lia].
Qed.

Lemma round_nearest_even_div (n p : Z) :
  0 < p ->
  round_nearest_even (n / p) (locOf (n mod p) p) = roundDiv n p.
Proof.
  intros Hp. unfold roundDiv, locOf.
  destruct (Z.eqb_spec (n mod p) 0) as [E|NE].
  - rewrite E. cbn [round_nearest_even].
    destruct (Z.compare_spec (2 * 0) p); [lia | reflexivity | lia].
  - cbn [round_nearest_even].
    destruct (2 * (n mod p) ?= p); reflexivity.
Qed.

(** What [binary_round_aux] returns for a quotient [n / d] with its
    remainder, in units of [2^e]: the quotient is rounded at the
    exponent [e1]. *)
Lemma round_aux_quotient (sx : bool) (n d e : Z) :
  0 <= n -> 0 < d -> - bias <= e ->
  let e1 := Z.max e (fexp prec emax (Zdigits2 (n / d) + e)) in
  let m1 := roundDiv n (d * 2 ^ (e1 - e)) in
  match binary_round_aux prec emax sx (n / d) e (locOf (n mod d) d) with
  | S754_zero s => s = sx /\ m1 = 0
  | S754_finite s m' e' =>
      s = sx /\ scaled (Z.pos m') e' = m1 * 2 ^ (e1 + bias) /\ e' <= 971
  | S754_infinity s => s = sx /\ 0 < m1 /\ 971 <= e1
  | S754_nan => False
  end.
Proof.
  intros Hn Hd He e1 m1.
  assert (Hbias : bias = 2200) by reflexivity.
  set (q := n / d) in *.
  assert (Hq0 : 0 <= q) by (apply Z.div_pos; lia).
  set (x := fexp prec emax (Zdigits2 q + e)) in *.
  assert (Hx : x = Z.max (Zdigits2 q + e - 53) (-1074)) by apply fexp_eq.
  unfold binary_round_aux, shr_fexp.
  destruct (record_of_loc q (locOf (n mod d) d)) as [Rm Rl].
  fold x.
  pose proof (shr_quotient n d e (x - e) Hn Hd) as S1. fold q in S1.
  destruct (shr _ e (x - e)) as [st1 ee].
  destruct S1 as [S1a S1b].
  (* the first stage leaves [m1] at the exponent [e1] *)
  assert (Stage : round_nearest_even (shr_m st1) (loc_of_shr_record st1) = m1
                  /\ ee = e1).
  { destruct (Z.leb_spec (x - e) 0) as [Hk|Hk].
    - destruct (S1a Hk) as [-> ->]. rewrite Rm, Rl. unfold m1, e1.
      replace (Z.max e x) with e by lia. rewrite Z.sub_diag.
      change (2 ^ 0) with 1. rewrite Z.mul_1_r.
      split; [apply round_nearest_even_div; lia | reflexivity].
    - destruct (S1b Hk) as (Hm & Hl & ->). rewrite Hm, Hl. unfold m1, e1.
      replace (Z.max e x) with x by lia.
      split; [|lia].
      apply round_nearest_even_div.
      apply Z.mul_pos_pos; [lia | apply Z.pow_pos_nonneg; lia]. }
  destruct Stage as [-> ->].
  assert (He1 : e <= e1 /\ x <= e1 /\ -1074 <= e1) by (unfold e1; lia).
  assert (HP : 0 < d * 2 ^ (e1 - e))
    by (apply Z.mul_pos_pos; [lia | apply Z.pow_pos_nonneg; lia]).
  assert (Hfloor : n / (d * 2 ^ (e1 - e)) < 2 ^ 53).
  { rewrite <- Z.div_div by (try apply Z.pow_pos_nonneg; lia). fold q.
    destruct (Z.eq_dec q 0) as [->|Hq].
    - rewrite Z.div_0_l by (pose proof (Z.pow_pos_nonneg 2 (e1 - e)); lia).
      reflexivity.
    - pose proof (Zdigits2_bounds q ltac:(lia)) as [_ Hhi].
      apply Z.div_lt_upper_bound; [apply Z.pow_pos_nonneg; lia|].
      rewrite <- Z.pow_add_r by lia.
      apply Z.lt_le_trans with (2 ^ Zdigits2 q); [exact Hhi|].
      apply Z.pow_le_mono_r; lia. }
  assert (Hm1 : 0 <= m1 <= 2 ^ 53).
  { pose proof (roundDiv_range n (d * 2 ^ (e1 - e)) HP) as [R1 R2].
    fold m1 in R1, R2.
    assert (0 <= n / (d * 2 ^ (e1 - e))) by (apply Z.div_pos; lia). lia. }
  change (shr_record_of_loc m1 loc_Exact)
    with {| shr_m := m1; shr_r := false; shr_s := false |}.
  pose proof (shr_exact m1 e1 (fexp prec emax (Zdigits2 m1 + e1) - e1)
                ltac:(lia)) as S2.
  destruct (shr _ e1 (fexp prec emax (Zdigits2 m1 + e1) - e1)) as [st2 e2].
  destruct S2 as [S2a S2b].
  rewrite fexp_eq in S2a, S2b.
  change (emax - prec) with 971.
  destruct (Z.eq_dec m1 (2 ^ 53)) as [Etop|Ntop].
  - assert (Hd1 : Zdigits2 m1 = 54) by (rewrite Etop; reflexivity).
    rewrite Hd1 in S2b.
    destruct (S2b ltac:(lia)) as (Hm2 & _ & ->).
    replace (Z.max (54 + e1 - 53) (-1074) - e1) with 1 in Hm2 by lia.
    rewrite Hm2, Etop. change (2 ^ 53 / 2 ^ 1) with (Z.pos (2 ^ 52)).
    cbv iota.
    replace (e1 + (Z.max (54 + e1 - 53) (-1074) - e1)) with (e1 + 1) by lia.
    destruct (Z.leb_spec (e1 + 1) 971).
    + split; [reflexivity|]. split; [|lia].
      unfold scaled. replace (e1 + 1 + bias) with (1 + (e1 + bias)) by lia.
      rewrite Z.pow_add_r by lia. change (Z.pos (2 ^ 52)) with (2 ^ 52).
      change (2 ^ 53) with (2 ^ 52 * 2 ^ 1). ring.
    + split; [reflexivity|]. split; [|lia]. reflexivity.
  - assert (Hd1 : Zdigits2 m1 <= 53) by (apply Zdigits2_lt_pow2; lia).
    destruct (S2a ltac:(lia)) as [-> ->]. cbn [shr_m].
    destruct m1 as [|m1p|m1p] eqn:E1; [|  |lia].
    + split; reflexivity.
    + destruct (Z.leb_spec e1 971).
      * split; [reflexivity|]. split; [reflexivity | lia].
      * split; [reflexivity|]. split; lia.
Qed.

End QuotientFacts.

Module DivisionFacts.
Import RoundingDefs RoundingFacts Binary64Facts OrderDefs OrderFacts.
Import ShapeDefs ShapeFacts DoubleDefs QuotientDefs QuotientFacts.

Lemma new_location_locOf (d r : Z) :
  0 < d -> 0 <= r < d -> new_location d r = locOf r d.
Proof.
  intros Hd Hr. unfold new_location, new_location_even, new_location_odd, locOf.
  destruct (Z.even d) eqn:E; [reflexivity|].
  destruct (Z.eqb_spec r 0); [reflexivity|]. f_equal.
  assert (Ho : Z.odd d = true) by (rewrite <- Z.negb_even, E; reflexivity).
  apply Z.odd_spec in Ho as [h Ho].
  destruct (Z.compare_spec (2 * r + 1) d), (Z.compare_spec (2 * r) d);
    try reflexivity; lia.
Qed.

Lemma div_core_spec (mx my : positive) (ex ey : Z) :
  let e' := Z.min (fexp prec emax
                     (Zdigits2 (Z.pos mx) + ex - (Zdigits2 (Z.pos my) + ey)))
                  (ex - ey) in
  let n := Z.pos mx * 2 ^ (ex - ey - e') in
  SFdiv_core_binary prec emax (Z.pos mx) ex (Z.pos my) ey
  = (n / Z.pos my, e', locOf (n mod Z.pos my) (Z.pos my)).
Proof.
  intros e' n. unfold SFdiv_core_binary. fold e'.
  assert (Hs : 0 <= ex - ey - e') by (unfold e'; lia).
  assert (Hm : match ex - ey - e' with
               | Z.pos _ => Z.shiftl (Z.pos mx) (ex - ey - e')
               | 0 => Z.pos mx
               | Z.neg _ => 0
               end = n).
  { unfold n. destruct (ex - ey - e') as [|p|p] eqn:E.
    - change (2 ^ 0) with 1. lia.
    - rewrite Z.shiftl_mul_pow2 by lia. reflexivity.
    - lia. }
  rewrite Hm.
  destruct (Z.div_eucl n (Z.pos my)) as [q r] eqn:E.
  assert (Hq : q = n / Z.pos my) by (unfold Z.div; rewrite E; reflexivity).
  assert (Hr : r = n mod Z.pos my)
    by (unfold Z.modulo; rewrite E; reflexivity).
  subst q r. f_equal.
  apply new_location_locOf; [lia|]. apply Z.mod_pos_bound. lia.
Qed.

Lemma pow2_le_shift (a b u v w : Z) :
  0 <= u -> 0 <= v -> 0 <= u + w -> 0 <= v + w ->
  a * 2 ^ u <= b * 2 ^ v -> a * 2 ^ (u + w) <= b * 2 ^ (v + w).
Proof.
  intros Hu Hv Huw Hvw H. destruct (Z.le_gt_cases 0 w) as [Hw|Hw].
  - rewrite !Z.pow_add_r, !Z.mul_assoc by lia.
    apply Z.mul_le_mono_nonneg_r; [apply Z.pow_nonneg; lia | exact H].
  - assert (P : 0 < 2 ^ (- w)) by (apply Z.pow_pos_nonneg; lia).
    assert (Eu : 2 ^ u = 2 ^ (u + w) * 2 ^ (- w)).
    { rewrite <- Z.pow_add_r by lia. f_equal. lia. }
    assert (Ev : 2 ^ v = 2 ^ (v + w) * 2 ^ (- w)).
    { rewrite <- Z.pow_add_r by lia. f_equal. lia. }
    rewrite Eu, Ev, !Z.mul_assoc in H.
    apply Z.mul_le_mono_pos_r in H; [exact H | exact P].
Qed.

Lemma pow2_lt_exponent (u v : Z) : 0 <= u -> 2 ^ u < 2 ^ v -> u < v.
Proof.
  intros Hu H. destruct (Z.lt_ge_cases u v) as [L|G]; [exact L|].
  destruct (Z.lt_ge_cases v 0) as [Hv|Hv].
  - rewrite (Z.pow_neg_r 2 v) in H by lia.
    pose proof (Z.pow_pos_nonneg 2 u). lia.
  - pose proof (Z.pow_le_mono_r 2 v u). lia.
Qed.

Section Quotient.

Variables (sx sy : bool) (mx my : positive) (ex ey hx hy : Z).
Hypothesis Vx : SpecFloat.valid_binary prec emax (S754_finite sx mx ex) = true.
Hypothesis Vy : SpecFloat.valid_binary prec emax (S754_finite sy my ey) = true.
Hypothesis Hhx : 0 <= hx.
Hypothesis Hhy : 0 <= hy.
Hypothesis Hk : -1074 <= hy - hx <= 900.

(** The bound is [2^k] for [k = hy - hx]: it compares [x * 2^hx] with
    [y * 2^hy]. *)
Local Abbreviation k := (hy - hx).

Local Abbreviation quotient :=
  (SFdiv prec emax (S754_finite sx mx ex) (S754_finite sy my ey)).

(** A quotient of at most [2^k] rounds to at most [2^k]. *)
Lemma SFdiv_upper :
  Z.pos mx * 2 ^ (ex + half + hx) <= Z.pos my * 2 ^ (ey + half + hy) ->
  isFinite quotient = true /\ mag bias quotient <= 2 ^ (k + bias).
Proof.
  intros H.
  assert (Hh : half = 1100) by reflexivity.
  assert (Hb : bias = 2200) by reflexivity.
  pose proof (valid_finite _ _ _ Vx) as [_ Ex].
  pose proof (valid_finite _ _ _ Vy) as [_ Ey].
  assert (Ex' : -1074 <= ex) by (apply valid_finite in Vx; lia).
  assert (Ey' : -1074 <= ey) by (apply valid_finite in Vy; lia).
  pose proof (Zdigits2_bounds (Z.pos mx) ltac:(lia)) as [X1 X2].
  pose proof (Zdigits2_bounds (Z.pos my) ltac:(lia)) as [Y1 Y2].
  pose proof (Zdigits2_pos (Z.pos mx) ltac:(lia)) as DX.
  pose proof (Zdigits2_pos (Z.pos my) ltac:(lia)) as DY.
  cbn [SFdiv]. rewrite div_core_spec.
  set (T := Zdigits2 (Z.pos mx) + ex - (Zdigits2 (Z.pos my) + ey)).
  set (e' := Z.min (fexp prec emax T) (ex - ey)).
  set (n := Z.pos mx * 2 ^ (ex - ey - e')).
  assert (HT : T <= k).
  { assert (L : 2 ^ (Zdigits2 (Z.pos mx) - 1 + (ex + half + hx))
                < 2 ^ (Zdigits2 (Z.pos my) + (ey + half + hy))).
    { set (u := ex + half + hx) in *. set (v := ey + half + hy) in *.
      rewrite !Z.pow_add_r by lia.
      apply Z.le_lt_trans with (Z.pos mx * 2 ^ u).
      - apply Z.mul_le_mono_nonneg_r; [apply Z.pow_nonneg; lia | exact X1].
      - eapply Z.le_lt_trans; [exact H|].
        apply Z.mul_lt_mono_pos_r; [apply Z.pow_pos_nonneg; lia | exact Y2]. }
    apply pow2_lt_exponent in L; unfold T; lia. }
  assert (He' : -2200 <= e' <= k).
  { unfold e'. rewrite fexp_eq. lia. }
  assert (Hn : 0 <= n)
    by (unfold n; apply Z.mul_nonneg_nonneg; [lia | apply Z.pow_nonneg; lia]).
  assert (W : n <= Z.pos my * 2 ^ (k - e')).
  { unfold n.
    replace (ex - ey - e')
      with ((ex + half + hx) + (- (ey + half + hx) - e')) by lia.
    replace (k - e')
      with ((ey + half + hy) + (- (ey + half + hx) - e')) by lia.
    apply pow2_le_shift; try lia; unfold e'; lia. }
  set (q := n / Z.pos my).
  assert (Hq0 : 0 <= q) by (apply Z.div_pos; lia).
  assert (Hq : q <= 2 ^ (k - e')).
  { apply Z.div_le_upper_bound; [lia | exact W]. }
  assert (Hdq : Zdigits2 q <= k - e' + 1).
  { apply Zdigits2_lt_pow2; [|lia]. split; [exact Hq0|].
    rewrite Z.pow_add_r by lia. change (2 ^ 1) with 2.
    pose proof (Z.pow_pos_nonneg 2 (k - e')). lia. }
  pose proof (round_aux_quotient (xorb sx sy) n (Z.pos my) e' Hn
                ltac:(lia) ltac:(lia)) as R.
  fold q in R. cbv zeta in R. rewrite fexp_eq in R.
  set (e1 := Z.max e' (Z.max (Zdigits2 q + e' - 53) (-1074))) in *.
  assert (He1 : e' <= e1 <= k) by (unfold e1; lia).
  set (m1 := roundDiv n (Z.pos my * 2 ^ (e1 - e'))) in *.
  assert (Hm1 : m1 <= 2 ^ (k - e1)).
  { apply roundDiv_upper.
    - apply Z.mul_pos_pos; [lia | apply Z.pow_pos_nonneg; lia].
    - replace (2 ^ (k - e1) * (Z.pos my * 2 ^ (e1 - e')))
        with (Z.pos my * (2 ^ (k - e1) * 2 ^ (e1 - e'))) by ring.
      rewrite <- Z.pow_add_r by lia.
      replace (k - e1 + (e1 - e')) with (k - e') by lia. exact W. }
  destruct (binary_round_aux _ _ _ _ _ _) as [s|s| |s m e]; cbn [isFinite mag].
  - split; [reflexivity|]. apply Z.pow_nonneg. lia.
  - lia.
  - contradiction.
  - destruct R as (_ & R & _). split; [reflexivity|].
    change (Z.pos m * 2 ^ (e + bias)) with (scaled (Z.pos m) e). rewrite R.
    replace (2 ^ (k + bias)) with (2 ^ (k - e1) * 2 ^ (e1 + bias)).
    + apply Z.mul_le_mono_nonneg_r; [apply Z.pow_nonneg; lia | exact Hm1].
    + rewrite <- Z.pow_add_r by lia. f_equal. lia.
Qed.

(** A quotient of at least [2^k] rounds to at least [2^k]. *)
Lemma SFdiv_lower :
  Z.pos my * 2 ^ (ey + half + hy) <= Z.pos mx * 2 ^ (ex + half + hx) ->
  isNaN quotient = false /\ isZero quotient = false
  /\ 2 ^ (k + bias) <= mag bias quotient.
Proof.
  intros H.
  assert (Hh : half = 1100) by reflexivity.
  assert (Hb : bias = 2200) by reflexivity.
  pose proof (valid_finite _ _ _ Vx) as [_ Ex].
  pose proof (valid_finite _ _ _ Vy) as [_ Ey].
  assert (Ex' : -1074 <= ex) by (apply valid_finite in Vx; lia).
  assert (Ey' : -1074 <= ey) by (apply valid_finite in Vy; lia).
  pose proof (Zdigits2_bounds (Z.pos mx) ltac:(lia)) as [X1 X2].
  pose proof (Zdigits2_bounds (Z.pos my) ltac:(lia)) as [Y1 Y2].
  pose proof (Zdigits2_pos (Z.pos mx) ltac:(lia)) as DX.
  pose proof (Zdigits2_pos (Z.pos my) ltac:(lia)) as DY.
  cbn [SFdiv]. rewrite div_core_spec.
  set (T := Zdigits2 (Z.pos mx) + ex - (Zdigits2 (Z.pos my) + ey)).
  set (e' := Z.min (fexp prec emax T) (ex - ey)).
  set (n := Z.pos mx * 2 ^ (ex - ey - e')).
  assert (He' : -2200 <= e' /\ e' <= ex - ey /\ e' <= Z.max (T - 53) (-1074)).
  { unfold e'. rewrite fexp_eq. lia. }
  assert (Hn : 0 <= n)
    by (unfold n; apply Z.mul_nonneg_nonneg; [lia | apply Z.pow_nonneg; lia]).
  set (q := n / Z.pos my).
  assert (Hq0 : 0 <= q) by (apply Z.div_pos; lia).
  pose proof (round_aux_quotient (xorb sx sy) n (Z.pos my) e' Hn
                ltac:(lia) ltac:(lia)) as R.
  fold q in R. cbv zeta in R. rewrite fexp_eq in R.
  set (fx := Z.max (Zdigits2 q + e' - 53) (-1074)) in *.
  set (e1 := Z.max e' fx) in *.
  set (m1 := roundDiv n (Z.pos my * 2 ^ (e1 - e'))) in *.
  assert (HP : 0 < Z.pos my * 2 ^ (e1 - e')).
  { apply Z.mul_pos_pos; [lia | apply Z.pow_pos_nonneg; unfold e1; lia]. }
  assert (Hm1 : 1 <= m1 /\ 2 ^ (k + bias) <= m1 * 2 ^ (e1 + bias)).
  { destruct (Z.le_gt_cases e1 k) as [Hle|Hgt].
    - (* the bound is on the grid of the result *)
      assert (W : Z.pos my * 2 ^ (k - e') <= n).
      { unfold n.
        replace (ex - ey - e')
          with ((ex + half + hx) + (- (ey + half + hx) - e')) by lia.
        replace (k - e')
          with ((ey + half + hy) + (- (ey + half + hx) - e')) by lia.
        apply pow2_le_shift; try lia; unfold e1 in Hle; lia. }
      assert (B : 2 ^ (k - e1) <= m1).
      { apply roundDiv_lower; [exact HP|].
        replace (2 ^ (k - e1) * (Z.pos my * 2 ^ (e1 - e')))
          with (Z.pos my * (2 ^ (k - e1) * 2 ^ (e1 - e'))) by ring.
        rewrite <- Z.pow_add_r by (unfold e1; lia).
        replace (k - e1 + (e1 - e')) with (k - e') by lia. exact W. }
      pose proof (Z.pow_pos_nonneg 2 (k - e1) ltac:(lia) ltac:(lia)).
      split; [lia|].
      replace (2 ^ (k + bias)) with (2 ^ (k - e1) * 2 ^ (e1 + bias)).
      + apply Z.mul_le_mono_nonneg_r;
          [apply Z.pow_nonneg; lia | exact B].
      + rewrite <- Z.pow_add_r by (unfold e1; lia). f_equal. lia.
    - (* the result is a normal number above the bound *)
      assert (Q52 : 2 ^ 52 <= q).
      { destruct (Z.le_gt_cases fx e') as [F|F].
        - (* no shift: the quotient was computed with 53 digits *)
          assert (e1 = e') by (unfold e1; lia).
          assert (Hs : Zdigits2 (Z.pos my) - Zdigits2 (Z.pos mx) + 53
                       <= ex - ey - e') by (unfold T in He'; lia).
          apply Z.div_le_lower_bound; [lia|].
          apply Z.le_trans with (2 ^ Zdigits2 (Z.pos my) * 2 ^ 52).
          + apply Z.mul_le_mono_nonneg_r; [apply Z.pow_nonneg; lia | lia].
          + unfold n.
            apply Z.le_trans
              with (2 ^ (Zdigits2 (Z.pos mx) - 1) * 2 ^ (ex - ey - e')).
            * rewrite <- !Z.pow_add_r by lia. apply Z.pow_le_mono_r; lia.
            * apply Z.mul_le_mono_nonneg_r;
                [apply Z.pow_nonneg; lia | exact X1].
        - (* the shift leaves 53 digits *)
          assert (Dq : 53 <= Zdigits2 q) by (unfold e1, fx in *; lia).
          assert (q <> 0) by (intros ->; simpl in Dq; lia).
          pose proof (Zdigits2_bounds q ltac:(lia)) as [Q1 _].
          eapply Z.le_trans; [|exact Q1]. apply Z.pow_le_mono_r; lia. }
      assert (Hj : e1 - e' <= Zdigits2 q - 53).
      { unfold e1, fx. pose proof (Zdigits2_ge_pow2 q 52 ltac:(lia) Q52). lia. }
      assert (B : 1 <= m1).
      { pose proof (roundDiv_range n (Z.pos my * 2 ^ (e1 - e')) HP) as [R1 _].
        fold m1 in R1. eapply Z.le_trans; [|exact R1].
        rewrite <- Z.div_div
          by (try apply Z.pow_pos_nonneg; unfold e1; lia).
        fold q. apply Z.div_le_lower_bound;
          [apply Z.pow_pos_nonneg; unfold e1; lia|].
        rewrite Z.mul_1_r.
        pose proof (Zdigits2_bounds q ltac:(lia)) as [Q1 _].
        eapply Z.le_trans; [|exact Q1].
        apply Z.pow_le_mono_r; lia. }
      split; [exact B|].
      apply Z.le_trans with (1 * 2 ^ (e1 + bias)).
      + rewrite Z.mul_1_l. apply Z.pow_le_mono_r; lia.
      + apply Z.mul_le_mono_nonneg_r;
          [apply Z.pow_nonneg; unfold e1; lia | exact B]. }
  destruct Hm1 as [B V].
  destruct (binary_round_aux _ _ _ _ _ _) as [s|s| |s m e];
    cbn [isNaN isZero mag].
  - lia.
  - split; [reflexivity|]. split; [reflexivity|].
    apply Z.pow_le_mono_r; lia.
  - contradiction.
  - destruct R as (_ & R & _). split; [reflexivity|]. split; [reflexivity|].
    change (Z.pos m * 2 ^ (e + bias)) with (scaled (Z.pos m) e).
    rewrite R. exact V.
Qed.

End Quotient.

End DivisionFacts.

(** ** Bigints as doubles, sums and ratios *)

Module NumberFacts.
Import RoundingDefs RoundingFacts Binary64Facts OrderDefs OrderFacts.
Import ShapeDefs ShapeFacts DoubleDefs DoubleFacts.
Import QuotientDefs QuotientFacts DivisionFacts Double.

(** *** Rounding gives valid numbers *)

Lemma round_aux_valid (sx : bool) (m : positive) (e : Z) :
  e <= fexp prec emax (Zdigits2 (Z.pos m) + e) ->
  SpecFloat.valid_binary prec emax
    (binary_round_aux prec emax sx (Z.pos m) e loc_Exact) = true.
Proof.
  intros Hcan.
  set (d := Zdigits2 (Z.pos m) + e) in *.
  set (x := fexp prec emax d) in *.
  assert (Hx : x = Z.max (d - 53) (-1074)) by apply fexp_eq.
  pose proof (Zdigits2_bounds (Z.pos m) ltac:(lia)) as [Hlo Hhi].
  unfold binary_round_aux, shr_fexp. fold d. fold x.
  change (shr_record_of_loc (Z.pos m) loc_Exact)
    with {| shr_m := Z.pos m; shr_r := false; shr_s := false |}.
  pose proof (shr_exact (Z.pos m) e (x - e) ltac:(lia)) as S1.
  destruct (shr _ e (x - e)) as [st1 e1].
  destruct S1 as [S1a S1b].
  change (emax - prec) with 971.
  destruct (Z.leb_spec (x - e) 0) as [Hn|Hn].
  - destruct (S1a Hn) as [-> ->].
    cbn [shr_m loc_of_shr_record round_nearest_even].
    fold d. fold x.
    change (shr_record_of_loc (Z.pos m) loc_Exact)
      with {| shr_m := Z.pos m; shr_r := false; shr_s := false |}.
    pose proof (shr_exact (Z.pos m) e (x - e) ltac:(lia)) as S2.
    destruct (shr _ e (x - e)) as [st2 e2].
    destruct S2 as [S2a _]. destruct (S2a Hn) as [-> ->]. cbn [shr_m].
    destruct (Z.leb_spec e 971); [|reflexivity].
    unfold SpecFloat.valid_binary, bounded, canonical_mantissa.
    change (Z.pos (digits2_pos m)) with (Zdigits2 (Z.pos m)). fold d. fold x.
    change (emax - prec) with 971.
    apply andb_true_intro. split; [apply Z.eqb_eq | apply Z.leb_le]; lia.
  - destruct (S1b Hn) as (Hm1 & Hloc1 & ->).
    replace (e + (x - e)) with x by lia.
    rewrite Hm1, Hloc1, round_nearest_even_units by lia.
    set (m1 := roundUnits (Z.pos m) (x - e)).
    assert (Hq : Z.pos m / 2 ^ (x - e) < 2 ^ 53).
    { apply Z.div_lt_upper_bound; [apply Z.pow_pos_nonneg; lia|].
      rewrite <- Z.pow_add_r by lia.
      apply Z.lt_le_trans with (2 ^ Zdigits2 (Z.pos m)); [exact Hhi|].
      apply Z.pow_le_mono_r; [lia|]. unfold d in Hx. lia. }
    pose proof (roundUnits_range (Z.pos m) (x - e) ltac:(lia)) as [Rlo Rhi].
    pose proof (roundUnits_nonneg (Z.pos m) (x - e) ltac:(lia) ltac:(lia))
      as R0.
    fold m1 in Rlo, Rhi, R0.
    change (shr_record_of_loc m1 loc_Exact)
      with {| shr_m := m1; shr_r := false; shr_s := false |}.
    pose proof (shr_exact m1 x (fexp prec emax (Zdigits2 m1 + x) - x)
                  ltac:(lia)) as S2.
    destruct (shr _ x (fexp prec emax (Zdigits2 m1 + x) - x)) as [st2 e2].
    destruct S2 as [S2a S2b].
    rewrite fexp_eq in S2a, S2b.
    destruct (Z.eq_dec m1 (2 ^ 53)) as [Etop|Ntop].
    + assert (Hd1 : Zdigits2 m1 = 54) by (rewrite Etop; reflexivity).
      rewrite Hd1 in S2b.
      destruct (S2b ltac:(lia)) as (Hm2 & _ & ->).
      replace (Z.max (54 + x - 53) (-1074) - x) with 1 in Hm2 by lia.
      rewrite Hm2, Etop. change (2 ^ 53 / 2 ^ 1) with (Z.pos (2 ^ 52)).
      cbv iota.
      replace (x + (Z.max (54 + x - 53) (-1074) - x)) with (x + 1) by lia.
      destruct (Z.leb_spec (x + 1) 971); [|reflexivity].
      unfold SpecFloat.valid_binary, bounded, canonical_mantissa.
      change (Z.pos (digits2_pos (2 ^ 52))) with 53.
      rewrite fexp_eq. change (emax - prec) with 971.
      apply andb_true_intro. split; [apply Z.eqb_eq | apply Z.leb_le]; lia.
    + assert (Hd1 : Zdigits2 m1 <= 53) by (apply Zdigits2_lt_pow2; lia).
      destruct (S2a ltac:(lia)) as [-> ->]. cbn [shr_m].
      destruct m1 as [|m1p|m1p] eqn:E1; [reflexivity|  |lia].
      destruct (Z.leb_spec x 971); [|reflexivity].
      unfold SpecFloat.valid_binary, bounded, canonical_mantissa.
      change (Z.pos (digits2_pos m1p)) with (Zdigits2 (Z.pos m1p)).
      rewrite fexp_eq. change (emax - prec) with 971.
      apply andb_true_intro. split; [apply Z.eqb_eq | apply Z.leb_le; lia].
      destruct (Z.eq_dec x (-1074)) as [->|Hsub]; [lia|].
      assert (Hnorm : 2 ^ 52 <= Z.pos m / 2 ^ (x - e)).
      { apply Z.div_le_lower_bound; [apply Z.pow_pos_nonneg; lia|].
        rewrite <- Z.pow_add_r by lia.
        eapply Z.le_trans; [|exact Hlo].
        apply Z.pow_le_mono_r; [lia|]. unfold d in Hx. lia. }
      pose proof (Zdigits2_ge_pow2 (Z.pos m1p) 52 ltac:(lia) ltac:(lia)).
      lia.
Qed.

Lemma binary_round_valid (sx : bool) (m : positive) (e : Z) :
  SpecFloat.valid_binary prec emax (binary_round prec emax sx m e) = true.
Proof.
  unfold binary_round.
  pose proof (shl_align_scaled m e
                (fexp prec emax (Z.pos (digits2_pos m) + e))) as [H1 H2].
  destruct (shl_align m e _) as [mz ez]. cbn [fst snd] in H1, H2.
  apply round_aux_valid.
  change (Z.pos (digits2_pos m)) with (Zdigits2 (Z.pos m)) in *.
  assert (Hd : Zdigits2 (Z.pos mz) + ez = Zdigits2 (Z.pos m) + e).
  { rewrite H2. rewrite Zdigits2_mul_pow2 by lia. lia. }
  rewrite Hd. lia.
Qed.

Lemma binary_normalize_valid (n e : Z) :
  SpecFloat.valid_binary prec emax (binary_normalize prec emax n e false)
  = true.
Proof.
  destruct n; cbn [binary_normalize];
    [reflexivity | apply binary_round_valid..].
Qed.

(** *** [Number] of a bigint *)

Lemma Number_SF (n : Z) :
  Prim2SF (Number n) = binary_normalize prec emax n 0 false.
Proof. apply FloatAxioms.Prim2SF_SF2Prim, binary_normalize_valid. Qed.

Lemma Number_zero : Prim2SF (Number 0) = S754_zero false.
Proof. apply Number_SF. Qed.

(** Numbers on the grid of binary64 are their own nearest number. *)
Lemma nearest_grid (r p : Z) :
  0 <= r <= 2 ^ 53 -> bias - 1074 <= p -> nearest (r * 2 ^ p) = r * 2 ^ p.
Proof.
  intros [Hr0 Hr] Hp. assert (Hb : bias = 2200) by reflexivity.
  destruct (Z.eq_dec r 0) as [->|Hne]; [reflexivity|].
  unfold nearest.
  assert (Hl : lastPlace (r * 2 ^ p) <= p + 1
               /\ (r < 2 ^ 53 -> lastPlace (r * 2 ^ p) <= p)).
  { unfold lastPlace. rewrite Zdigits2_mul_pow2 by lia.
    pose proof (Zdigits2_lt_pow2 r 54 ltac:(change (2 ^ 54) with (2 * 2 ^ 53); lia)
                  ltac:(lia)).
    split; [lia|]. intros Hlt.
    pose proof (Zdigits2_lt_pow2 r 53 ltac:(lia) ltac:(lia)). lia. }
  pose proof (lastPlace_nonneg (r * 2 ^ p)) as Hl0.
  set (p' := lastPlace (r * 2 ^ p)) in *.
  destruct Hl as [Hl1 Hl2].
  destruct (Z.eq_dec r (2 ^ 53)) as [->|Hlt].
  - replace (2 ^ 53 * 2 ^ p) with (2 ^ (53 + p - p') * 2 ^ p').
    + rewrite roundUnits_exact by lia. reflexivity.
    + rewrite <- !Z.pow_add_r by lia. f_equal. lia.
  - specialize (Hl2 ltac:(lia)).
    replace (r * 2 ^ p) with ((r * 2 ^ (p - p')) * 2 ^ p').
    + rewrite roundUnits_exact by lia. reflexivity.
    + rewrite <- Z.mul_assoc, <- Z.pow_add_r by lia. do 2 f_equal. lia.
Qed.

Lemma nearest_on_grid (n : Z) :
  0 <= n ->
  exists r p, nearest n = r * 2 ^ p /\ 0 <= r <= 2 ^ 53 /\ bias - 1074 <= p.
Proof.
  intros Hn. exists (roundUnits n (lastPlace n)), (lastPlace n).
  pose proof (lastPlace_nonneg n) as Hp.
  split; [reflexivity|]. split; [|unfold lastPlace; lia].
  pose proof (roundUnits_range n (lastPlace n) Hp) as [_ Hhi].
  pose proof (roundUnits_nonneg n (lastPlace n) Hp Hn).
  split; [assumption|].
  assert (n / 2 ^ lastPlace n < 2 ^ 53); [|lia].
  destruct (Z.eq_dec n 0) as [->|Hne].
  { rewrite Z.div_0_l by (pose proof (Z.pow_pos_nonneg 2 (lastPlace 0)); lia).
    reflexivity. }
  pose proof (Zdigits2_bounds n ltac:(lia)) as [_ Hd].
  apply Z.div_lt_upper_bound; [apply Z.pow_pos_nonneg; lia|].
  rewrite <- Z.pow_add_r by lia.
  eapply Z.lt_le_trans; [exact Hd|].
  apply Z.pow_le_mono_r; [lia|]. unfold lastPlace. lia.
Qed.

Lemma nearest_idempotent (n : Z) : 0 <= n -> nearest (nearest n) = nearest n.
Proof.
  intros Hn. destruct (nearest_on_grid n Hn) as (r & p & -> & Hr & Hp).
  apply nearest_grid; assumption.
Qed.

Lemma nearest_double (n : Z) :
  0 <= n -> nearest (2 * nearest n) = 2 * nearest n.
Proof.
  intros Hn. destruct (nearest_on_grid n Hn) as (r & p & -> & Hr & Hp).
  assert (Hb : bias = 2200) by reflexivity.
  replace (2 * (r * 2 ^ p)) with (r * 2 ^ (p + 1))
    by (rewrite Z.pow_add_r by lia; change (2 ^ 1) with 2; ring).
  apply nearest_grid; [assumption | lia].
Qed.

End NumberFacts.

Module RatioFacts.
Import RoundingDefs RoundingFacts Binary64Facts OrderDefs OrderFacts.
Import ShapeDefs ShapeFacts DoubleDefs DoubleFacts.
Import QuotientDefs QuotientFacts DivisionFacts Double NumberFacts.
#[local] Set Warnings "-inexact-float".

Lemma positiveNumber_nonneg (x : spec_float) : positiveNumber x -> nonneg x.
Proof. destruct x as [| | |[] ? ?]; simpl; tauto. Qed.

Lemma pow2_lt (u v : Z) : 0 <= u < v -> 2 ^ u < 2 ^ v.
Proof. intros H. apply Z.pow_lt_mono_r; lia. Qed.

(** [Number(n)] for a positive bigint of at most [t] bits. *)
Lemma Number_positive (n t : Z) :
  0 < n <= 2 ^ t -> 0 <= t <= 900 ->
  positiveNumber (Prim2SF (Number n))
  /\ mag bias (Prim2SF (Number n)) = nearest (n * 2 ^ bias)
  /\ 2 ^ bias <= mag bias (Prim2SF (Number n)) <= 2 ^ (t + bias).
Proof.
  intros [Hn Hnt] Ht. assert (Hb : bias = 2200) by reflexivity.
  rewrite Number_SF. destruct n as [|p|p]; try lia.
  cbn [binary_normalize].
  destruct (binary_round_rounded false p 0 ltac:(lia)) as [R S].
  assert (Es : scaled (Z.pos p) 0 = Z.pos p * 2 ^ bias) by reflexivity.
  rewrite Es in R.
  assert (P : 0 < 2 ^ bias) by (apply Z.pow_pos_nonneg; lia).
  assert (Lo : 2 ^ bias <= nearest (Z.pos p * 2 ^ bias)).
  { rewrite <- nearest_one at 1. apply nearest_mono. nia. }
  assert (Hi : nearest (Z.pos p * 2 ^ bias) <= 2 ^ (t + bias)).
  { rewrite <- (Z.mul_1_l (2 ^ (t + bias))).
    rewrite <- (nearest_grid 1 (t + bias)) by (try split; lia).
    apply nearest_mono. split; [nia|].
    rewrite Z.mul_1_l, Z.pow_add_r by lia.
    apply Z.mul_le_mono_nonneg_r; lia. }
  assert (Top : 2 ^ (t + bias) < scaled 1 972).
  { unfold scaled. rewrite Z.mul_1_l. apply pow2_lt. lia. }
  destruct (binary_round _ _ _ _ _) as [s|s| |s m e];
    simpl in R, S; cbn [positiveNumber mag].
  - lia.
  - lia.
  - contradiction.
  - subst s. destruct R as [R _].
    change (Z.pos m * 2 ^ (e + bias)) with (scaled (Z.pos m) e).
    rewrite R. repeat split; lia.
Qed.

Lemma Number_mono (a b t : Z) :
  0 < a <= b -> b <= 2 ^ t -> 0 <= t <= 900 ->
  mag bias (Prim2SF (Number a)) <= mag bias (Prim2SF (Number b)).
Proof.
  intros [Ha Hab] Hb Ht.
  destruct (Number_positive a t ltac:(lia) Ht) as (_ & -> & _).
  destruct (Number_positive b t ltac:(lia) Ht) as (_ & -> & _).
  assert (P : 0 < 2 ^ bias) by (apply Z.pow_pos_nonneg; unfold bias; lia).
  apply nearest_mono. nia.
Qed.

(** The sum of two positive numbers. *)
Lemma SFadd_rounded (x y : spec_float) :
  SpecFloat.valid_binary prec emax x = true ->
  SpecFloat.valid_binary prec emax y = true ->
  positiveNumber x -> positiveNumber y ->
  rounded (mag bias x + mag bias y) (SFadd prec emax x y)
  /\ signed false (SFadd prec emax x y).
Proof.
  intros Vx Vy Px Py.
  destruct x as [| | |[] mx ex]; try contradiction.
  destruct y as [| | |[] my ey]; try contradiction.
  assert (Hb : bias = 2200) by reflexivity.
  pose proof (valid_finite _ _ _ Vx) as [Ex _].
  pose proof (valid_finite _ _ _ Vy) as [Ey _].
  cbn [SFadd mag]. set (ez := Z.min ex ey).
  pose proof (shl_align_scaled mx ex ez) as [_ HX].
  pose proof (shl_align_scaled my ey ez) as [_ HY].
  replace (Z.min ex ez) with ez in HX by lia.
  replace (Z.min ey ez) with ez in HY by lia.
  cbn [cond_Zopp].
  set (a := fst (shl_align mx ex ez)) in *.
  set (b := fst (shl_align my ey ez)) in *.
  change (Z.pos a + Z.pos b) with (Z.pos (a + b)).
  cbn [binary_normalize].
  replace (Z.pos mx * 2 ^ (ex + bias) + Z.pos my * 2 ^ (ey + bias))
    with (scaled (Z.pos (a + b)) ez).
  - apply binary_round_rounded. lia.
  - unfold scaled. rewrite Pos2Z.inj_add, HX, HY.
    rewrite Z.mul_add_distr_r, <- !Z.mul_assoc, <- !Z.pow_add_r by lia.
    do 2 f_equal; f_equal; lia.
Qed.

(** *** Quotients of doubles against powers of two *)

Lemma ratio_nonneg (x y : float) :
  positiveNumber (Prim2SF x) -> positiveNumber (Prim2SF y) ->
  nonneg (Prim2SF (x / y)).
Proof.
  intros Px Py.
  pose proof (FloatAxioms.div_spec x y) as D. unfold SF64div in D. rewrite D.
  destruct (Prim2SF x) as [| | |[] mx ex]; try contradiction.
  destruct (Prim2SF y) as [| | |[] my ey]; try contradiction.
  pose proof (SFdiv_finite_signed false false mx my ex ey) as S.
  destruct (SFdiv _ _ _ _); simpl in S |- *; tauto.
Qed.

Section Ratio.

Variables (x y : float) (hx hy : Z).
Hypothesis Px : positiveNumber (Prim2SF x).
Hypothesis Py : positiveNumber (Prim2SF y).
Hypothesis Hhx : 0 <= hx.
Hypothesis Hhy : 0 <= hy.
Hypothesis Hk : -1074 <= hy - hx <= 900.

Lemma ratio_upper :
  mag bias (Prim2SF x) * 2 ^ hx <= mag bias (Prim2SF y) * 2 ^ hy ->
  isFinite (Prim2SF (x / y)) = true
  /\ mag bias (Prim2SF (x / y)) <= 2 ^ (hy - hx + bias).
Proof.
  intros H.
  pose proof (FloatAxioms.Prim2SF_valid x) as Vx.
  pose proof (FloatAxioms.Prim2SF_valid y) as Vy.
  pose proof (FloatAxioms.div_spec x y) as D. unfold SF64div in D. rewrite D.
  destruct (Prim2SF x) as [| | |[] mx ex]; try contradiction.
  destruct (Prim2SF y) as [| | |[] my ey]; try contradiction.
  pose proof (valid_finite _ _ _ Vx) as [Ex _].
  pose proof (valid_finite _ _ _ Vy) as [Ey _].
  assert (Hh : half = 1100) by reflexivity.
  assert (Hb : bias = 2200) by reflexivity.
  apply (SFdiv_upper false false mx my ex ey hx hy Vx Vy Hhx Hhy Hk).
  cbn [mag] in H. rewrite <- !Z.mul_assoc, <- !Z.pow_add_r in H by lia.
  replace (ex + half + hx) with ((ex + bias + hx) + (half - bias)) by lia.
  replace (ey + half + hy) with ((ey + bias + hy) + (half - bias)) by lia.
  apply pow2_le_shift; try lia; exact H.
Qed.

Lemma ratio_lower :
  mag bias (Prim2SF y) * 2 ^ hy <= mag bias (Prim2SF x) * 2 ^ hx ->
  isZero (Prim2SF (x / y)) = false
  /\ 2 ^ (hy - hx + bias) <= mag bias (Prim2SF (x / y)).
Proof.
  intros H.
  pose proof (FloatAxioms.Prim2SF_valid x) as Vx.
  pose proof (FloatAxioms.Prim2SF_valid y) as Vy.
  pose proof (FloatAxioms.div_spec x y) as D. unfold SF64div in D. rewrite D.
  destruct (Prim2SF x) as [| | |[] mx ex]; try contradiction.
  destruct (Prim2SF y) as [| | |[] my ey]; try contradiction.
  pose proof (valid_finite _ _ _ Vx) as [Ex _].
  pose proof (valid_finite _ _ _ Vy) as [Ey _].
  assert (Hh : half = 1100) by reflexivity.
  assert (Hb : bias = 2200) by reflexivity.
  apply (SFdiv_lower false false mx my ex ey hx hy Vx Vy Hhx Hhy Hk).
  cbn [mag] in H. rewrite <- !Z.mul_assoc, <- !Z.pow_add_r in H by lia.
  replace (ex + half + hx) with ((ex + bias + hx) + (half - bias)) by lia.
  replace (ey + half + hy) with ((ey + bias + hy) + (half - bias)) by lia.
  apply pow2_le_shift; try lia; exact H.
Qed.

End Ratio.

(** *** Constants and special cases *)

Lemma mag_half : mag bias (Prim2SF 0.5) = 2 ^ (bias - 1).
Proof. vm_compute. reflexivity. Qed.

Lemma mag_unit : mag bias (Prim2SF 1) = 2 ^ bias.
Proof. vm_compute. reflexivity. Qed.

Lemma nearest_pow2 (t : Z) : 0 <= t -> nearest (2 ^ (t + bias)) = 2 ^ (t + bias).
Proof.
  intros Ht. rewrite <- (Z.mul_1_l (2 ^ (t + bias))).
  apply nearest_grid; [split; lia | unfold bias; lia].
Qed.

(** The quotient of zero by a positive number. *)
Lemma zero_ratio (x y : float) :
  Prim2SF x = S754_zero false -> positiveNumber (Prim2SF y) ->
  (x / y)%float = 0%float.
Proof.
  intros Hx Py. apply Prim2SF_inj.
  pose proof (FloatAxioms.div_spec x y) as D. unfold SF64div in D.
  rewrite D, Hx.
  destruct (Prim2SF y) as [| | |[] my ey]; try contradiction. reflexivity.
Qed.

Lemma zero_sum (x y : float) :
  positiveNumber (Prim2SF x) -> Prim2SF y = S754_zero false ->
  Prim2SF (x + y) = Prim2SF x.
Proof.
  intros Px Hy.
  pose proof (FloatAxioms.add_spec x y) as D. unfold SF64add in D.
  rewrite D, Hy.
  destruct (Prim2SF x) as [| | |[] mx ex]; try contradiction. reflexivity.
Qed.

(** The sum of two positive doubles that stays in range. *)
Lemma positive_sum (x y : float) (t : Z) :
  positiveNumber (Prim2SF x) -> positiveNumber (Prim2SF y) ->
  0 <= t <= 900 ->
  mag bias (Prim2SF x) + mag bias (Prim2SF y) <= 2 ^ (t + bias) ->
  positiveNumber (Prim2SF (x + y))
  /\ mag bias (Prim2SF (x + y))
     = nearest (mag bias (Prim2SF x) + mag bias (Prim2SF y)).
Proof.
  intros Px Py Ht H. assert (Hb : bias = 2200) by reflexivity.
  pose proof (FloatAxioms.add_spec x y) as D. unfold SF64add in D.
  rewrite D.
  destruct (SFadd_rounded (Prim2SF x) (Prim2SF y)
              (FloatAxioms.Prim2SF_valid x) (FloatAxioms.Prim2SF_valid y)
              Px Py) as [R S].
  set (n := mag bias (Prim2SF x) + mag bias (Prim2SF y)) in *.
  assert (Hx : 0 < mag bias (Prim2SF x)).
  { destruct (Prim2SF x) as [| | |[] mx ex] eqn:E; try contradiction.
    pose proof (FloatAxioms.Prim2SF_valid x) as V. rewrite E in V.
    apply valid_finite in V. apply mag_finite_pos. lia. }
  pose proof (mag_nonneg bias (Prim2SF y)) as Hy.
  assert (Hi : nearest n <= 2 ^ (t + bias)).
  { rewrite <- (nearest_pow2 t) by lia. apply nearest_mono. lia. }
  assert (Lo : 0 < nearest n).
  { destruct (Prim2SF x) as [| | |[] mx ex] eqn:E; try contradiction.
    pose proof (FloatAxioms.Prim2SF_valid x) as V. rewrite E in V.
    pose proof (mantissa_bound _ _ _ V) as [Mb _].
    apply valid_finite in V.
    assert (G : nearest (mag bias (S754_finite false mx ex))
                = mag bias (S754_finite false mx ex)).
    { cbn [mag]. apply nearest_grid; lia. }
    assert (nearest (mag bias (S754_finite false mx ex)) <= nearest n)
      by (apply nearest_mono; lia).
    lia. }
  assert (Top : 2 ^ (t + bias) < scaled 1 972).
  { unfold scaled. rewrite Z.mul_1_l. apply pow2_lt. lia. }
  destruct (SFadd _ _ _ _) as [s|s| |s m e]; simpl in R, S;
    cbn [positiveNumber mag].
  - lia.
  - lia.
  - contradiction.
  - subst s. destruct R as [R _]. split; [exact I|]. exact R.
Qed.

(** A double is the nearest double to itself. *)
Lemma mag_on_grid (x : float) :
  positiveNumber (Prim2SF x) ->
  nearest (mag bias (Prim2SF x)) = mag bias (Prim2SF x)
  /\ nearest (2 * mag bias (Prim2SF x)) = 2 * mag bias (Prim2SF x).
Proof.
  intros Px. assert (Hb : bias = 2200) by reflexivity.
  pose proof (FloatAxioms.Prim2SF_valid x) as V.
  destruct (Prim2SF x) as [| | |[] mx ex]; try contradiction.
  pose proof (mantissa_bound _ _ _ V) as [Mb _].
  apply valid_finite in V. cbn [mag]. split.
  - apply nearest_grid; lia.
  - replace (2 * (Z.pos mx * 2 ^ (ex + bias)))
      with (Z.pos mx * 2 ^ (ex + bias + 1))
      by (rewrite (Z.pow_add_r 2 (ex + bias) 1) by lia;
          change (2 ^ 1) with 2; ring).
    apply nearest_grid; lia.
Qed.

Lemma eqb_zero_false (x : float) :
  nonneg (Prim2SF x) -> isZero (Prim2SF x) = false ->
  (x =? 0)%float = false.
Proof.
  intros N Z0. rewrite FloatAxioms.eqb_spec, SF_zero.
  destruct (Prim2SF x) as [s|s| |s m e]; simpl in N, Z0;
    try discriminate; try contradiction; subst; reflexivity.
Qed.

Lemma ltb_infinity (x : float) (t : Z) :
  nonneg (Prim2SF x) -> 0 <= t < 1024 ->
  mag bias (Prim2SF x) <= 2 ^ (t + bias) ->
  (x <? infinity)%float = true.
Proof.
  intros N Ht H. assert (Hb : bias = 2200) by reflexivity.
  rewrite (ltb_mag bias) by first [exact N | reflexivity | lia].
  apply Z.ltb_lt. rewrite SF_infinity. cbn [mag].
  eapply Z.le_lt_trans; [exact H|]. apply pow2_lt. lia.
Qed.

End RatioFacts.

(** ** Position sizing *)

Module KellySpec.
Import KellyDefs.
Import Risk.

Lemma Math_max_nonneg x : (0 <= Math_max 0 x)%Q.
Proof.
  unfold Math_max. destruct (num_lt 0 x) eqn:E.
  - apply num_lt_iff in E. lra.
  - lra.
Qed.

Lemma Math_max_nonpos x : (x <= 0)%Q -> Math_max 0 x = 0%Q.
Proof.
  intros H. unfold Math_max. destruct (num_lt 0 x) eqn:E; [|reflexivity].
  apply num_lt_iff in E. lra.
Qed.

Lemma Math_min_bounds a c :
  (0 <= a)%Q -> (0 <= c)%Q -> (0 <= Math_min a c <= c)%Q.
Proof.
  intros Ha Hc. unfold Math_min. destruct (num_lt c a) eqn:E.
  - lra.
  - apply num_lt_false_iff in E. lra.
Qed.

Lemma Math_min_zero c : (0 <= c)%Q -> Math_min 0 c = 0%Q.
Proof.
  intros Hc. unfold Math_min. destruct (num_lt c 0) eqn:E; [|reflexivity].
  apply num_lt_iff in E. lra.
Qed.

(** Scaling a non-negative bankroll by a fraction in [[0, c]], the way
    every sizer of the module does it. *)
Lemma scaled_bounds (b : Z) (f c : Q) :
  0 <= b -> (0 <= f <= c)%Q ->
  0 <= Z.quot (b * BigInt_floor (f * 10000)) 10000
  /\ (inject_Z (Z.quot (b * BigInt_floor (f * 10000)) 10000)
      <= inject_Z b * c)%Q.
Proof.
  intros Hb [Hf Hfc]. unfold BigInt_floor.
  set (m := Qfloor (f * 10000)).
  assert (Hm0 : 0 <= m).
  { change 0 with (Qfloor 0). apply Qfloor_resp_le. lra. }
  assert (Hm : (inject_Z m <= f * 10000)%Q) by apply Qfloor_le.
  assert (Hbm : 0 <= b * m) by lia.
  rewrite Z.quot_div_nonneg by lia.
  split.
  - apply Z.div_pos; lia.
  - assert (Hq : (b * m / 10000) * 10000 <= b * m).
    { rewrite Z.mul_comm. apply Z.mul_div_le. lia. }
    assert (HqQ : (inject_Z (b * m / 10000) * 10000 <= inject_Z b * inject_Z m)%Q).
    { rewrite <- inject_Z_mult.
      change 10000%Q with (inject_Z 10000). rewrite <- inject_Z_mult.
      rewrite <- Zle_Qle. exact Hq. }
    assert (HbQ : (0 <= inject_Z b)%Q).
    { change 0%Q with (inject_Z 0). rewrite <- Zle_Qle. exact Hb. }
    nra.
Qed.

(** The sample of the test suite: 10000 at p = 0.6, r = 1.5, quarter
    Kelly gives 833. *)
Example kelly_sample : calculateKellyCriterion sampleParams = Return 833.
Proof. reflexivity. Qed.

(** C7.  A win probability outside the open interval (0,1), or a payoff
    ratio that is not positive, makes [calculateKellyCriterion] throw
    its domain error; no value is returned. *)
Theorem kelly_domain_error (params : PositionSizingParams) :
  (winProbability params <= 0)%Q \/ (1 <= winProbability params)%Q
  \/ (winLossRatio params <= 0)%Q ->
  exists msg, calculateKellyCriterion params = Throw (Error msg).
Proof.
  intros H. unfold calculateKellyCriterion.
  destruct (num_le (winProbability params) 0) eqn:G1; cbn [orb];
    [eexists; reflexivity|].
  destruct (num_ge (winProbability params) 1) eqn:G2;
    [eexists; reflexivity|].
  destruct (num_le (winLossRatio params) 0) eqn:G3;
    [eexists; reflexivity|].
  apply num_le_false_iff in G1, G2, G3.
  exfalso. destruct H as [H | [H | H]]; lra.
Qed.

Lemma kelly_domain_error_witness :
  exists msg, calculateKellyCriterion certainWin = Throw (Error msg).
Proof.
  apply (kelly_domain_error certainWin).
  right. left. vm_compute. discriminate.
Defined.

End KellySpec.

(** ** Kelly sizing on doubles *)

Module KellyDoubleSpec.
Import RoundingDefs OrderDefs ShapeDefs Double DoubleDefs DoubleFacts.
Import SizingSamples.
#[local] Set Warnings "-inexact-float".




(** The favourable sample: [0.2 * 0.25] falls just below 0.05 in
    doubles, and the floor is 499 basis points, not 500. *)
Example kelly_sample_on_doubles :
  calculateKellyCriterion favourable = Return 499.
Proof. vm_compute. reflexivity. Qed.

(** With an infinite payoff ratio the quotient is [Infinity / Infinity]. *)
Example infinite_ratio_throws :
  calculateKellyCriterion
    {| bankroll := 10000; winProbability := 0.5; winLossRatio := infinity;
       kellyFraction := None; maxPositionPercent := None |}
  = Throw (notAnInteger "NaN").
Proof. vm_compute. reflexivity. Qed.

End KellyDoubleSpec.

(** ** Stop-loss tracker *)

Module StopLossSpec.
Import StopLossDefs.
Import Risk.

(** The percentages are multiplied by 100 and divided by 10000, so the
    levels sit at 0.05% and 0.15% of the entry price. *)
Example levels_of_sample :
  calculateStopLossPrice (new_StopLossManager trailingParams) = 1000
  /\ calculateTakeProfitPrice (new_StopLossManager trailingParams) = 1001.
Proof. split; reflexivity. Qed.

(** C3, evaluated on the code.  940 gives STOP_LOSS and 1151 gives
    TAKE_PROFIT; but 1200 followed by 1079 gives TAKE_PROFIT twice, not
    TRAILING_STOP, and 1050 on a fresh tracker gives TAKE_PROFIT. *)
Theorem stop_loss_samples_on_code :
  fst (updatePrice (new_StopLossManager plainParams) 940)
    = exitWith "STOP_LOSS"
  /\ fst (updatePrice (new_StopLossManager plainParams) 1151)
    = exitWith "TAKE_PROFIT"
  /\ fst (updatePrices (new_StopLossManager trailingParams) [1200; 1079])
    = [exitWith "TAKE_PROFIT"; exitWith "TAKE_PROFIT"]
  /\ fst (updatePrice (new_StopLossManager plainParams) 1050)
    = exitWith "TAKE_PROFIT"
  /\ fst (updatePrice (new_StopLossManager trailingParams) 1050)
    = exitWith "TAKE_PROFIT".
Proof. repeat split; reflexivity. Qed.

(** C4 fails as stated: a tracker that has signalled an exit signals it
    again on the next update. *)
Lemma triggered_not_terminal :
  let m := new_StopLossManager plainParams in
  shouldExit (fst (updatePrice m 940)) = true
  /\ shouldExit (fst (updatePrice (snd (updatePrice m 940)) 940)) = true
  /\ isActive (snd (updatePrice m 940)) = true.
Proof. repeat split; reflexivity. Qed.

Lemma updatePrice_inactive (m : StopLossManager) (p : Z) :
  isActive m = false -> updatePrice m p = (noExit, m).
Proof. intros H. unfold updatePrice. rewrite H. reflexivity. Qed.

Lemma updatePrices_inactive (m : StopLossManager) (prices : list Z) :
  isActive m = false ->
  updatePrices m prices = (repeat noExit (length prices), m).
Proof.
  intros H. induction prices as [|p ps IH]; simpl.
  - reflexivity.
  - rewrite (updatePrice_inactive m p H), IH. reflexivity.
Qed.

Lemma updatePrice_active (m : StopLossManager) (p : Z) :
  isActive m = true ->
  updatePrice m p = (signalAt (track m p) p, track m p).
Proof.
  intros Ha. destruct m as [ps hi lo act]; simpl in Ha; subst act.
  unfold updatePrice; simpl.
  destruct (Z.ltb_spec hi p) as [H1|H1]; simpl;
    destruct (Z.ltb_spec p lo) as [H2|H2]; simpl;
    match goal with
    | |- context [calculateStopLossPrice ?M] =>
        assert (ET : track {| params := ps; highestPrice := hi;
                              lowestPrice := lo; isActive := true |} p = M)
          by (unfold track; simpl; f_equal; lia);
        rewrite ET; clear ET
    end;
    unfold signalAt; simpl;
    repeat match goal with
           | |- context [if ?c then _ else _] => destruct c; simpl
           end; reflexivity.
Qed.

Lemma track_twice (m : StopLossManager) (p : Z) :
  track (track m p) p = track m p.
Proof. unfold track; simpl. f_equal; lia. Qed.

Lemma updatePrice_keeps_active (m : StopLossManager) (p : Z) :
  isActive (snd (updatePrice m p)) = isActive m.
Proof.
  destruct (isActive m) eqn:Ha.
  - rewrite (updatePrice_active m p Ha). exact Ha.
  - rewrite (updatePrice_inactive m p Ha). exact Ha.
Qed.

Lemma updatePrice_repeat (m : StopLossManager) (p : Z) :
  updatePrice (snd (updatePrice m p)) p = updatePrice m p.
Proof.
  destruct (isActive m) eqn:Ha.
  - rewrite (updatePrice_active m p Ha). simpl.
    rewrite (updatePrice_active (track m p) p Ha).
    rewrite track_twice. reflexivity.
  - rewrite (updatePrice_inactive m p Ha). simpl.
    apply updatePrice_inactive. exact Ha.
Qed.

(** C4, amended.  A tracker becomes inert through [deactivate] only:
    after it every update returns "no exit" and leaves the tracker
    unchanged.  [updatePrice] never changes the active flag, and an
    update repeated at the same price returns the same signal again. *)
Theorem deactivated_is_terminal :
  (forall (m : StopLossManager) (prices : list Z),
      updatePrices (deactivate m) prices
      = (repeat noExit (length prices), deactivate m))
  /\ (forall (m : StopLossManager) (p : Z),
         isActive (snd (updatePrice m p)) = isActive m)
  /\ (forall (m : StopLossManager) (p : Z),
         updatePrice (snd (updatePrice m p)) p = updatePrice m p).
Proof.
  split; [|split].
  - intros m prices. apply updatePrices_inactive. reflexivity.
  - apply updatePrice_keeps_active.
  - apply updatePrice_repeat.
Qed.

End StopLossSpec.

(** ** Drawdown protector *)

Module DrawdownSpec.
Import DrawdownDefs.
Import Risk.

(** C9 fails as stated: [resetPeak] after a loss lowers the peak. *)
Lemma resetPeak_lowers_peak :
  let d := new_DrawdownProtector sampleConfig 10000 0 in
  let d1 := applyOp d (OpUpdateValue 1000 9500) in
  peak d1 = 10000 /\ peak (applyOp d1 OpResetPeak) = 9500.
Proof. split; reflexivity. Qed.

Lemma updateValue_peak (d : DrawdownProtector) (now value : Z) :
  peak (snd (updateValue d now value)) = Z.max (peak d) value.
Proof.
  destruct d as [c [pk cur daily reset cool cend cnt]].
  unfold updateValue, peak, triggerCooldown. simpl.
  destruct (Z.ltb_spec pk value) as [H|H]; simpl;
    repeat match goal with
           | |- context [if ?b then _ else _] => destruct b; simpl
           end; lia.
Qed.

Lemma applyOp_peak (d : DrawdownProtector) (op : DrawdownOp) :
  isReset op = false -> peak d <= peak (applyOp d op).
Proof.
  destruct op as [now v| |]; simpl; intros H.
  - rewrite updateValue_peak. lia.
  - lia.
  - discriminate.
Qed.

(** C9, amended.  Along every sequence of [updateValue] and [getState]
    calls the peak never decreases; [resetPeak] sets the peak to the
    current equity. *)
Theorem peak_monotone_without_reset
  (d : DrawdownProtector) (ops : list DrawdownOp) :
  forallb (fun op => negb (isReset op)) ops = true ->
  peak d <= peak (run ops d)
  /\ peak (resetPeak (run ops d)) = currentValue (dd_state (run ops d)).
Proof.
  intros H. split; [|reflexivity].
  revert d. unfold run. induction ops as [|op ops IH]; intros d; simpl.
  - lia.
  - simpl in H. apply andb_true_iff in H as [Hop Hops].
    apply negb_true_iff in Hop.
    specialize (IH Hops (applyOp d op)).
    pose proof (applyOp_peak d op Hop). lia.
Qed.

Lemma peak_monotone_without_reset_witness :
  let d := new_DrawdownProtector sampleConfig 10000 0 in
  let ops := [OpUpdateValue 10 11000; OpGetState; OpUpdateValue 20 9800] in
  peak d <= peak (run ops d)
  /\ peak (resetPeak (run ops d)) = currentValue (dd_state (run ops d)).
Proof.
  apply (peak_monotone_without_reset
           (new_DrawdownProtector sampleConfig 10000 0)
           [OpUpdateValue 10 11000; OpGetState; OpUpdateValue 20 9800]).
  reflexivity.
Defined.

End DrawdownSpec.

(** ** Construction of an agent *)

Module ConstructionSpec.
Import Agent.

(** The validation of the balancer: an allocation set is accepted
    exactly when its total is within 0.01 of 1. *)
Lemma balancer_validation (allocs : list (string * Q)) (t s : option Q) :
  (exists b, Risk.new_PortfolioBalancer allocs t s = Return b)
  <-> (Math_abs (Risk.allocationTotal allocs - 1) <= 1 # 100)%Q.
Proof.
  unfold Risk.new_PortfolioBalancer, num_gt.
  destruct (num_lt _ _) eqn:E.
  - apply num_lt_iff in E. split.
    + intros [b Hb]. discriminate.
    + intros H. lra.
  - apply num_lt_false_iff in E. split; [intros _; exact E|].
    intros _. eexists. reflexivity.
Qed.

(** C2.  Constructing a [BaseAgent] throws "Target allocations must sum
    to 1.0" for every configuration, wallet and logger, and so does
    constructing a [ConservativeBot]: the empty allocation map handed to
    the balancer sums to 0, which is further than 0.01 from 1. *)
Theorem BaseAgent_constructor_throws :
  (forall (config : AgentConfig) (wallet : Wallet)
          (auditLogger : Audit.AuditLogger) (now : Z),
      new_BaseAgent config wallet auditLogger now
      = Throw (Error "Target allocations must sum to 1.0"))
  /\ (forall (cfg : ConservativeConfig) (now : Z),
         new_ConservativeBot cfg now
         = Throw (Error "Target allocations must sum to 1.0"))
  /\ Risk.allocationTotal [] = 0%Q
  /\ (1 # 100 < Math_abs (Risk.allocationTotal [] - 1))%Q.
Proof.
  split; [|split; [|split]].
  - intros. reflexivity.
  - intros. reflexivity.
  - reflexivity.
  - reflexivity.
Qed.

End ConstructionSpec.

(** ** Whale detector *)

Module WhaleSpec.
Import WhaleDefs.
Import Security.

(** C5 fails as stated: for an order of 2e18 against liquidity 1e19 the
    alert returned has severity HIGH although a CRITICAL alert applies. *)
Lemma returned_alert_not_most_severe :
  exists a b,
    returned detector 1700000000000 (orderOf 2000000000000000000)
             10000000000000000000 = Some a
    /\ In b (applicableAlerts detector 1700000000000
               (orderOf 2000000000000000000) 10000000000000000000)
    /\ severity a = HIGH /\ severity b = CRITICAL
    /\ (severityRank (severity a) < severityRank (severity b))%nat.
Proof.
  do 2 eexists. split; [reflexivity|]. split.
  - right. left. reflexivity.
  - repeat split. simpl. lia.
Qed.

(** The second sample of the specification on the code: an order equal
    to the threshold passes the size check, so WHALE_ORDER comes first;
    its impact is one half. *)
Example order_at_threshold :
  option_map alertType
    (returned detector 1700000000000 (orderOf 1000000000000000000)
              1000000000000000000) = Some WHALE_ORDER
  /\ (calculatePriceImpact 1000000000000000000 1000000000000000000 == 1 # 2)%Q.
Proof. split; reflexivity. Qed.

(** C5, amended.  [analyzeOrder] returns at most one alert, the first
    that applies in the fixed order of the checks: size, price impact,
    share of the 24h volume.  With threshold 1e18, 2e18 against 1e19
    gives WHALE_ORDER and 1e16 against 1e19 gives no alert. *)
Theorem first_applicable_alert :
  (forall (d : WhaleDetector) (now : Z) (o : Order) (liq : Z),
      option_map alertType (returned d now o liq)
      = if volumeThreshold d <=? amount o then Some WHALE_ORDER
        else if num_ge (calculatePriceImpact (amount o) liq)
                       (priceImpactThreshold d) then Some PRICE_IMPACT
        else if (0 <? default 0 (volume24h d !! marketId o))
                && num_gt (Number (amount o)
                           / Number (default 0 (volume24h d !! marketId o)))
                          (1 # 10)
             then Some WHALE_TRADE
             else None)
  /\ option_map alertType
       (returned detector 1700000000000 (orderOf 2000000000000000000)
                 10000000000000000000) = Some WHALE_ORDER
  /\ returned detector 1700000000000 (orderOf 10000000000000000)
              10000000000000000000 = None.
Proof.
  split; [|split; reflexivity].
  intros d now o liq.
  unfold returned, analyzeOrder, applicableAlerts,
    sizeAlert, impactAlert, volumeAlert. simpl.
  destruct (volumeThreshold d <=? amount o); simpl; [reflexivity|].
  destruct (num_ge _ _); simpl; [reflexivity|].
  destruct (0 <? _); simpl; [|reflexivity].
  destruct (num_gt _ _); reflexivity.
Qed.

End WhaleSpec.

(** ** Audit ledger *)

Module LedgerSpec.
Import LedgerDefs.
Import Json Audit.

(** Strings: what the proofs need about [append]. *)
#[local] Arguments String.append !s1 s2 : simpl nomatch.

Lemma length_append (a b : string) :
  String.length (a ++ b) = (String.length a + String.length b)%nat.
Proof. induction a as [|c a IH]; simpl; [reflexivity | now rewrite IH]. Qed.

Lemma append_assoc (a b c : string) : (a ++ b) ++ c = a ++ (b ++ c).
Proof. induction a as [|x a IH]; simpl; [reflexivity | now rewrite IH]. Qed.

Lemma append_cancel_l (s a b : string) : s ++ a = s ++ b -> a = b.
Proof.
  induction s as [|c s IH]; simpl; intros H; [exact H|].
  injection H as H. auto.
Qed.

Lemma append_cancel_r (s a b : string) : a ++ s = b ++ s -> a = b.
Proof.
  revert b. induction a as [|c a IH]; intros [|c' b] H; simpl in H.
  - reflexivity.
  - apply (f_equal String.length) in H. simpl in H.
    rewrite length_append in H. lia.
  - apply (f_equal String.length) in H. simpl in H.
    rewrite length_append in H. lia.
  - injection H as -> H. f_equal. auto.
Qed.

Lemma dataMember_inj (t t' : option string) :
  dataMember t = dataMember t' -> t = t'.
Proof.
  destruct t as [x|], t' as [x'|]; unfold dataMember; intros H.
  - apply append_cancel_r in H. apply append_cancel_l in H.
    apply (append_cancel_l ":") in H. now subst.
  - apply (f_equal String.length) in H. rewrite !length_append in H.
    simpl in H. lia.
  - apply (f_equal String.length) in H. rewrite !length_append in H.
    simpl in H. lia.
  - reflexivity.
Qed.

Lemma entryText_inj (numberToString : Q -> string)
  (ty ag : string) (t t' : option string) (ts : Z) :
  entryText numberToString ty ag t ts = entryText numberToString ty ag t' ts ->
  t = t'.
Proof.
  unfold entryText. intros H.
  apply append_cancel_l in H. apply append_cancel_r in H.
  now apply dataMember_inj.
Qed.

Section Verify.

Variable numberToString : Q -> string.
Variable keccak256 : string -> string.
Variable signMessage : string -> string -> string.
Variable chainLogEntry : string -> option string -> Z -> string -> bool.

Local Abbreviation canonical := (canonical numberToString).
Local Abbreviation generateHash := (generateHash numberToString keccak256).
Local Abbreviation log :=
  (log numberToString keccak256 signMessage chainLogEntry).
Local Abbreviation verifyEntry := (verifyEntry numberToString keccak256).

Lemma canonical_text (ty ag : string) (d : JSValue) (ts : Z)
  (t : option string) :
  serialize numberToString d = Return t ->
  canonical ty ag d ts = Return (entryText numberToString ty ag t ts).
Proof.
  intros H. unfold Audit.canonical, stringify, hashedFields.
  cbn [serialize bind]. rewrite H. cbn [bind default join].
  unfold entryText, textBefore, dataMember, textAfter.
  destruct t as [x|]; cbn [join]; rewrite ?append_assoc; reflexivity.
Qed.

Lemma canonical_throw (ty ag : string) (d : JSValue) (ts : Z) (e : JSError) :
  serialize numberToString d = Throw e ->
  canonical ty ag d ts = Throw e.
Proof.
  intros H. unfold Audit.canonical, stringify, hashedFields. simpl.
  rewrite H. reflexivity.
Qed.

(** [log] returns exactly when the payload can be serialised. *)
Lemma canonical_cases (ty ag : string) (d : JSValue) (ts : Z) :
  (exists t, serialize numberToString d = Return t
             /\ canonical ty ag d ts
                = Return (entryText numberToString ty ag t ts))
  \/ (exists e, serialize numberToString d = Throw e
                /\ canonical ty ag d ts = Throw e).
Proof.
  destruct (serialize numberToString d) as [t|e] eqn:E.
  - left. exists t. split; [reflexivity|]. now apply canonical_text.
  - right. exists e. split; [reflexivity|]. now apply canonical_throw.
Qed.

Lemma flush_entries (l : AuditLogger) (now : Z) :
  entries (flush chainLogEntry l now) = entries l.
Proof.
  unfold flush. destruct (contract l), (mode l); try reflexivity;
    destruct (forallb _ _); reflexivity.
Qed.

(** What a successful [log] does. *)
Lemma log_returns (l l' : AuditLogger) (now : Z) (rq : LogRequest)
  (e : AuditEntry) :
  log l now rq = Return (e, l') ->
  exists text,
    canonical (type e) (agent e) (data e) (timestamp e) = Return text
    /\ hash e = Some (keccak256 text)
    /\ entries l' = (entries l ++ [e])%list
    /\ type e = rq_type rq /\ agent e = rq_agent rq
    /\ data e = rq_data rq.
Proof.
  unfold Audit.log, Audit.generateHash. intros H.
  destruct (Audit.canonical _ _ _ _ _) as [text|err] eqn:C; simpl in H;
    [|discriminate].
  injection H as He Hl. exists text. subst e. simpl.
  repeat split; try reflexivity; try exact C.
  subst l'. destruct (shouldFlush _ _); [rewrite flush_entries|]; reflexivity.
Qed.

(** C10.  Verification is a round trip.  For an entry appended by
    [log], [verifyEntry] returns true on the entry as stored; and,
    the hash being injective, it returns false on the entry with its
    payload replaced by one whose serialisation differs. *)
Theorem verify_round_trip
  (l l' : AuditLogger) (now : Z) (rq : LogRequest) (e : AuditEntry) :
  (forall a b, keccak256 a = keccak256 b -> a = b) ->
  log l now rq = Return (e, l') ->
  last (entries l') = Some e
  /\ verifyEntry l' e = Return true
  /\ (forall (d' : JSValue) (t t' : option string),
         serialize numberToString (data e) = Return t ->
         serialize numberToString d' = Return t' ->
         t <> t' ->
         verifyEntry l' (withData e d') = Return false).
Proof.
  intros Hinj Hlog.
  destruct (log_returns _ _ _ _ _ Hlog)
    as (text & Hcanon & Hhash & Hentries & _).
  split; [|split].
  - rewrite Hentries. apply last_snoc.
  - unfold Audit.verifyEntry, Audit.generateHash.
    rewrite Hcanon. simpl. rewrite Hhash.
    rewrite bool_decide_eq_true_2; reflexivity.
  - intros d' t t' Ht Ht' Hne.
    unfold Audit.verifyEntry, Audit.generateHash. simpl.
    rewrite (canonical_text _ _ _ _ _ Ht'). simpl.
    rewrite (canonical_text _ _ _ _ _ Ht) in Hcanon.
    injection Hcanon as <-.
    rewrite Hhash. rewrite bool_decide_eq_false_2; [reflexivity|].
    intros Heq. injection Heq as Heq. apply Hinj in Heq.
    apply entryText_inj in Heq. congruence.
Qed.

(** [log] throws exactly when the payload cannot be serialised. *)
Lemma log_throws (l : AuditLogger) (now : Z) (rq : LogRequest) (err : JSError) :
  log l now rq = Throw err ->
  serialize numberToString (rq_data rq) = Throw err.
Proof.
  unfold Audit.log, Audit.generateHash. intros H.
  destruct (canonical_cases (rq_type rq) (rq_agent rq) (rq_data rq)
              (if rq_timestamp rq =? 0 then now else rq_timestamp rq))
    as [(t & _ & C) | (e & S & C)]; rewrite C in H; simpl in H.
  - discriminate.
  - injection H as <-. exact S.
Qed.

Lemma log_total (l : AuditLogger) (now : Z) (rq : LogRequest)
  (t : option string) :
  serialize numberToString (rq_data rq) = Return t ->
  exists e l', log l now rq = Return (e, l').
Proof.
  intros S. unfold Audit.log, Audit.generateHash.
  rewrite (canonical_text _ _ _ _ _ S). simpl. eauto.
Qed.

End Verify.

Lemma verify_round_trip_witness :
  last (entries testLogger) = Some testEntry
  /\ verifyEntry printNumber identityHash testLogger testEntry = Return true
  /\ (forall (d' : JSValue) (t t' : option string),
         serialize printNumber (data testEntry) = Return t ->
         serialize printNumber d' = Return t' ->
         t <> t' ->
         verifyEntry printNumber identityHash testLogger
                     (withData testEntry d') = Return false).
Proof.
  apply (verify_round_trip printNumber identityHash concatSign chainAccepts
           (new_localLogger 1700000000000) testLogger 1700000000000
           testRequest testEntry).
  - intros a b H. exact H.
  - reflexivity.
Defined.

(** The tampering of the test suite: [{ test: false }] in place of
    [{ test: true }]. *)
Example tampered_entry_rejected :
  verifyEntry printNumber identityHash testLogger
    (withData testEntry (JObject [("test", JBool false)])) = Return false.
Proof. reflexivity. Qed.

(** A payload holding a bigint cannot be logged: [JSON.stringify]
    throws. *)
Example bigint_payload_throws :
  log printNumber identityHash concatSign chainAccepts
      (new_localLogger 0) 5
      {| rq_type := "TRADE_DECISION"; rq_agent := "bot";
         rq_data := JObject [("amount", JBigInt 5)]; rq_timestamp := 5 |}
  = Throw bigintError.
Proof. reflexivity. Qed.

End LedgerSpec.

(** ** The decision pipeline *)

Module PipelineSpec.
Import PipelineDefs.
Import Json Agent.

Section Pipeline.

Variable numberToString : Q -> string.
Variable keccak256 : string -> string.
Variable signMessage : string -> string -> string.
Variable chainLogEntry : string -> option string -> Z -> string -> bool.
Variable makeTradingDecision :
  MarketData -> Prediction -> Z -> Method (option TradeDecision).

Local Abbreviation logEvent :=
  (logEvent numberToString keccak256 signMessage chainLogEntry).
Local Abbreviation handleAlert :=
  (handleAlert numberToString keccak256 signMessage chainLogEntry).
Local Abbreviation validateWithRiskManagement :=
  (validateWithRiskManagement numberToString keccak256 signMessage chainLogEntry).
Local Abbreviation runGates :=
  (runGates numberToString keccak256 signMessage chainLogEntry).
Local Abbreviation decide :=
  (decide numberToString keccak256 signMessage chainLogEntry makeTradingDecision).
Local Abbreviation tryBlock :=
  (tryBlock numberToString keccak256 signMessage chainLogEntry makeTradingDecision).
Local Abbreviation catchBlock :=
  (catchBlock numberToString keccak256 signMessage chainLogEntry).
Local Abbreviation processMarketData_at :=
  (processMarketData_at numberToString keccak256 signMessage chainLogEntry
     makeTradingDecision).
Local Abbreviation processMarketData :=
  (processMarketData numberToString keccak256 signMessage chainLogEntry
     makeTradingDecision).

(** [logEvent] either appends one entry and changes nothing else, or
    throws the serialisation error and changes nothing. *)
Lemma logEvent_cases (ty : string) (d : JSValue) (now : Z) (s : BaseAgent) :
  (exists l, logEvent ty d now s = Ok tt (with_auditLogger s l)
             /\ appended s (with_auditLogger s l) ty d
             /\ exists t, serialize numberToString d = Return t)
  \/ (exists err, logEvent ty d now s = Raised err s
                  /\ serialize numberToString d = Throw err).
Proof.
  unfold Agent.logEvent.
  destruct (Audit.log _ _ _ _ _ _ _) as [[e l]|err] eqn:E.
  - left. exists l. split; [reflexivity|].
    destruct (LedgerSpec.log_returns _ _ _ _ _ _ _ _ _ E)
      as (text & Hc & _ & He & Hty & _ & Hd).
    split.
    + exists e. simpl in *. auto.
    + rewrite Hd in Hc. simpl in Hc.
      destruct (serialize numberToString d) as [t|err] eqn:S; [eauto|].
      rewrite (LedgerSpec.canonical_throw _ _ _ _ _ _ S) in Hc. discriminate.
  - right. exists err. split; [reflexivity|].
    apply (LedgerSpec.log_throws _ _ _ _ _ _ _ _ E).
Qed.

(** A serialisable payload is always logged. *)
Lemma logEvent_ok (ty : string) (d : JSValue) (now : Z) (s : BaseAgent)
  (t : option string) :
  serialize numberToString d = Return t ->
  exists l, logEvent ty d now s = Ok tt (with_auditLogger s l)
            /\ appended s (with_auditLogger s l) ty d.
Proof.
  intros S. destruct (logEvent_cases ty d now s)
    as [(l & E & A & _) | (err & _ & H)].
  - eauto.
  - congruence.
Qed.

Lemma callHandlers_state (hs : list AlertHandler) (a : Security.WhaleAlert)
  (s : BaseAgent) :
  callHandlers hs a s = Ok tt s \/ exists err, callHandlers hs a s = Raised err s.
Proof.
  induction hs as [|h hs IH]; simpl.
  - left. reflexivity.
  - destruct (h a) as [err|]; [right; eexists; reflexivity | exact IH].
Qed.

(** The gates: an abort writes its entry; passing writes nothing. *)
Lemma runGates_cases (md : MarketData) (now : Z) (s : BaseAgent) :
  match runGates md now s with
  | Ok (Some site) s1 =>
      exists ty d, siteTag site = Some ty /\ appended s s1 ty d
  | Ok None s1 => ledger s1 = ledger s
  | Raised _ s1 => ledger s1 = ledger s
  end.
Proof.
  unfold Agent.runGates, seq, this, modify.
  destruct (Risk.updateValue _ _ _) as [st dp].
  set (s0 := with_drawdownProtector s dp).
  destruct (negb (Risk.canTrade st)).
  { destruct (logEvent_cases "DRAWDOWN_HALT"
                (JObject [("status", statusToJS st)]) now s0)
      as [(l & -> & A & _) | (err & -> & _)]; simpl.
    - do 2 eexists. split; [reflexivity | exact A].
    - reflexivity. }
  destruct (negb (Security.healthy _)).
  { destruct (logEvent_cases "ORACLE_UNHEALTHY"
                (JObject [("issues",
                           JArray (map JString
                                     (Security.issues
                                        (Security.checkHealth (oracleMonitor s)))))])
                now s0)
      as [(l & -> & A & _) | (err & -> & _)]; simpl.
    - do 2 eexists. split; [reflexivity | exact A].
    - reflexivity. }
  unfold checkForManipulation, seq, this, modify, ret.
  destruct (Security.analyzeOrder _ _ _ _) as [[alert|] det]; simpl;
    [|reflexivity].
  destruct (isCriticalSeverity _); simpl; [|reflexivity].
  unfold Agent.handleAlert, seq, this.
  set (s1 := with_whaleDetector s0 det).
  destruct (callHandlers_state (alertHandlers s1) alert s1) as [-> | [err ->]];
    [|reflexivity].
  destruct (logEvent_cases "SECURITY_ALERT" (alertToJS alert) now s1)
    as [(l & -> & A & _) | (err & -> & _)]; simpl.
  - do 2 eexists. split; [reflexivity | exact A].
  - reflexivity.
Qed.

(** Risk validation: which return statements write an entry. *)
Lemma validate_cases (d : TradeDecision) (md : MarketData) (now : Z)
  (s : BaseAgent) :
  match validateWithRiskManagement d md now s with
  | Ok (LowConfidence, r) s1 =>
      r = None /\ exists p, appended s s1 "LOW_CONFIDENCE" p
  | Ok (NonPositiveSize, r) s1 => r = None /\ ledger s1 = ledger s
  | Ok (StopLossOverride, r) s1 =>
      is_Some r /\ exists p, appended s s1 "STOP_LOSS_TRIGGERED" p
  | Ok (Sized, r) s1 => is_Some r /\ ledger s1 = ledger s
  | Raised _ s1 => ledger s1 = ledger s
  end.
Proof.
  unfold Agent.validateWithRiskManagement, seq, this, modify, ret, lift.
  destruct (num_lt _ _).
  { match goal with
    | |- context [Agent.logEvent _ _ _ _ ?ty ?p now s] =>
        destruct (logEvent_cases ty p now s) as [(l & -> & A & _) | (err & -> & _)]
    end; simpl; eauto. }
  destruct (Risk.calculateKellyCriterion _) as [kellySize|err]; [|reflexivity].
  destruct (_ <=? 0); [split; reflexivity|].
  destruct (stopLossManagers s !! d_marketId d) as [sl|]; [|split; eauto].
  destruct (Risk.updatePrice sl (currentPrice md)) as [slCheck updated].
  destruct (Risk.shouldExit slCheck); [|split; eauto].
  match goal with
  | |- context [Agent.logEvent _ _ _ _ ?ty ?p now ?s0] =>
      destruct (logEvent_cases ty p now s0) as [(l & -> & A & _) | (err & -> & _)]
  end; simpl; eauto.
Qed.

(** A domain error of the sizing step leaves [validateWithRiskManagement]
    as an exception. *)
Lemma validate_sizing_error (d : TradeDecision) (md : MarketData) (now : Z)
  (s : BaseAgent) (err : JSError) :
  num_lt (confidence d) (minConfidenceThreshold (config s)) = false ->
  Risk.calculateKellyCriterion (kellyParamsOf s d) = Throw err ->
  validateWithRiskManagement d md now s = Raised err s.
Proof.
  intros Hc Hk.
  unfold Agent.validateWithRiskManagement, seq, this, lift.
  rewrite Hc, Hk. reflexivity.
Qed.

(** The [catch] block always completes: it writes an ERROR entry and
    returns null. *)
Lemma catchBlock_cases (now : Z) (err : JSError) (s : BaseAgent) :
  exists s', catchBlock now err s = Ok (Caught err, None) s'
             /\ appended s s' "ERROR" (errorPayload err).
Proof.
  unfold Agent.catchBlock, seq, ret.
  destruct (logEvent_ok "ERROR" (errorPayload err) now s
              (Some ("{" ++ join [quote "error" ++ ":" ++ quote (message err)]
                         ++ "}")) eq_refl)
    as (l & E & A).
  unfold errorPayload in E. rewrite E. eauto.
Qed.

Lemma appended_audited (s s1 s' : BaseAgent) (site : ReturnSite)
  (added : list Audit.AuditEntry) (ty : string) (p : JSValue) :
  ledger s1 = (ledger s ++ added)%list ->
  appended s1 s' ty p ->
  siteTag site = Some ty ->
  audited s s' site None.
Proof.
  intros H1 (e & H2 & Hty & _) Htag.
  exists (added ++ [e])%list. split; [|split].
  - rewrite H2, H1. now rewrite <- app_assoc.
  - intros ty' Hty'. rewrite Htag in Hty'. injection Hty' as <-. eauto.
  - intros [x Hx]. discriminate.
Qed.

Lemma silent_audited (s s' : BaseAgent) (site : ReturnSite)
  (added : list Audit.AuditEntry) :
  ledger s' = (ledger s ++ added)%list ->
  siteTag site = None ->
  audited s s' site None.
Proof.
  intros H1 Htag. exists added. split; [exact H1|split].
  - intros ty Hty. congruence.
  - intros [x Hx]. discriminate.
Qed.

Lemma caught_audited (s s1 : BaseAgent) (now : Z) (err : JSError)
  (added : list Audit.AuditEntry) :
  ledger s1 = (ledger s ++ added)%list ->
  exists s', catchBlock now err s1 = Ok (Caught err, None) s'
             /\ audited s s' (Caught err) None.
Proof.
  intros H. destruct (catchBlock_cases now err s1) as (s' & E & A).
  exists s'. split; [exact E|].
  eapply appended_audited; [exact H | exact A | reflexivity].
Qed.

Lemma validate_grows (d : TradeDecision) (md : MarketData) (now : Z)
  (s : BaseAgent) :
  exists added,
    ledger (outcomeState (validateWithRiskManagement d md now s))
    = (ledger s ++ added)%list.
Proof.
  pose proof (validate_cases d md now s) as V.
  destruct (validateWithRiskManagement d md now s) as [[v r] s1 | err s1];
    simpl.
  - destruct v.
    + destruct V as (_ & p & e & H & _). eauto.
    + destruct V as (_ & H). exists []. now rewrite app_nil_r.
    + destruct V as (_ & p & e & H & _). eauto.
    + destruct V as (_ & H). exists []. now rewrite app_nil_r.
  - exists []. now rewrite app_nil_r.
Qed.

(** The payloads of TRADE_DECISION and SECURITY_ALERT hold a bigint
    ([amount]), which [JSON.stringify] refuses. *)
Lemma decision_not_serialisable (d : TradeDecision) :
  serialize numberToString (JObject [("decision", decisionToJS d)])
  = Throw bigintError.
Proof. reflexivity. Qed.

Lemma alert_not_serialisable (a : Security.WhaleAlert) :
  serialize numberToString (alertToJS a) = Throw bigintError.
Proof. reflexivity. Qed.

(** The [try] block under its [catch]: the call always completes. *)
Lemma guarded_cases (md : MarketData) (pred : Prediction) (now : Z)
  (s : BaseAgent) :
  (forall s0, exists added,
      ledger (outcomeState (makeTradingDecision md pred now s0))
      = (ledger s0 ++ added)%list) ->
  exists site r s',
    tryCatch (tryBlock md pred now) (catchBlock now) s = Ok (site, r) s'
    /\ audited s s' site r
    /\ tagged site
    /\ r = None
    /\ (site = NoDecision ->
        exists s1 od,
          runGates md now s = Ok None s1
          /\ makeTradingDecision md pred now s1 = Ok od s'
          /\ holdOrNone od).
Proof.
  intros Hstrat. unfold tryCatch, Agent.tryBlock, seq.
  assert (Caught_ok : forall s1 err added,
             ledger s1 = (ledger s ++ added)%list ->
             exists site r s',
               catchBlock now err s1 = Ok (site, r) s'
               /\ audited s s' site r /\ tagged site /\ r = None
               /\ (site = NoDecision ->
                   exists s1 od,
                     runGates md now s = Ok None s1
                     /\ makeTradingDecision md pred now s1 = Ok od s'
                     /\ holdOrNone od)).
  { intros s1 err added H.
    destruct (caught_audited s s1 now err added H) as (s' & E & A).
    exists (Caught err), None, s'. split; [exact E|]. split; [exact A|].
    split; [right; right; eexists; reflexivity|].
    split; [reflexivity | discriminate]. }
  pose proof (runGates_cases md now s) as G.
  destruct (runGates md now s) as [[site|] s1 | err s1].
  - (* a gate aborted *)
    destruct G as (ty & p & Htag & A).
    exists site, None, s1. split; [reflexivity|]. split; [|split; [|split]].
    + eapply (appended_audited s s s1 site []);
        [now rewrite app_nil_r | exact A | exact Htag].
    + right; right; eauto.
    + reflexivity.
    + intros ->. discriminate.
  - (* the gates were passed *)
    unfold Agent.decide, seq.
    destruct (Hstrat s1) as [added Hadd].
    destruct (makeTradingDecision md pred now s1) as [[d|] s2 | err s2] eqn:D;
      simpl in Hadd; rewrite G in Hadd.
    + destruct (isHold (action d)) eqn:Hh.
      * exists NoDecision, None, s2. split; [reflexivity|].
        split; [|split; [|split]].
        -- eapply silent_audited; [exact Hadd | reflexivity].
        -- left. reflexivity.
        -- reflexivity.
        -- intros _. exists s1, (Some d). auto.
      * pose proof (validate_cases d md now s2) as V.
        destruct (validate_grows d md now s2) as [added2 Hadd2].
        destruct (validateWithRiskManagement d md now s2)
          as [[v [vd|]] s3 | err s3]; simpl in Hadd2.
        -- (* a decision came back: its entry cannot be written *)
           assert (H3 : ledger s3 = (ledger s ++ added ++ added2)%list).
           { rewrite Hadd2, Hadd. now rewrite <- app_assoc. }
           match goal with
           | |- context [Agent.logEvent _ _ _ _ ?ty ?p now s3] =>
               destruct (logEvent_cases ty p now s3)
                 as [(l & _ & _ & t & Ht) | (err & -> & _)]
           end.
           ++ rewrite decision_not_serialisable in Ht. discriminate.
           ++ exact (Caught_ok s3 err _ H3).
        -- (* rejected *)
           exists (Rejected v), None, s3. split; [reflexivity|].
           destruct v.
           ++ destruct V as (_ & p & A).
              split; [|split; [|split; [reflexivity | discriminate]]].
              ** eapply appended_audited; [exact Hadd | exact A | reflexivity].
              ** right; right; eexists; reflexivity.
           ++ split; [|split; [|split; [reflexivity | discriminate]]].
              ** eapply silent_audited; [|reflexivity].
                 rewrite Hadd2, Hadd. now rewrite <- app_assoc.
              ** right; left; reflexivity.
           ++ destruct V as ([x Hx] & _). discriminate.
           ++ destruct V as ([x Hx] & _). discriminate.
        -- apply (Caught_ok s3 err (added ++ added2)%list).
           rewrite Hadd2, Hadd. now rewrite <- app_assoc.
    + exists NoDecision, None, s2. split; [reflexivity|].
      split; [|split; [|split]].
      * eapply silent_audited; [exact Hadd | reflexivity].
      * left. reflexivity.
      * reflexivity.
      * intros _. exists s1, None. simpl. auto.
    + exact (Caught_ok s2 err added Hadd).
  - (* a gate threw *)
    apply (Caught_ok s1 err []). rewrite G. now rewrite app_nil_r.
Qed.

Lemma running_unfold (md : MarketData) (pred : Prediction) (now : Z)
  (s : BaseAgent) :
  isRunning s = true -> tradingEnabled (config s) = true ->
  processMarketData_at md pred now s
  = tryCatch (tryBlock md pred now) (catchBlock now) s.
Proof.
  intros Hrun Hen. unfold Agent.processMarketData_at, seq, this.
  rewrite Hrun, Hen. reflexivity.
Qed.

Lemma result_of_at (md : MarketData) (pred : Prediction) (now : Z)
  (s s' : BaseAgent) (site : ReturnSite) (r : option TradeDecision) :
  processMarketData_at md pred now s = Ok (site, r) s' ->
  processMarketData md pred now s = Ok r s'.
Proof.
  intros H. unfold Agent.processMarketData, seq, ret. rewrite H. reflexivity.
Qed.

(** C1, amended.  While the agent runs with trading enabled, a call of
    [processMarketData] completes normally and only adds to the ledger.
    A drawdown halt, an oracle abort, a manipulation block, a
    low-confidence rejection and a caught error each end with the
    matching entry written last, and a decision is returned only after
    its TRADE_DECISION entry is written.  When the strategy proposes HOLD
    or no decision the call ends in the state the strategy left: the
    pipeline itself writes nothing. *)
Theorem pipeline_audit (md : MarketData) (pred : Prediction) (now : Z)
  (s : BaseAgent) :
  isRunning s = true ->
  tradingEnabled (config s) = true ->
  (forall s0, exists added,
      ledger (outcomeState (makeTradingDecision md pred now s0))
      = (ledger s0 ++ added)%list) ->
  exists site r s',
    processMarketData_at md pred now s = Ok (site, r) s'
    /\ processMarketData md pred now s = Ok r s'
    /\ audited s s' site r
    /\ tagged site
    /\ (site = NoDecision ->
        r = None
        /\ exists s1 od,
             runGates md now s = Ok None s1
             /\ makeTradingDecision md pred now s1 = Ok od s'
             /\ holdOrNone od).
Proof.
  intros Hrun Hen Hstrat.
  destruct (guarded_cases md pred now s Hstrat)
    as (site & r & s' & E & A & T & Hr & N).
  rewrite <- (running_unfold md pred now s Hrun Hen) in E.
  exists site, r, s'. split; [exact E|].
  split; [exact (result_of_at _ _ _ _ _ _ _ E)|].
  split; [exact A|]. split; [exact T|].
  intros Hsite. split; [exact Hr | exact (N Hsite)].
Qed.

(** With amounts held as bigints, no call returns a decision: writing
    the TRADE_DECISION entry throws and the [catch] block takes over. *)
Lemma never_returns_decision (md : MarketData) (pred : Prediction) (now : Z)
  (s : BaseAgent) :
  (forall s0, exists added,
      ledger (outcomeState (makeTradingDecision md pred now s0))
      = (ledger s0 ++ added)%list) ->
  exists s', processMarketData md pred now s = Ok None s'.
Proof.
  intros Hstrat.
  destruct (isRunning s && tradingEnabled (config s)) eqn:R.
  - apply andb_true_iff in R as [Hrun Hen].
    destruct (guarded_cases md pred now s Hstrat)
      as (site & r & s' & E & _ & _ & -> & _).
    rewrite <- (running_unfold md pred now s Hrun Hen) in E.
    exists s'. exact (result_of_at _ _ _ _ _ _ _ E).
  - exists s. unfold Agent.processMarketData, Agent.processMarketData_at,
      seq, this, ret.
    apply andb_false_iff in R as [-> | ->]; simpl;
      [|rewrite orb_true_r]; reflexivity.
Qed.

(** C8, amended.  A domain error of the sizing step does not reach the
    caller: when the gates are passed, the strategy proposes a trade of
    sufficient confidence and [calculateKellyCriterion] throws, the call
    writes an ERROR entry with the message of the error and returns
    null. *)
Theorem sizing_error_is_caught (md : MarketData) (pred : Prediction) (now : Z)
  (s s1 s2 : BaseAgent) (d : TradeDecision) (err : JSError) :
  isRunning s = true ->
  tradingEnabled (config s) = true ->
  runGates md now s = Ok None s1 ->
  makeTradingDecision md pred now s1 = Ok (Some d) s2 ->
  isHold (action d) = false ->
  num_lt (confidence d) (minConfidenceThreshold (config s2)) = false ->
  Risk.calculateKellyCriterion (kellyParamsOf s2 d) = Throw err ->
  exists s',
    processMarketData md pred now s = Ok None s'
    /\ processMarketData_at md pred now s = Ok (Caught err, None) s'
    /\ appended s2 s' "ERROR" (errorPayload err).
Proof.
  intros Hrun Hen Hg Hd Hh Hc Hk.
  destruct (catchBlock_cases now err s2) as (s' & E & A).
  assert (R : processMarketData_at md pred now s = Ok (Caught err, None) s').
  { rewrite (running_unfold md pred now s Hrun Hen).
    unfold tryCatch, Agent.tryBlock, seq. rewrite Hg.
    unfold Agent.decide, seq. rewrite Hd, Hh.
    rewrite (validate_sizing_error d md now s2 err Hc Hk). exact E. }
  exists s'. split; [exact (result_of_at _ _ _ _ _ _ _ R)|].
  split; [exact R | exact A].
Qed.

End Pipeline.
End PipelineSpec.

(** ** The pipeline on a concrete agent *)

Module Sample.
Import SampleDefs.
Import Json Agent.

Lemma always_appends (od : option TradeDecision) (s0 : BaseAgent) :
  exists added,
    ledger (outcomeState (always od sampleMarket samplePrediction t0 s0))
    = (ledger s0 ++ added)%list.
Proof. exists []. simpl. now rewrite app_nil_r. Qed.

(** C1 fails as stated: the agent runs with trading enabled, the
    strategy proposes HOLD (or nothing), the call returns null and the
    ledger is as it was. *)
Lemma hold_not_audited :
  isRunning sampleAgent = true
  /\ tradingEnabled (config sampleAgent) = true
  /\ match run (Some (proposal HOLD (8 # 10))) sampleAgent with
     | Ok None s' => ledger s' = ledger sampleAgent
     | _ => False
     end
  /\ match run None sampleAgent with
     | Ok None s' => ledger s' = ledger sampleAgent
     | _ => False
     end.
Proof. repeat split; vm_compute; reflexivity. Qed.

(** The other silent return: a position size that rounds to zero. *)
Example zero_size_not_audited :
  match run_at (Some (proposal BUY (8 # 10))) smallAgent with
  | Ok (Rejected NonPositiveSize, None) s' => ledger s' = ledger smallAgent
  | _ => False
  end.
Proof. vm_compute. reflexivity. Qed.

(** The returns that write an entry, on the sample agent. *)
Example low_confidence_audited :
  match run_at (Some (proposal BUY (5 # 10))) sampleAgent with
  | Ok (Rejected LowConfidence, None) s' =>
      map Audit.type (ledger s') = ["LOW_CONFIDENCE"]
  | _ => False
  end.
Proof. vm_compute. reflexivity. Qed.

Example approval_ends_in_catch :
  match run_at (Some (proposal BUY (8 # 10))) sampleAgent with
  | Ok (Caught e, None) s' =>
      e = bigintError /\ map Audit.type (ledger s') = ["ERROR"]
  | _ => False
  end.
Proof. vm_compute. split; reflexivity. Qed.

Lemma pipeline_audit_witness :
  exists site r s',
    run_at (Some (proposal BUY (5 # 10))) sampleAgent = Ok (site, r) s'
    /\ run (Some (proposal BUY (5 # 10))) sampleAgent = Ok r s'
    /\ PipelineDefs.audited sampleAgent s' site r
    /\ PipelineDefs.tagged site
    /\ (site = NoDecision ->
        r = None
        /\ exists s1 od,
             gatesOf sampleAgent = Ok None s1
             /\ always (Some (proposal BUY (5 # 10)))
                  sampleMarket samplePrediction t0 s1 = Ok od s'
             /\ PipelineDefs.holdOrNone od).
Proof.
  apply (PipelineSpec.pipeline_audit
           LedgerDefs.printNumber LedgerDefs.identityHash
           LedgerDefs.concatSign LedgerDefs.chainAccepts
           (always (Some (proposal BUY (5 # 10))))
           sampleMarket samplePrediction t0 sampleAgent).
  - reflexivity.
  - reflexivity.
  - intros s0. exists []. simpl. now rewrite app_nil_r.
Defined.

(** C8 fails as stated: a proposal of confidence 1 makes the sizing
    step throw its domain error, and the call returns null, the error
    being recorded in the ledger. *)
Lemma sizing_error_not_propagated :
  (exists s1,
      gatesOf sampleAgent = Ok None s1
      /\ Risk.calculateKellyCriterion (kellyParamsOf s1 (proposal SELL 1))
         = Throw (Error "Win probability must be between 0 and 1"))
  /\ match run (Some (proposal SELL 1)) sampleAgent with
     | Ok None s' => map Audit.type (ledger s') = ["ERROR"]
     | _ => False
     end.
Proof.
  split.
  - eexists. split; vm_compute; reflexivity.
  - vm_compute. reflexivity.
Qed.

Lemma sizing_error_is_caught_witness :
  exists s',
    run (Some (proposal SELL 1)) sampleAgent = Ok None s'
    /\ run_at (Some (proposal SELL 1)) sampleAgent
       = Ok (Caught (Error "Win probability must be between 0 and 1"), None) s'
    /\ PipelineDefs.appended afterGates s' "ERROR"
         (PipelineDefs.errorPayload
            (Error "Win probability must be between 0 and 1")).
Proof.
  apply (PipelineSpec.sizing_error_is_caught
           LedgerDefs.printNumber LedgerDefs.identityHash
           LedgerDefs.concatSign LedgerDefs.chainAccepts
           (always (Some (proposal SELL 1)))
           sampleMarket samplePrediction t0 sampleAgent
           afterGates afterGates (proposal SELL 1)
           (Error "Win probability must be between 0 and 1")).
  - reflexivity.
  - reflexivity.
  - vm_compute. reflexivity.
  - reflexivity.
  - reflexivity.
  - vm_compute. reflexivity.
  - vm_compute. reflexivity.
Defined.

End Sample.

(** ** Fixed-fraction sizing *)

Module SizingFacts.
Import Risk.

(** A negative cap is returned as it is: the position can be negative. *)
Example negative_cap_returned :
  calculateFixedFractional 10000 (1 # 10) (Some (-5)) = -5.
Proof. reflexivity. Qed.

End SizingFacts.

(** ** Fixed-fraction sizing on doubles *)

Module DoubleSizingFacts.
Import RoundingDefs OrderDefs ShapeDefs Double DoubleDefs DoubleFacts.
#[local] Set Warnings "-inexact-float".



(** [0.03 * 10000] is exactly 300 in doubles although the double 0.03
    lies below 3/100; outside the range of the theorem, a fraction of
    [Infinity] is no integer. *)
Example fixed_fractional_samples :
  calculateFixedFractional (10 ^ 22) 0.03 None = Return (3 * 10 ^ 20)
  /\ calculateFixedFractional 10000 infinity None
     = Throw (notAnInteger "Infinity").
Proof. split; vm_compute; reflexivity. Qed.

End DoubleSizingFacts.

(** ** Stop-loss tracker: running extremes and precedence *)

Module TrackerFacts.
Import StopLossDefs.
Import Risk.

Lemma stopLossPrice_track (m : StopLossManager) (p : Z) :
  calculateStopLossPrice (track m p) = calculateStopLossPrice m.
Proof. reflexivity. Qed.

(** X2.  While a tracker is active its running high is the largest and its
    running low the smallest of the prices seen so far (the entry price
    included); its parameters never change. *)
Theorem running_extremes (m : StopLossManager) (prices : list Z) :
  isActive m = true ->
  highestPrice (snd (updatePrices m prices))
  = fold_left Z.max prices (highestPrice m)
  /\ lowestPrice (snd (updatePrices m prices))
     = fold_left Z.min prices (lowestPrice m)
  /\ params (snd (updatePrices m prices)) = params m
  /\ lowestPrice (snd (updatePrices (new_StopLossManager (params m)) prices))
     <= entryPrice (params m)
     <= highestPrice (snd (updatePrices (new_StopLossManager (params m)) prices)).
Proof.
  assert (G : forall ps m0, isActive m0 = true ->
            highestPrice (snd (updatePrices m0 ps))
            = fold_left Z.max ps (highestPrice m0)
            /\ lowestPrice (snd (updatePrices m0 ps))
               = fold_left Z.min ps (lowestPrice m0)
            /\ params (snd (updatePrices m0 ps)) = params m0).
  { induction ps as [|p ps IH]; intros m0 Ha; simpl.
    - auto.
    - rewrite (StopLossSpec.updatePrice_active m0 p Ha).
      destruct (IH (track m0 p) Ha) as (H1 & H2 & H3).
      destruct (updatePrices (track m0 p) ps) as [sigs m2]. simpl in *.
      auto. }
  assert (Mx : forall ps a, a <= fold_left Z.max ps a).
  { induction ps as [|p ps IH]; intros a; simpl; [lia|].
    specialize (IH (Z.max a p)). lia. }
  assert (Mn : forall ps a, fold_left Z.min ps a <= a).
  { induction ps as [|p ps IH]; intros a; simpl; [lia|].
    specialize (IH (Z.min a p)). lia. }
  intros Ha. destruct (G prices m Ha) as (H1 & H2 & H3).
  split; [exact H1|]. split; [exact H2|]. split; [exact H3|].
  destruct (G prices (new_StopLossManager (params m)) eq_refl) as (F1 & F2 & _).
  rewrite F1, F2. simpl. split; [apply Mn | apply Mx].
Qed.

Lemma running_extremes_witness :
  highestPrice (snd (updatePrices (new_StopLossManager trailingParams)
                                  [1200; 1079]))
  = fold_left Z.max [1200; 1079]
      (highestPrice (new_StopLossManager trailingParams))
  /\ lowestPrice (snd (updatePrices (new_StopLossManager trailingParams)
                                    [1200; 1079]))
     = fold_left Z.min [1200; 1079]
         (lowestPrice (new_StopLossManager trailingParams))
  /\ params (snd (updatePrices (new_StopLossManager trailingParams)
                               [1200; 1079]))
     = params (new_StopLossManager trailingParams)
  /\ lowestPrice
       (snd (updatePrices
               (new_StopLossManager
                  (params (new_StopLossManager trailingParams)))
               [1200; 1079]))
     <= entryPrice (params (new_StopLossManager trailingParams))
     <= highestPrice
          (snd (updatePrices
                  (new_StopLossManager
                     (params (new_StopLossManager trailingParams)))
                  [1200; 1079])).
Proof.
  apply (running_extremes (new_StopLossManager trailingParams) [1200; 1079]).
  reflexivity.
Defined.

(** X3.  The hard stop comes first: an active tracker answers STOP_LOSS
    exactly when the price is at or below the stop level, whatever the
    take-profit and trailing settings and the prices seen before. *)
Theorem stop_loss_first (m : StopLossManager) (p : Z) :
  isActive m = true ->
  fst (updatePrice m p) = exitWith "STOP_LOSS"
  <-> p <= calculateStopLossPrice m.
Proof.
  intros Ha. rewrite (StopLossSpec.updatePrice_active m p Ha). simpl.
  unfold signalAt. rewrite stopLossPrice_track.
  destruct (Z.leb_spec p (calculateStopLossPrice m)) as [H|H].
  - split; auto.
  - split; [|lia]. intros E. exfalso.
    repeat match type of E with
           | (if ?c then _ else _) = _ => destruct c
           end; discriminate.
Qed.

Lemma stop_loss_first_witness :
  fst (updatePrice (new_StopLossManager plainParams) 940)
  = exitWith "STOP_LOSS"
  <-> 940 <= calculateStopLossPrice (new_StopLossManager plainParams).
Proof.
  apply (stop_loss_first (new_StopLossManager plainParams) 940).
  reflexivity.
Defined.

(** X4.  The stop level is the entry price less [entry * floor(percent * 100)
    / 10000]: for a stop percentage below 100% and a non-negative entry
    price it lies at most one percent of the entry below the entry. *)
Theorem stop_level_within_one_percent (m : StopLossManager) :
  0 <= entryPrice (params m) ->
  (0 <= stopLossPercent (params m))%Q ->
  (stopLossPercent (params m) < 1)%Q ->
  entryPrice (params m) - entryPrice (params m) / 100
  <= calculateStopLossPrice m <= entryPrice (params m).
Proof.
  intros He H0 H1. unfold calculateStopLossPrice, BigInt_floor.
  set (e := entryPrice (params m)) in *.
  set (k := Qfloor (stopLossPercent (params m) * 100)).
  assert (Hk0 : 0 <= k).
  { change 0 with (Qfloor 0). apply Qfloor_resp_le. lra. }
  assert (Hk1 : k < 100).
  { assert (Hq : (inject_Z k <= stopLossPercent (params m) * 100)%Q)
      by apply Qfloor_le.
    assert (Hlt : (inject_Z k < inject_Z 100)%Q).
    { change (inject_Z 100) with 100%Q. lra. }
    now rewrite <- Zlt_Qlt in Hlt. }
  rewrite Z.quot_div_nonneg by lia.
  assert (Hd0 : 0 <= e * k / 10000) by (apply Z.div_pos; lia).
  assert (Hd1 : e * k / 10000 <= e / 100).
  { replace (e / 100) with (e * 100 / 10000).
    - apply Z.div_le_mono; [lia|]. apply Z.mul_le_mono_nonneg_l; lia.
    - change 10000 with (100 * 100). apply Z.div_mul_cancel_r; lia. }
  lia.
Qed.

Lemma stop_level_within_one_percent_witness :
  entryPrice (params (new_StopLossManager plainParams))
  - entryPrice (params (new_StopLossManager plainParams)) / 100
  <= calculateStopLossPrice (new_StopLossManager plainParams)
  <= entryPrice (params (new_StopLossManager plainParams)).
Proof.
  apply (stop_level_within_one_percent (new_StopLossManager plainParams)).
  - simpl. lia.
  - vm_compute. discriminate.
  - reflexivity.
Defined.

End TrackerFacts.

(** ** Drawdown protector: statuses, cooldown and trigger count *)

Module DrawdownFacts.
Import DrawdownDefs DrawdownRuns.
Import Risk.

Ltac split_ifs :=
  repeat match goal with
         | |- context [if ?b then _ else _] => destruct b eqn:?; simpl
         end.

Lemma updateValue_current (d : DrawdownProtector) (now value : Z) :
  currentValue (dd_state (snd (updateValue d now value))) = value.
Proof.
  destruct d as [c [pk cur daily reset cool cend cnt]].
  unfold updateValue, triggerCooldown. simpl. split_ifs; reflexivity.
Qed.

Lemma updateValue_config (d : DrawdownProtector) (now value : Z) :
  dd_config (snd (updateValue d now value)) = dd_config d.
Proof.
  destruct d as [c [pk cur daily reset cool cend cnt]].
  unfold updateValue, triggerCooldown. simpl. split_ifs; reflexivity.
Qed.

(** X5.  The current equity never exceeds the peak, after any sequence of
    [updateValue], [getState] and [resetPeak] calls on a new protector;
    so the total drawdown of a positive peak is never negative. *)
Theorem current_at_most_peak
  (c : DrawdownConfig) (initial now : Z) (ops : list DrawdownOp) :
  currentValue (dd_state (run ops (new_DrawdownProtector c initial now)))
  <= peak (run ops (new_DrawdownProtector c initial now))
  /\ (0 < peak (run ops (new_DrawdownProtector c initial now)) ->
      (0 <= calculateDrawdown
              (dd_state (run ops (new_DrawdownProtector c initial now))))%Q).
Proof.
  assert (G : forall ops d,
             currentValue (dd_state d) <= peak d ->
             currentValue (dd_state (run ops d)) <= peak (run ops d)).
  { induction ops0 as [|op ops0 IH]; intros d Hd; simpl; [exact Hd|].
    apply IH. destruct op as [t v| |]; simpl.
    - rewrite updateValue_current, DrawdownSpec.updateValue_peak. lia.
    - exact Hd.
    - unfold peak. simpl. lia. }
  set (d := run ops (new_DrawdownProtector c initial now)).
  assert (H : currentValue (dd_state d) <= peak d).
  { apply G. unfold peak. simpl. lia. }
  split; [exact H|].
  intros Hp. unfold calculateDrawdown, peak in *.
  destruct (Z.eqb_spec (peakValue (dd_state d)) 0) as [E|E]; [lra|].
  unfold Number. apply Qle_shift_div_l.
  - change 0%Q with (inject_Z 0). now rewrite <- Zlt_Qlt.
  - rewrite Qmult_0_l. change 0%Q with (inject_Z 0).
    rewrite <- Zle_Qle. lia.
Qed.

(** X6.  Trading is allowed exactly when the status is NORMAL or WARNING;
    the [pauseOnTrigger] option has no influence on the answer. *)
Theorem canTrade_by_status (d : DrawdownProtector) (now value : Z) :
  canTrade (fst (updateValue d now value))
  = match status (fst (updateValue d now value)) with
    | NORMAL | WARNING => true
    | CRITICAL | COOLDOWN => false
    end.
Proof.
  destruct d as [c [pk cur daily reset cool cend cnt]].
  unfold updateValue. simpl. split_ifs; try reflexivity;
    destruct (pauseOnTrigger c); reflexivity.
Qed.

Lemma cooldown_step (d : DrawdownProtector) (now value : Z) :
  inCooldown (dd_state d) = true ->
  now < cooldownEnd (dd_state d) ->
  status (fst (updateValue d now value)) = COOLDOWN
  /\ canTrade (fst (updateValue d now value)) = false
  /\ inCooldown (dd_state (snd (updateValue d now value))) = true
  /\ cooldownEnd (dd_state (snd (updateValue d now value)))
     = cooldownEnd (dd_state d)
  /\ triggeredCount (dd_state (snd (updateValue d now value)))
     = triggeredCount (dd_state d).
Proof.
  destruct d as [c [pk cur daily reset cool cend cnt]]. simpl.
  intros -> Hnow. unfold updateValue. cbn.
  destruct (pk <? value); cbn;
    destruct (86400000 <? now - reset); cbn;
    destruct (Z.leb_spec cend now); try lia; cbn; repeat split; reflexivity.
Qed.

(** X7.  While a cooldown runs, every update reports COOLDOWN and forbids
    trading, whatever the equity; the end of the cooldown and the
    trigger count stay as they are. *)
Theorem cooldown_holds (d : DrawdownProtector) (updates : list (Z * Z)) :
  inCooldown (dd_state d) = true ->
  Forall (fun u => fst u < cooldownEnd (dd_state d)) updates ->
  Forall (fun st => status st = COOLDOWN /\ canTrade st = false)
         (fst (updateValues d updates))
  /\ cooldownEnd (dd_state (snd (updateValues d updates)))
     = cooldownEnd (dd_state d)
  /\ triggeredCount (dd_state (snd (updateValues d updates)))
     = triggeredCount (dd_state d).
Proof.
  revert d. induction updates as [|[now value] rest IH]; intros d Hc Hall;
    simpl.
  - auto.
  - apply Forall_cons_1 in Hall as [Hnow Hrest]. simpl in Hnow.
    destruct (cooldown_step d now value Hc Hnow)
      as (S1 & S2 & S3 & S4 & S5).
    destruct (updateValue d now value) as [st d1]. simpl in *.
    rewrite <- S4 in Hrest.
    destruct (IH d1 S3 Hrest) as (I1 & I2 & I3).
    destruct (updateValues d1 rest) as [sts d2]. simpl in *.
    split; [|split; congruence].
    constructor; auto.
Qed.

Lemma cooldown_holds_witness :
  Forall (fun st => status st = COOLDOWN /\ canTrade st = false)
         (fst (updateValues lossAtOnce [(2000, 10000); (3000, 12000)]))
  /\ cooldownEnd
       (dd_state (snd (updateValues lossAtOnce [(2000, 10000); (3000, 12000)])))
     = cooldownEnd (dd_state lossAtOnce)
  /\ triggeredCount
       (dd_state (snd (updateValues lossAtOnce [(2000, 10000); (3000, 12000)])))
     = triggeredCount (dd_state lossAtOnce).
Proof.
  apply (cooldown_holds lossAtOnce [(2000, 10000); (3000, 12000)]).
  - reflexivity.
  - repeat constructor.
Defined.

Lemma trigger_step (d : DrawdownProtector) (now value : Z) :
  triggeredCount (dd_state (snd (updateValue d now value)))
  = triggeredCount (dd_state d)
    + (if isCritical (status (fst (updateValue d now value))) then 1 else 0)
  /\ (status (fst (updateValue d now value)) = CRITICAL ->
      inCooldown (dd_state (snd (updateValue d now value))) = true
      /\ cooldownEnd (dd_state (snd (updateValue d now value)))
         = now + cooldownPeriodMs (dd_config d)).
Proof.
  destruct d as [c [pk cur daily reset cool cend cnt]].
  unfold updateValue, triggerCooldown. simpl.
  split_ifs; split; try lia; try discriminate; auto.
Qed.

(** X8.  The trigger count goes up by one with every CRITICAL status and
    with nothing else; a CRITICAL status starts a cooldown that ends one
    cooldown period after the call. *)
Theorem triggers_counted (d : DrawdownProtector) (updates : list (Z * Z)) :
  triggeredCount (dd_state (snd (updateValues d updates)))
  = triggeredCount (dd_state d) + criticalCount (fst (updateValues d updates))
  /\ (forall now value,
         status (fst (updateValue d now value)) = CRITICAL ->
         inCooldown (dd_state (snd (updateValue d now value))) = true
         /\ cooldownEnd (dd_state (snd (updateValue d now value)))
            = now + cooldownPeriodMs (dd_config d)).
Proof.
  split; [|intros now value; apply trigger_step].
  revert d. induction updates as [|[now value] rest IH]; intros d; simpl.
  - unfold criticalCount. simpl. lia.
  - destruct (trigger_step d now value) as [T _].
    destruct (updateValue d now value) as [st d1]. simpl in *.
    specialize (IH d1).
    destruct (updateValues d1 rest) as [sts d2]. simpl in *.
    rewrite IH, T. unfold criticalCount. simpl.
    destruct (isCritical (status st)); simpl; lia.
Qed.

End DrawdownFacts.

(** ** Whale detector: price impact and order history *)

Module WhaleFacts.
Import WhaleDefs.
Import Security.

(** Against an empty pool every order raises an alert, and the alert
    carries the maximal impact 1 (for any impact threshold up to 1). *)
Theorem empty_pool_alerts (d : WhaleDetector) (now : Z) (o : Order) :
  (priceImpactThreshold d <= 1)%Q ->
  exists a,
    returned d now o 0 = Some a
    /\ (impact a == 1)%Q
    /\ (alertType a = WHALE_ORDER \/ alertType a = PRICE_IMPACT)
    /\ al_trader a = trader o /\ al_marketId a = marketId o
    /\ al_amount a = amount o.
Proof.
  intros Ht.
  unfold returned, analyzeOrder, applicableAlerts, sizeAlert, impactAlert.
  simpl.
  assert (G : num_ge (calculatePriceImpact (amount o) 0)
                     (priceImpactThreshold d) = true).
  { unfold num_ge. apply num_le_iff. exact Ht. }
  destruct (volumeThreshold d <=? amount o); simpl.
  - eexists. split; [reflexivity|]. simpl.
    repeat split; auto; reflexivity.
  - rewrite G. simpl. eexists. split; [reflexivity|]. simpl.
    repeat split; auto; reflexivity.
Qed.

Lemma empty_pool_alerts_witness :
  exists a,
    returned detector 1700000000000 (orderOf 100) 0 = Some a
    /\ (impact a == 1)%Q
    /\ (alertType a = WHALE_ORDER \/ alertType a = PRICE_IMPACT)
    /\ al_trader a = trader (orderOf 100)
    /\ al_marketId a = marketId (orderOf 100)
    /\ al_amount a = amount (orderOf 100).
Proof.
  apply (empty_pool_alerts detector 1700000000000 (orderOf 100)).
  vm_compute. discriminate.
Defined.

(** X10.  Every analysed order is stored and the history of its market is
    pruned: afterwards that history holds the earlier orders and the new
    one that are younger than the window, in order; the histories of
    the other markets, the volumes and the thresholds are untouched. *)
Theorem history_pruned (d : WhaleDetector) (now : Z) (o : Order) (liq : Z) :
  let d' := snd (analyzeOrder d now o liq) in
  orderHistory d' !! marketId o
  = Some (List.filter (fun x => now - historyWindowMs d <? timestamp x)
            (default [] (orderHistory d !! marketId o) ++ [o])%list)
  /\ (forall x, In x (default [] (orderHistory d' !! marketId o)) ->
        now - historyWindowMs d < timestamp x)
  /\ (In o (default [] (orderHistory d' !! marketId o))
      <-> now - historyWindowMs d < timestamp o)
  /\ (forall market, market <> marketId o ->
        orderHistory d' !! market = orderHistory d !! market)
  /\ volume24h d' = volume24h d
  /\ volumeThreshold d' = volumeThreshold d
  /\ priceImpactThreshold d' = priceImpactThreshold d
  /\ historyWindowMs d' = historyWindowMs d.
Proof.
  simpl. unfold storeOrder. simpl.
  rewrite lookup_insert_eq. simpl.
  split; [reflexivity|]. split; [|split; [|split]].
  - intros x Hx. apply filter_In in Hx as [_ Hx]. now apply Z.ltb_lt in Hx.
  - rewrite filter_In, in_app_iff, Z.ltb_lt. simpl. tauto.
  - intros market Hne. now rewrite lookup_insert_ne.
  - auto.
Qed.

End WhaleFacts.

(** ** Price impact on doubles *)

Module DoubleImpactFacts.
Import RoundingDefs RoundingFacts Binary64Facts OrderDefs OrderFacts.
Import ShapeDefs ShapeFacts DoubleDefs DoubleFacts.
Import QuotientDefs QuotientFacts DivisionFacts NumberFacts RatioFacts.
Import Double.
#[local] Set Warnings "-inexact-float".

(** X9.  On doubles, for an amount and a liquidity below [2^256] that are
    not negative, the price impact lies between 0 and 1, and it is 1
    without liquidity.  Against some liquidity it is 0 exactly for an
    amount of zero, at least one half for an amount of the liquidity or
    more, and at most one half for an amount of the liquidity or less. *)
Theorem price_impact_on_doubles (amount liquidity : Z) :
  0 <= amount < 2 ^ 256 -> 0 <= liquidity < 2 ^ 256 ->
  let impact := calculatePriceImpact amount liquidity in
  (0 <=? impact)%float = true /\ (impact <=? 1)%float = true
  /\ (liquidity = 0 -> impact = 1%float)
  /\ (0 < liquidity ->
      ((impact =? 0)%float = true <-> amount = 0)
      /\ (liquidity <= amount -> (0.5 <=? impact)%float = true)
      /\ (amount <= liquidity -> (impact <=? 0.5)%float = true)).
Proof.
  intros [Ha Ha'] [Hl Hl'] impact. unfold calculatePriceImpact in impact.
  assert (Hb : bias = 2200) by reflexivity.
  destruct (Z.eqb_spec liquidity 0) as [->|Hne].
  { subst impact. repeat split; try reflexivity; lia. }
  destruct (Number_positive liquidity 256 ltac:(lia) ltac:(lia))
    as (PL & EL & BL).
  destruct (Z.eq_dec amount 0) as [->|Hane].
  { (* nothing is traded *)
    assert (E : impact = 0%float).
    { unfold impact. apply zero_ratio; [apply Number_zero|].
      rewrite zero_sum; [exact PL | exact PL | apply Number_zero]. }
    rewrite E. repeat split; try reflexivity; lia. }
  destruct (Number_positive amount 256 ltac:(lia) ltac:(lia))
    as (PA & EA & BA).
  set (A := Number amount) in *. set (L := Number liquidity) in *.
  assert (P257 : 2 ^ (256 + bias) + 2 ^ (256 + bias) = 2 ^ (257 + bias)).
  { replace (257 + bias) with (1 + (256 + bias)) by lia.
    rewrite (Z.pow_add_r 2 1) by lia. change (2 ^ 1) with 2. lia. }
  destruct (positive_sum L A 257 PL PA ltac:(lia) ltac:(lia)) as [PS ES].
  set (S := (L + A)%float) in *.
  destruct (mag_on_grid A PA) as [GA GA2].
  assert (MA : 0 < mag bias (Prim2SF A))
    by (pose proof (Z.pow_pos_nonneg 2 bias); lia).
  assert (SA : mag bias (Prim2SF A) <= mag bias (Prim2SF S)).
  { rewrite ES, <- GA at 1. apply nearest_mono. lia. }
  assert (S257 : mag bias (Prim2SF S) <= 2 ^ (257 + bias)).
  { rewrite ES, <- (nearest_pow2 257) by lia. apply nearest_mono. lia. }
  pose proof (ratio_nonneg A S PA PS) as NR. fold impact in NR.
  assert (N0 : nonneg (Prim2SF 0)) by exact I.
  assert (N1 : nonneg (Prim2SF 1)) by reflexivity.
  assert (Nh : nonneg (Prim2SF 0.5)) by reflexivity.
  split; [|split; [|split; [lia|]]].
  - rewrite (leb_mag bias) by (auto; lia). apply Z.leb_le.
    rewrite SF_zero. apply mag_nonneg.
  - rewrite (leb_mag bias) by (auto; lia). apply Z.leb_le. rewrite mag_unit.
    destruct (ratio_upper A S 0 0 PA PS ltac:(lia) ltac:(lia) ltac:(lia))
      as [_ U]; [lia|]. exact U.
  - intros _. split; [|split].
    + destruct (ratio_lower A S 1074 0 PA PS ltac:(lia) ltac:(lia)
                  ltac:(lia)) as [Z0 _].
      { rewrite Z.pow_0_r, Z.mul_1_r.
        apply Z.le_trans with (2 ^ bias * 2 ^ 1074).
        - rewrite <- Z.pow_add_r by lia.
          eapply Z.le_trans; [exact S257|]. apply Z.pow_le_mono_r; lia.
        - apply Z.mul_le_mono_nonneg_r; [apply Z.pow_nonneg|]; lia. }
      fold impact in Z0. rewrite (eqb_zero_false impact NR Z0).
      split; [discriminate | lia].
    + intros Hle.
      assert (LA : mag bias (Prim2SF L) <= mag bias (Prim2SF A))
        by (apply (Number_mono liquidity amount 256); lia).
      destruct (ratio_lower A S 1 0 PA PS ltac:(lia) ltac:(lia)
                  ltac:(lia)) as [_ V].
      { rewrite Z.pow_0_r, Z.mul_1_r. change (2 ^ 1) with 2.
        rewrite Z.mul_comm, <- GA2, ES. apply nearest_mono. lia. }
      fold impact in V.
      rewrite (leb_mag bias) by (auto; lia). apply Z.leb_le.
      rewrite mag_half. replace (bias - 1) with (0 - 1 + bias) by lia.
      exact V.
    + intros Hle.
      assert (LA : mag bias (Prim2SF A) <= mag bias (Prim2SF L))
        by (apply (Number_mono amount liquidity 256); lia).
      destruct (ratio_upper A S 1 0 PA PS ltac:(lia) ltac:(lia)
                  ltac:(lia)) as [_ V].
      { rewrite Z.pow_0_r, Z.mul_1_r. change (2 ^ 1) with 2.
        rewrite Z.mul_comm, <- GA2, ES. apply nearest_mono. lia. }
      fold impact in V.
      rewrite (leb_mag bias) by (auto; lia). apply Z.leb_le.
      rewrite mag_half. replace (bias - 1) with (0 - 1 + bias) by lia.
      exact V.
Qed.

Lemma price_impact_on_doubles_witness :
  let impact := calculatePriceImpact 2000000000000000000 10000000000000000000 in
  (0 <=? impact)%float = true /\ (impact <=? 1)%float = true
  /\ (10000000000000000000 = 0 -> impact = 1%float)
  /\ (0 < 10000000000000000000 ->
      ((impact =? 0)%float = true <-> 2000000000000000000 = 0)
      /\ (10000000000000000000 <= 2000000000000000000 ->
          (0.5 <=? impact)%float = true)
      /\ (2000000000000000000 <= 10000000000000000000 ->
          (impact <=? 0.5)%float = true)).
Proof.
  apply (price_impact_on_doubles 2000000000000000000 10000000000000000000);
    split; vm_compute; congruence.
Defined.

(** With a liquidity of [1n] the sum [1 + 1e18] rounds to [1e18] and the
    impact is exactly 1; the impact of the sample order is the double
    nearest to 1/6. *)
Example price_impact_samples :
  calculatePriceImpact (10 ^ 18) 1 = 1%float
  /\ calculatePriceImpact 2000000000000000000 10000000000000000000
     = 0.16666666666666666%float.
Proof. split; vm_compute; reflexivity. Qed.

End DoubleImpactFacts.

(** ** Oracle monitor: health *)

Module OracleFacts.
Import Security.

Lemma sourceIssues_nil (m : OracleMonitor) (src : string) :
  sourceIssues m src = []
  <-> exists st, sourceStates m !! src = Some st
                 /\ stalenessMs st <= maxStalenessMs m
                 /\ (deviation st <= maxDeviationPercent m)%Q.
Proof.
  unfold sourceIssues. destruct (sourceStates m !! src) as [st|].
  - destruct (Z.ltb_spec (maxStalenessMs m) (stalenessMs st)) as [H|H];
      destruct (num_gt (deviation st) (maxDeviationPercent m)) eqn:E;
      simpl; split; try discriminate.
    + intros (st' & Hst & H1 & _). injection Hst as <-. lia.
    + intros (st' & Hst & H1 & _). injection Hst as <-. lia.
    + intros (st' & Hst & _ & H2). injection Hst as <-.
      apply num_lt_iff in E. lra.
    + intros _. exists st. apply num_lt_false_iff in E. auto.
    + intros _. reflexivity.
  - split; [discriminate|]. intros (st & Hst & _). discriminate.
Qed.

Lemma healthy_sources (m : OracleMonitor) :
  healthy (checkHealth m) = true
  <-> forall src, In src (sources m) -> sourceIssues m src = [].
Proof.
  unfold checkHealth. simpl.
  induction (sources m) as [|src rest IH]; simpl.
  - split; [intros _ src []|reflexivity].
  - destruct (sourceIssues m src) as [|i more] eqn:E; simpl.
    + rewrite IH. split.
      * intros H x [<-|Hx]; [exact E | auto].
      * intros H x Hx. auto.
    + split; [discriminate|]. intros H.
      assert (N : sourceIssues m src = []) by auto.
      congruence.
Qed.

(** X11.  The monitor is healthy exactly when every configured source has
    reported, its recorded staleness is within the limit and its
    recorded deviation is within the limit. *)
Theorem healthy_iff (m : OracleMonitor) :
  healthy (checkHealth m) = true
  <-> forall src, In src (sources m) ->
        exists st, sourceStates m !! src = Some st
                   /\ stalenessMs st <= maxStalenessMs m
                   /\ (deviation st <= maxDeviationPercent m)%Q.
Proof.
  rewrite healthy_sources.
  split; intros H src Hsrc; apply sourceIssues_nil; auto.
Qed.

Lemma no_data_issues (m : OracleMonitor) (srcs : list string) :
  sourceStates m = ∅ ->
  concat (map (sourceIssues m) srcs)
  = map (fun src => src ++ ": No data received") srcs.
Proof.
  intros E. induction srcs as [|s rest IH]; simpl; [reflexivity|].
  rewrite IH. unfold sourceIssues. rewrite E, lookup_empty. reflexivity.
Qed.

(** A monitor that has received nothing reports every configured source
    as missing, in order, and is unhealthy as soon as one source is
    configured. *)
Theorem fresh_monitor_unhealthy
  (srcs : list string) (staleness : option Z) (dev : option Q) :
  issues (checkHealth (new_OracleMonitor srcs staleness dev))
  = map (fun src => src ++ ": No data received") srcs
  /\ healthy (checkHealth (new_OracleMonitor srcs staleness dev))
     = match srcs with [] => true | _ => false end.
Proof.
  unfold checkHealth. cbn [issues healthy sources new_OracleMonitor].
  rewrite no_data_issues by reflexivity.
  split; [reflexivity|]. destruct srcs; reflexivity.
Qed.

End OracleFacts.

(** ** The gates of the pipeline *)

Module GateFacts.
Import PipelineDefs SampleDefs.
Import Json Agent.

Section Gates.

Variable numberToString : Q -> string.
Variable keccak256 : string -> string.
Variable signMessage : string -> string -> string.
Variable chainLogEntry : string -> option string -> Z -> string -> bool.

Local Abbreviation logEvent :=
  (logEvent numberToString keccak256 signMessage chainLogEntry).
Local Abbreviation runGates :=
  (runGates numberToString keccak256 signMessage chainLogEntry).
Local Abbreviation validateWithRiskManagement :=
  (validateWithRiskManagement numberToString keccak256 signMessage chainLogEntry).

Lemma strings_serialisable (l : list string) :
  exists t, serialize numberToString (JArray (map JString l)) = Return (Some t).
Proof.
  induction l as [|a l IH].
  - eexists. reflexivity.
  - destruct IH as [t IH]. simpl in *.
    match type of IH with
    | bind ?items _ = _ => destruct items as [ts|e] eqn:E
    end; [|discriminate].
    simpl. eexists. reflexivity.
Qed.

(** X13.  The probe order of the manipulation gate is a hundredth of the
    liquidity: for positive liquidity, an impact threshold above 1/101
    (the default is 0.02) and no recorded 24h volume, the gate lets the
    call through and writes nothing. *)
Theorem probe_never_blocks (md : MarketData) (now : Z) (s : BaseAgent) :
  0 < liquidity md ->
  (1 # 101 < Security.priceImpactThreshold (whaleDetector s))%Q ->
  default 0 (Security.volume24h (whaleDetector s) !! marketId md) <= 0 ->
  exists s',
    checkForManipulation md now s = Ok (None, false) s'
    /\ ledger s' = ledger s
    /\ drawdownProtector s' = drawdownProtector s
    /\ portfolio s' = portfolio s.
Proof.
  intros HL Ht Hv.
  unfold checkForManipulation, seq, this, modify, ret.
  unfold Security.analyzeOrder, Security.applicableAlerts.
  set (o := {| Security.id := "check";
               Security.marketId := marketId md;
               Security.trader := address (wallet s);
               Security.side := Security.BUY;
               Security.amount := Z.quot (liquidity md) 100;
               Security.price := currentPrice md;
               Security.timestamp := now;
               Security.blockNumber := 0 |}).
  assert (I : Security.impactAlert (whaleDetector s) now o (liquidity md) = []).
  { unfold Security.impactAlert.
    assert (G : num_ge (Security.calculatePriceImpact (Security.amount o)
                          (liquidity md))
                       (Security.priceImpactThreshold (whaleDetector s))
                = false).
    { unfold num_ge. apply num_le_false_iff.
      eapply Qle_lt_trans; [|exact Ht].
      unfold Security.calculatePriceImpact, Number. simpl.
      destruct (Z.eqb_spec (liquidity md) 0) as [E|_]; [lia|].
      rewrite Z.quot_div_nonneg by lia.
      set (a := liquidity md / 100).
      assert (Ha : 0 <= a) by (apply Z.div_pos; lia).
      assert (Hb : 100 * a <= liquidity md) by (apply Z.mul_div_le; lia).
      assert (HaQ : (0 <= inject_Z a)%Q).
      { change 0%Q with (inject_Z 0). now rewrite <- Zle_Qle. }
      assert (HbQ : (100 * inject_Z a <= inject_Z (liquidity md))%Q).
      { change 100%Q with (inject_Z 100). rewrite <- inject_Z_mult.
        now rewrite <- Zle_Qle. }
      assert (HlQ : (0 < inject_Z (liquidity md))%Q).
      { change 0%Q with (inject_Z 0). now rewrite <- Zlt_Qlt. }
      apply Qle_shift_div_r; [lra|]. lra. }
    rewrite G. reflexivity. }
  assert (V : Security.volumeAlert (whaleDetector s) now o = []).
  { unfold Security.volumeAlert. simpl.
    destruct (Z.ltb_spec 0
                (default 0 (Security.volume24h (whaleDetector s) !! marketId md)));
      [lia | reflexivity]. }
  rewrite I, V. simpl.
  unfold Security.sizeAlert.
  destruct (Security.volumeThreshold (whaleDetector s) <=? Security.amount o);
    simpl; eexists; split; try reflexivity; auto.
Qed.

Lemma probe_never_blocks_witness :
  exists s',
    checkForManipulation sampleMarket t0 sampleAgent = Ok (None, false) s'
    /\ ledger s' = ledger sampleAgent
    /\ drawdownProtector s' = drawdownProtector sampleAgent
    /\ portfolio s' = portfolio sampleAgent.
Proof.
  apply (probe_never_blocks sampleMarket t0 sampleAgent).
  - reflexivity.
  - reflexivity.
  - vm_compute. discriminate.
Defined.

(** X14.  A configured oracle source without data stops every call at the
    drawdown or the oracle gate: the call writes the entry of that gate
    and returns null, and the strategy is never consulted. *)
Theorem unfed_oracle_stops_pipeline
  (md : MarketData) (pred : Prediction) (now : Z) (s : BaseAgent) :
  isRunning s = true ->
  tradingEnabled (config s) = true ->
  (exists src, In src (Security.sources (oracleMonitor s))
               /\ Security.sourceStates (oracleMonitor s) !! src = None) ->
  exists site s',
    (site = DrawdownHalt \/ site = OracleUnhealthy)
    /\ (exists e, ledger s' = (ledger s ++ [e])%list
                  /\ Some (Audit.type e) = siteTag site)
    /\ (forall strategy,
           processMarketData_at numberToString keccak256 signMessage
             chainLogEntry strategy md pred now s = Ok (site, None) s')
    /\ (forall strategy,
           processMarketData numberToString keccak256 signMessage
             chainLogEntry strategy md pred now s = Ok None s').
Proof.
  intros Hrun Hen (src & Hin & Hnone).
  assert (U : Security.healthy (Security.checkHealth (oracleMonitor s)) = false).
  { destruct (Security.healthy _) eqn:E; [|reflexivity].
    pose proof (proj1 (OracleFacts.healthy_sources (oracleMonitor s)) E) as F.
    destruct (proj1 (OracleFacts.sourceIssues_nil _ _) (F src Hin))
      as (st & Hst & _).
    congruence. }
  assert (G : exists site s',
             (site = DrawdownHalt \/ site = OracleUnhealthy)
             /\ (exists e, ledger s' = (ledger s ++ [e])%list
                           /\ Some (Audit.type e) = siteTag site)
             /\ runGates md now s = Ok (Some site) s').
  { unfold Agent.runGates, seq, this, modify.
    destruct (Risk.updateValue _ _ _) as [st dp].
    set (s0 := with_drawdownProtector s dp).
    destruct (negb (Risk.canTrade st)).
    - destruct (PipelineSpec.logEvent_ok numberToString keccak256 signMessage
                  chainLogEntry "DRAWDOWN_HALT"
                  (JObject [("status", statusToJS st)]) now s0 _ eq_refl)
        as (l & E & (e & He & Hty & _)).
      exists DrawdownHalt, (with_auditLogger s0 l).
      split; [auto|]. split; [exists e; split; [exact He|]; simpl; congruence|].
      rewrite E. reflexivity.
    - rewrite U. cbn [negb].
      destruct (strings_serialisable
                  (Security.issues (Security.checkHealth (oracleMonitor s))))
        as [t Ht].
      assert (P : exists t', serialize numberToString
                    (JObject [("issues",
                               JArray (map JString
                                 (Security.issues
                                    (Security.checkHealth (oracleMonitor s)))))])
                  = Return t').
      { simpl in *.
        match type of Ht with
        | bind ?items _ = _ => destruct items as [ts|err]; [|discriminate]
        end.
        simpl. eexists. reflexivity. }
      destruct P as [t' Ht'].
      destruct (PipelineSpec.logEvent_ok numberToString keccak256 signMessage
                  chainLogEntry "ORACLE_UNHEALTHY" _ now s0 _ Ht')
        as (l & E & (e & He & Hty & _)).
      exists OracleUnhealthy, (with_auditLogger s0 l).
      split; [auto|]. split; [exists e; split; [exact He|]; simpl; congruence|].
      rewrite E. reflexivity. }
  destruct G as (site & s' & Hsite & He & Hg).
  exists site, s'. split; [exact Hsite|]. split; [exact He|].
  assert (A : forall strategy,
             processMarketData_at numberToString keccak256 signMessage
               chainLogEntry strategy md pred now s = Ok (site, None) s').
  { intros strategy.
    rewrite (PipelineSpec.running_unfold _ _ _ _ strategy md pred now s Hrun Hen).
    unfold tryCatch, Agent.tryBlock, seq. rewrite Hg. reflexivity. }
  split; [exact A|]. intros strategy.
  exact (PipelineSpec.result_of_at _ _ _ _ strategy _ _ _ _ _ _ _ (A strategy)).
Qed.

(** X15.  A decision that leaves risk validation was proposed with sufficient
    confidence.  If it is the sized proposal, its amount is positive and
    at most the position limit of the portfolio, the rest of the proposal
    is unchanged and nothing was logged; if it is a stop-loss override,
    it sells the whole position held in that market with confidence 1. *)
Theorem validated_decision (d : TradeDecision) (md : MarketData) (now : Z)
  (s s' : BaseAgent) (site : ValidationSite) (vd : TradeDecision) :
  validateWithRiskManagement d md now s = Ok (site, Some vd) s' ->
  num_lt (confidence d) (minConfidenceThreshold (config s)) = false
  /\ match site with
     | Sized =>
         0 < amount vd
         /\ amount vd
            <= Z.quot (Risk.totalValue (portfolio s)
                       * BigInt_floor (maxPositionPercent (config s) * 10000))
                      10000
         /\ vd = withAmount d (amount vd)
         /\ ledger s' = ledger s
     | StopLossOverride =>
         action vd = SELL
         /\ amount vd = getPositionSize s (d_marketId d)
         /\ d_marketId vd = d_marketId d
         /\ confidence vd = 1%Q
     | _ => False
     end.
Proof.
  unfold Agent.validateWithRiskManagement, seq, this, modify, ret, lift.
  destruct (num_lt _ _).
  { destruct (Agent.logEvent _ _ _ _ _ _ _ _); discriminate. }
  destruct (Risk.calculateKellyCriterion _) as [kellySize|err]; [|discriminate].
  set (maxPosition := Z.quot _ 10000).
  set (positionSize := if kellySize <? maxPosition then kellySize else maxPosition).
  assert (Hle : positionSize <= maxPosition).
  { unfold positionSize. destruct (Z.ltb_spec kellySize maxPosition); lia. }
  destruct (Z.leb_spec positionSize 0) as [Hp|Hp]; [discriminate|].
  destruct (stopLossManagers s !! d_marketId d) as [sl|].
  - destruct (Risk.updatePrice sl (currentPrice md)) as [slCheck updated].
    destruct (Risk.shouldExit slCheck).
    + destruct (Agent.logEvent _ _ _ _ _ _ _ _) as [[] s1|e s1];
        [|discriminate].
      intros H. injection H as <- <- <-. simpl. auto.
    + intros H. injection H as <- <- <-. simpl. auto.
  - intros H. injection H as <- <- <-. simpl. auto.
Qed.

End Gates.

Lemma validated_decision_witness :
  num_lt (confidence (proposal BUY (8 # 10)))
         (minConfidenceThreshold (config sampleAgent)) = false
  /\ (0 < amount GateSamples.sizedBuy
      /\ amount GateSamples.sizedBuy
         <= Z.quot (Risk.totalValue (portfolio sampleAgent)
                    * BigInt_floor (maxPositionPercent (config sampleAgent)
                                    * 10000))
                   10000
      /\ GateSamples.sizedBuy
         = withAmount (proposal BUY (8 # 10)) (amount GateSamples.sizedBuy)
      /\ ledger sampleAgent = ledger sampleAgent).
Proof.
  apply (validated_decision LedgerDefs.printNumber LedgerDefs.identityHash
           LedgerDefs.concatSign LedgerDefs.chainAccepts
           (proposal BUY (8 # 10)) sampleMarket t0 sampleAgent sampleAgent
           Sized GateSamples.sizedBuy).
  vm_compute. reflexivity.
Defined.

Lemma unfed_oracle_stops_pipeline_witness :
  exists site s',
    (site = DrawdownHalt \/ site = OracleUnhealthy)
    /\ (exists e, ledger s' = (ledger GateSamples.unfedAgent ++ [e])%list
                  /\ Some (Audit.type e) = siteTag site)
    /\ (forall strategy,
           processMarketData_at LedgerDefs.printNumber LedgerDefs.identityHash
             LedgerDefs.concatSign LedgerDefs.chainAccepts strategy
             sampleMarket samplePrediction t0 GateSamples.unfedAgent
           = Ok (site, None) s')
    /\ (forall strategy,
           processMarketData LedgerDefs.printNumber LedgerDefs.identityHash
             LedgerDefs.concatSign LedgerDefs.chainAccepts strategy
             sampleMarket samplePrediction t0 GateSamples.unfedAgent
           = Ok None s').
Proof.
  apply (unfed_oracle_stops_pipeline LedgerDefs.printNumber
           LedgerDefs.identityHash LedgerDefs.concatSign
           LedgerDefs.chainAccepts sampleMarket samplePrediction t0
           GateSamples.unfedAgent).
  - reflexivity.
  - reflexivity.
  - exists "chainlink". split; [left; reflexivity | reflexivity].
Defined.

End GateFacts.

(** ** The ledger along a run of log calls *)

Module LedgerFacts.
Import LedgerDefs LedgerRuns.
Import Json Audit.

Section Ledger.

Variable numberToString : Q -> string.
Variable keccak256 : string -> string.
Variable signMessage : string -> string -> string.
Variable chainLogEntry : string -> option string -> Z -> string -> bool.

Local Abbreviation log :=
  (log numberToString keccak256 signMessage chainLogEntry).
Local Abbreviation logAll :=
  (logAll numberToString keccak256 signMessage chainLogEntry).
Local Abbreviation verifyEntry := (verifyEntry numberToString keccak256).

Lemma flush_merkleTree (l : AuditLogger) (now : Z) :
  merkleTree (flush chainLogEntry l now) = merkleTree l.
Proof.
  unfold flush. destruct (contract l), (mode l); try reflexivity;
    destruct (forallb _ _); reflexivity.
Qed.

Lemma log_merkleTree (l l' : AuditLogger) (now : Z) (rq : LogRequest)
  (e : AuditEntry) :
  log l now rq = Return (e, l') ->
  exists h, hash e = Some h
            /\ merkleTree l' = (merkleTree l ++ [h])%list.
Proof.
  unfold Audit.log, Audit.generateHash. intros H.
  destruct (Audit.canonical _ _ _ _ _) as [text|err]; simpl in H;
    [|discriminate].
  injection H as He Hl. exists (keccak256 text). subst e. simpl.
  split; [reflexivity|].
  subst l'. destruct (shouldFlush _ _); [rewrite flush_merkleTree|]; reflexivity.
Qed.

(** The stored entry of a successful [log] verifies, on any logger. *)
Lemma logged_entry_verifies (l l' l2 : AuditLogger) (now : Z)
  (rq : LogRequest) (e : AuditEntry) :
  log l now rq = Return (e, l') ->
  verifyEntry l2 e = Return true.
Proof.
  intros H.
  destruct (LedgerSpec.log_returns _ _ _ _ _ _ _ _ _ H)
    as (text & Hcanon & Hhash & _).
  unfold Audit.verifyEntry, Audit.generateHash.
  rewrite Hcanon. simpl. rewrite Hhash.
  rewrite bool_decide_eq_true_2; reflexivity.
Qed.

(** X16.  Along any run of [log] calls the ledger only grows, by at most one
    entry per call; if every stored entry verified before, every stored
    entry verifies after; and the list of Merkle leaves stays the list of
    the stored hashes. *)
Theorem ledger_invariant (l : AuditLogger) (calls : list (Z * LogRequest)) :
  Forall (fun e => verifyEntry l e = Return true) (entries l) ->
  map hash (entries l) = map Some (merkleTree l) ->
  Forall (fun e => verifyEntry (logAll l calls) e = Return true)
         (entries (logAll l calls))
  /\ map hash (entries (logAll l calls))
     = map Some (merkleTree (logAll l calls))
  /\ exists added,
       entries (logAll l calls) = (entries l ++ added)%list
       /\ (length added <= length calls)%nat.
Proof.
  revert l. induction calls as [|[now rq] rest IH]; intros l Hv Hm; simpl.
  - split; [exact Hv|]. split; [exact Hm|].
    exists []. rewrite app_nil_r. auto.
  - destruct (log l now rq) as [[e l1]|err] eqn:E.
    + destruct (LedgerSpec.log_returns _ _ _ _ _ _ _ _ _ E)
        as (text & _ & _ & He & _).
      destruct (log_merkleTree _ _ _ _ _ E) as (h & Hh & Hmt).
      assert (Hv1 : Forall (fun x => verifyEntry l1 x = Return true)
                           (entries l1)).
      { rewrite He. apply Forall_app. split; [exact Hv|].
        constructor; [|constructor].
        exact (logged_entry_verifies _ _ l1 _ _ _ E). }
      assert (Hm1 : map hash (entries l1) = map Some (merkleTree l1)).
      { rewrite He, Hmt, !map_app, Hm. simpl. now rewrite Hh. }
      destruct (IH l1 Hv1 Hm1) as (I1 & I2 & added & I3 & I4).
      split; [exact I1|]. split; [exact I2|].
      exists (e :: added). rewrite I3, He, <- app_assoc. simpl.
      split; [reflexivity | lia].
    + destruct (IH l Hv Hm) as (I1 & I2 & added & I3 & I4).
      split; [exact I1|]. split; [exact I2|].
      exists added. split; [exact I3 | lia].
Qed.

End Ledger.

Lemma ledger_invariant_witness :
  Forall (fun e => verifyEntry printNumber identityHash
                     (LedgerRuns.logAll printNumber identityHash concatSign
                        chainAccepts (new_localLogger 1700000000000)
                        GateSamples.sampleCalls) e = Return true)
         (entries (LedgerRuns.logAll printNumber identityHash concatSign
                     chainAccepts (new_localLogger 1700000000000)
                     GateSamples.sampleCalls))
  /\ map hash (entries (LedgerRuns.logAll printNumber identityHash concatSign
                          chainAccepts (new_localLogger 1700000000000)
                          GateSamples.sampleCalls))
     = map Some (merkleTree (LedgerRuns.logAll printNumber identityHash
                               concatSign chainAccepts
                               (new_localLogger 1700000000000)
                               GateSamples.sampleCalls))
  /\ exists added,
       entries (LedgerRuns.logAll printNumber identityHash concatSign
                  chainAccepts (new_localLogger 1700000000000)
                  GateSamples.sampleCalls)
       = (entries (new_localLogger 1700000000000) ++ added)%list
       /\ (length added <= length GateSamples.sampleCalls)%nat.
Proof.
  apply (ledger_invariant printNumber identityHash concatSign chainAccepts
           (new_localLogger 1700000000000) GateSamples.sampleCalls).
  - constructor.
  - reflexivity.
Defined.

End LedgerFacts.

(** ** Portfolio balancer: rebalancing orders and concentration *)

Module BalancerFacts.
Import BalancerSamples.
Import Risk.

(** X21.  Every rebalancing order is for a market of the target allocations,
    has a positive amount equal to the distance between target value and
    current value, and buys exactly when the market is below target; so
    a market that is held but has no target is never traded.  There is
    at most one order per target. *)
Theorem rebalance_orders_sound (b : PortfolioBalancer) (state : PortfolioState) :
  Forall (fun tr =>
            exists pct,
              In (rt_marketId tr, pct) (targetAllocations b)
              /\ 0 < rt_amount tr
              /\ rt_amount tr
                 = Z.abs (targetValueOf state pct
                          - currentValueOf state (rt_marketId tr))
              /\ (rt_action tr = BUY
                  <-> currentValueOf state (rt_marketId tr)
                      < targetValueOf state pct))
         (calculateRebalanceTrades b state)
  /\ (length (calculateRebalanceTrades b state)
      <= length (targetAllocations b))%nat
  /\ (shouldRebalance b state = true
      <-> calculateRebalanceTrades b state <> []).
Proof.
  unfold shouldRebalance, calculateRebalanceTrades.
  split; [|split].
  - induction (targetAllocations b) as [|[market pct] rest IH]; simpl.
    + constructor.
    + apply Forall_app. split.
      * unfold rebalanceTradeFor. simpl.
        destruct (deviationExceeds _ _ _ _); [|constructor].
        destruct (Z.ltb_spec (currentValueOf state market)
                             (targetValueOf state pct)) as [H|H];
          match goal with
          | |- context [0 <? ?d] => destruct (Z.ltb_spec 0 d) as [Hd|Hd]
          end; constructor; try constructor; simpl.
        -- exists pct. split; [left; reflexivity|].
           split; [lia|]. split; [lia|]. split; auto.
        -- exists pct. split; [left; reflexivity|].
           split; [lia|]. split; [lia|]. split; [discriminate | lia].
      * eapply Forall_impl; [exact IH|].
        intros tr (p & Hin & Hrest). exists p. split; [right; exact Hin|].
        exact Hrest.
  - induction (targetAllocations b) as [|a rest IH]; simpl; [lia|].
    rewrite length_app.
    assert (length (rebalanceTradeFor b state a) <= 1)%nat.
    { unfold rebalanceTradeFor.
      destruct (deviationExceeds _ _ _ _); [|simpl; lia].
      destruct (0 <? _); simpl; lia. }
    lia.
  - destruct (concat _) as [|tr trades].
    + split; [intros H; discriminate H | intros H; now contradict H].
    + split; [intros _ H; discriminate H | reflexivity].
Qed.

(** The sample of the test suite: A is sold down and B bought up by
    2000 each. *)
Example rebalance_sample :
  calculateRebalanceTrades evenBalancer tiltedPortfolio
  = [ {| rt_marketId := "A"; rt_action := SELL; rt_amount := 2000 |};
      {| rt_marketId := "B"; rt_action := BUY; rt_amount := 2000 |} ].
Proof. vm_compute. reflexivity. Qed.

Lemma largest_bounds (ps : list PortfolioPosition) (m0 : Z) :
  let m := fold_left (fun m pos => if m <? positionValue pos
                                   then positionValue pos else m) ps m0 in
  m0 <= m /\ Forall (fun pos => positionValue pos <= m) ps.
Proof.
  revert m0. induction ps as [|pos ps IH]; intros m0; simpl.
  - split; [lia | constructor].
  - destruct (IH (if m0 <? positionValue pos then positionValue pos else m0))
      as [H1 H2].
    destruct (Z.ltb_spec m0 (positionValue pos)); split; try lia;
      constructor; auto; lia.
Qed.

Lemma largest_below (ps : list PortfolioPosition) (m0 bound : Z) :
  m0 <= bound ->
  Forall (fun pos => positionValue pos <= bound) ps ->
  fold_left (fun m pos => if m <? positionValue pos
                          then positionValue pos else m) ps m0 <= bound.
Proof.
  revert m0. induction ps as [|pos ps IH]; intros m0 H0 Hall; simpl.
  - exact H0.
  - inversion Hall; subst. apply IH; [|assumption].
    destruct (m0 <? positionValue pos); assumption.
Qed.

Lemma largest_reached (ps : list PortfolioPosition) (bound : Z) :
  Exists (fun pos => bound <= positionValue pos) ps ->
  bound <= largestPositionValue ps.
Proof.
  intros Hex. apply Exists_exists in Hex as (pos & Hin & Hpos).
  destruct (largest_bounds ps 0) as [_ L]. rewrite Forall_forall in L.
  specialize (L pos Hin). simpl in L. unfold largestPositionValue. lia.
Qed.

Section OnDoubles.
Import RoundingDefs RoundingFacts Binary64Facts OrderDefs OrderFacts.
Import ShapeDefs ShapeFacts DoubleDefs DoubleFacts.
Import QuotientDefs QuotientFacts DivisionFacts NumberFacts RatioFacts.
#[local] Set Warnings "-inexact-float".

(** X22.  On doubles, for a total value between 1 and [2^512] and position
    values below [2^512], the concentration risk is a finite number that
    is not negative.  It is at most 1 when no position is worth more
    than the total and at least 1 when some position is worth the total
    or more; it is 0 when no position has a positive value (in
    particular without positions) and positive otherwise. *)
Theorem concentration_risk_on_doubles (b : PortfolioBalancer)
  (state : PortfolioState) :
  0 < totalValue state < 2 ^ 512 ->
  Forall (fun pos => positionValue pos < 2 ^ 512) (positions state) ->
  let risk := Double.calculateConcentrationRisk b state in
  (0 <=? risk)%float = true /\ (risk <? infinity)%float = true
  /\ (Forall (fun pos => positionValue pos <= totalValue state)
             (positions state) -> (risk <=? 1)%float = true)
  /\ (Exists (fun pos => totalValue state <= positionValue pos)
             (positions state) -> (1 <=? risk)%float = true)
  /\ (Forall (fun pos => positionValue pos <= 0) (positions state) ->
      risk = 0%float)
  /\ (Exists (fun pos => 0 < positionValue pos) (positions state) ->
      (0 <? risk)%float = true)
  /\ (positions state = [] -> risk = 0%float).
Proof.
  intros [Ht Ht'] Hall risk.
  unfold Double.calculateConcentrationRisk in risk.
  assert (Hb : bias = 2200) by reflexivity.
  destruct (positions state) as [|p ps] eqn:E.
  { subst risk. repeat split; try reflexivity.
    - intros H. inversion H.
    - intros H. inversion H. }
  destruct (largest_bounds (p :: ps) 0) as [L0 L1].
  fold (largestPositionValue (p :: ps)) in L0, L1.
  assert (Lt : largestPositionValue (p :: ps) <= 2 ^ 512).
  { unfold largestPositionValue. apply largest_below; [lia|].
    eapply Forall_impl; [exact Hall|]. intros pos Hp. simpl in Hp |- *. lia. }
  set (mx := largestPositionValue (p :: ps)) in *.
  destruct (Number_positive (totalValue state) 512 ltac:(lia) ltac:(lia))
    as (PT & ET & BT).
  assert (N0 : nonneg (Prim2SF 0)) by exact I.
  assert (N1 : nonneg (Prim2SF 1)) by reflexivity.
  destruct (Z.eq_dec mx 0) as [Z0|NZ].
  { (* no position has a positive value *)
    assert (Er : risk = 0%float).
    { unfold risk. rewrite Z0. apply zero_ratio; [apply Number_zero | exact PT]. }
    rewrite Er. split; [reflexivity|]. split; [reflexivity|].
    split; [reflexivity|]. split; [|split; [reflexivity|split; [|discriminate]]].
    - intros Hex. apply (largest_reached (p :: ps)) in Hex. fold mx in Hex. lia.
    - intros Hex.
      assert (1 <= mx).
      { apply (largest_reached (p :: ps)).
        eapply Exists_impl; [exact Hex|]. intros pos Hp. simpl in Hp |- *. lia. }
      lia. }
  destruct (Number_positive mx 512 ltac:(lia) ltac:(lia)) as (PM & EM & BM).
  set (M := Double.Number mx) in *.
  set (T := Double.Number (totalValue state)) in *.
  pose proof (ratio_nonneg M T PM PT) as NR. fold risk in NR.
  assert (P0 : 0 < 2 ^ bias) by (apply Z.pow_pos_nonneg; lia).
  assert (Pos : isZero (Prim2SF risk) = false
                /\ 2 ^ (0 - 512 + bias) <= mag bias (Prim2SF risk)).
  { apply (ratio_lower M T 512 0 PM PT); try lia.
    rewrite Z.pow_0_r, Z.mul_1_r.
    apply Z.le_trans with (2 ^ bias * 2 ^ 512).
    - rewrite <- Z.pow_add_r by lia. rewrite Z.add_comm. lia.
    - apply Z.mul_le_mono_nonneg_r; [apply Z.pow_nonneg|]; lia. }
  destruct Pos as [Zr Lr].
  assert (Fin : mag bias (Prim2SF risk) <= 2 ^ (512 - 0 + bias)).
  { apply (ratio_upper M T 0 512 PM PT); try lia.
    rewrite Z.pow_0_r, Z.mul_1_r.
    apply Z.le_trans with (2 ^ bias * 2 ^ 512).
    - rewrite <- Z.pow_add_r by lia. rewrite Z.add_comm. lia.
    - apply Z.mul_le_mono_nonneg_r; [apply Z.pow_nonneg|]; lia. }
  split; [|split; [|split; [|split; [|split; [|split; [|discriminate]]]]]].
  - rewrite (leb_mag bias) by (auto; lia). apply Z.leb_le.
    rewrite SF_zero. apply mag_nonneg.
  - apply (ltb_infinity risk 512); [exact NR | lia | exact Fin].
  - intros Hle.
    assert (mx <= totalValue state).
    { unfold mx, largestPositionValue. apply largest_below; [lia | exact Hle]. }
    rewrite (leb_mag bias) by (auto; lia). apply Z.leb_le. rewrite mag_unit.
    destruct (ratio_upper M T 0 0 PM PT ltac:(lia) ltac:(lia) ltac:(lia))
      as [_ U]; [|exact U].
    rewrite Z.pow_0_r, !Z.mul_1_r.
    apply (Number_mono mx (totalValue state) 512); lia.
  - intros Hex. apply (largest_reached (p :: ps)) in Hex. fold mx in Hex.
    rewrite (leb_mag bias) by (auto; lia). apply Z.leb_le. rewrite mag_unit.
    destruct (ratio_lower M T 0 0 PM PT ltac:(lia) ltac:(lia) ltac:(lia))
      as [_ U]; [|exact U].
    rewrite Z.pow_0_r, !Z.mul_1_r.
    apply (Number_mono (totalValue state) mx 512); lia.
  - intros Hle.
    assert (mx <= 0).
    { unfold mx, largestPositionValue. apply largest_below; [lia | exact Hle]. }
    lia.
  - intros _. rewrite (ltb_mag bias) by (auto; lia). apply Z.ltb_lt.
    rewrite SF_zero. cbn [mag].
    pose proof (Z.pow_pos_nonneg 2 (0 - 512 + bias)). lia.
Qed.

Lemma concentration_risk_on_doubles_witness :
  let risk := Double.calculateConcentrationRisk evenBalancer tiltedPortfolio in
  (0 <=? risk)%float = true /\ (risk <? infinity)%float = true
  /\ (Forall (fun pos => positionValue pos <= totalValue tiltedPortfolio)
             (positions tiltedPortfolio) -> (risk <=? 1)%float = true)
  /\ (Exists (fun pos => totalValue tiltedPortfolio <= positionValue pos)
             (positions tiltedPortfolio) -> (1 <=? risk)%float = true)
  /\ (Forall (fun pos => positionValue pos <= 0)
             (positions tiltedPortfolio) -> risk = 0%float)
  /\ (Exists (fun pos => 0 < positionValue pos)
             (positions tiltedPortfolio) -> (0 <? risk)%float = true)
  /\ (positions tiltedPortfolio = [] -> risk = 0%float).
Proof.
  apply (concentration_risk_on_doubles evenBalancer tiltedPortfolio).
  - split; vm_compute; congruence.
  - repeat constructor.
Defined.

(** The largest position of the tilted portfolio is 7000 of 10000; one
    third is the double below 1/3. *)
Example concentration_risk_samples :
  Double.calculateConcentrationRisk evenBalancer tiltedPortfolio = 0.7%float
  /\ Double.calculateConcentrationRisk evenBalancer
       {| totalValue := 3; positions := [holding "A" 1 1]; cash := 0;
          lastRebalance := 0 |} = 0.33333333333333331%float.
Proof. split; vm_compute; reflexivity. Qed.

End OnDoubles.

(** With positions and a total value of zero the quotient is not a
    finite number. *)
Example concentration_risk_undefined :
  calculateConcentrationRisk evenBalancer
    {| totalValue := 0; positions := [holding "A" 1 1]; cash := 0;
       lastRebalance := 0 |} = None.
Proof. reflexivity. Qed.

End BalancerFacts.

(** ** Lifecycle, bookkeeping and the conservative strategy *)

Module LifecycleFacts.
Import PipelineDefs BookDefs.
Import Json Agent.

Section Lifecycle.

Variable numberToString : Q -> string.
Variable keccak256 : string -> string.
Variable signMessage : string -> string -> string.
Variable chainLogEntry : string -> option string -> Z -> string -> bool.

Local Abbreviation logEvent :=
  (logEvent numberToString keccak256 signMessage chainLogEntry).
Local Abbreviation start :=
  (start numberToString keccak256 signMessage chainLogEntry).
Local Abbreviation stop :=
  (stop numberToString keccak256 signMessage chainLogEntry).
Local Abbreviation updatePosition :=
  (updatePosition numberToString keccak256 signMessage chainLogEntry).
Local Abbreviation executeTrade :=
  (executeTrade numberToString keccak256 signMessage chainLogEntry).
Local Abbreviation sellAll :=
  (sellAll numberToString keccak256 signMessage chainLogEntry).
Local Abbreviation emergencyDeRisk :=
  (emergencyDeRisk numberToString keccak256 signMessage chainLogEntry).

Lemma logEvent_throws (ty : string) (d : JSValue) (now : Z) (s : BaseAgent)
  (err : JSError) :
  serialize numberToString d = Throw err ->
  logEvent ty d now s = Raised err s.
Proof.
  intros S.
  destruct (PipelineSpec.logEvent_cases numberToString keccak256 signMessage
              chainLogEntry ty d now s)
    as [(l & _ & _ & t & St) | (err' & E & S')]; congruence.
Qed.

Lemma config_not_serialisable (c : AgentConfig) :
  serialize numberToString (JObject [("config", configToJS c)])
  = Throw bigintError.
Proof.
  unfold configToJS. destruct (takeProfitPercent c); reflexivity.
Qed.

Lemma portfolio_not_serialisable (p : Risk.PortfolioState) :
  serialize numberToString (JObject [("finalPortfolio", portfolioToJS p)])
  = Throw bigintError.
Proof. reflexivity. Qed.

(** X23.  [start] and [stop] switch the running flag and then reject: the
    configuration and the portfolio hold bigints, which
    [JSON.stringify] refuses, so neither an AGENT_START nor an
    AGENT_STOP entry is ever written. *)
Theorem start_stop_reject (now : Z) (s : BaseAgent) :
  start now s = Raised bigintError (with_isRunning s true)
  /\ stop now s = Raised bigintError (with_isRunning s false)
  /\ ledger (with_isRunning s true) = ledger s
  /\ ledger (with_isRunning s false) = ledger s.
Proof.
  unfold Agent.start, Agent.stop, seq, modify, this.
  split; [|split; [|split; reflexivity]].
  - apply logEvent_throws, config_not_serialisable.
  - apply logEvent_throws, portfolio_not_serialisable.
Qed.

Lemma update_not_serialisable (market : string) (amount price : Z)
  (isBuy : bool) (p : Risk.PortfolioState) :
  serialize numberToString
    (JObject [("marketId", JString market); ("amount", JBigInt amount);
              ("price", JBigInt price); ("isBuy", JBool isBuy);
              ("portfolio", portfolioToJS p)])
  = Throw bigintError.
Proof. reflexivity. Qed.

(** X24.  [updatePosition] never returns.  Either the averaged position would
    have size zero and the division throws before anything is changed,
    or the books are updated (cash moved by amount times price, total
    value recomputed as cash plus positions) and writing the
    POSITION_UPDATE entry throws on its bigints.  The ledger is the
    same afterwards in both cases. *)
Theorem updatePosition_rejects (market : string) (amount price : Z)
  (isBuy : bool) (now : Z) (s : BaseAgent) :
  exists err s',
    updatePosition market amount price isBuy now s = Raised err s'
    /\ ledger s' = ledger s
    /\ ((err = divisionByZero /\ s' = s /\ isBuy = true
         /\ exists existing,
              List.find (isMarket market) (Risk.positions (portfolio s))
              = Some existing
              /\ Risk.position existing + amount = 0)
        \/ (err = bigintError /\ balanced s'
            /\ Risk.cash (portfolio s')
               = Risk.cash (portfolio s)
                 + (if isBuy then - (amount * price) else amount * price))).
Proof.
  unfold Agent.updatePosition, seq, this.
  destruct isBuy.
  - destruct (List.find _ _) as [existing|] eqn:F.
    + destruct (Z.eqb_spec (Risk.position existing + amount) 0) as [Z0|NZ].
      * exists divisionByZero, s. split; [reflexivity|].
        split; [reflexivity|]. left. eauto 10.
      * eexists bigintError, _. unfold setPositions, addCash, updateTotalValue,
          modify. simpl.
        split; [apply logEvent_throws, update_not_serialisable|].
        split; [reflexivity|]. right. split; [reflexivity|].
        split; reflexivity.
    + eexists bigintError, _. unfold setPositions, addCash, updateTotalValue,
        modify. simpl.
      split; [apply logEvent_throws, update_not_serialisable|].
      split; [reflexivity|]. right. split; [reflexivity|].
      split; reflexivity.
  - destruct (List.find _ _) as [existing|] eqn:F.
    + destruct (Risk.position existing - amount <=? 0);
        eexists bigintError, _;
        unfold setPositions, addCash, updateTotalValue, modify, ret; simpl;
        (split; [apply logEvent_throws, update_not_serialisable|]);
        (split; [reflexivity|]); right; (split; [reflexivity|]);
        split; reflexivity.
    + eexists bigintError, _. unfold setPositions, addCash, updateTotalValue,
        modify, ret. simpl.
      split; [apply logEvent_throws, update_not_serialisable|].
      split; [reflexivity|]. right. split; [reflexivity|].
      split; reflexivity.
Qed.

Lemma isMarket_eq (market : string) (p : Risk.PortfolioPosition) :
  isMarket market p = true <-> Risk.pos_marketId p = market.
Proof. unfold isMarket. apply String.eqb_eq. Qed.

Lemma find_market_some (market : string) (ps : list Risk.PortfolioPosition)
  (existing : Risk.PortfolioPosition) :
  List.find (isMarket market) ps = Some existing ->
  In existing ps /\ Risk.pos_marketId existing = market.
Proof.
  intros F. apply find_some in F as [Hin Hm].
  split; [exact Hin | now apply isMarket_eq].
Qed.

Lemma find_market_none (market : string) (ps : list Risk.PortfolioPosition) :
  List.find (isMarket market) ps = None ->
  ~ In market (map Risk.pos_marketId ps).
Proof.
  intros F Hin. apply in_map_iff in Hin as (p & Hp & Hin).
  pose proof (find_none _ _ F p Hin) as H.
  apply isMarket_eq in Hp. congruence.
Qed.

Lemma replaceFirst_markets (market : string) (q : Risk.PortfolioPosition)
  (ps : list Risk.PortfolioPosition) :
  Risk.pos_marketId q = market ->
  map Risk.pos_marketId (replaceFirst market q ps)
  = map Risk.pos_marketId ps.
Proof.
  intros Hq. induction ps as [|p ps IH]; simpl; [reflexivity|].
  destruct (isMarket market p) eqn:E; simpl.
  - apply isMarket_eq in E. congruence.
  - now rewrite IH.
Qed.

Lemma replaceFirst_Forall (P : Risk.PortfolioPosition -> Prop)
  (market : string) (q : Risk.PortfolioPosition)
  (ps : list Risk.PortfolioPosition) :
  P q -> Forall P ps -> Forall P (replaceFirst market q ps).
Proof.
  intros Hq. induction 1 as [|p ps Hp Hps IH]; simpl; [constructor|].
  destruct (isMarket market p); constructor; assumption.
Qed.

Lemma replaceFirst_filter (market : string) (q : Risk.PortfolioPosition)
  (ps : list Risk.PortfolioPosition) :
  Risk.pos_marketId q = market ->
  List.filter (fun p => negb (isMarket market p)) (replaceFirst market q ps)
  = List.filter (fun p => negb (isMarket market p)) ps.
Proof.
  intros Hq. induction ps as [|p ps IH]; simpl; [reflexivity|].
  destruct (isMarket market p) eqn:E; simpl.
  - apply isMarket_eq in Hq. now rewrite Hq.
  - rewrite E. simpl. now rewrite IH.
Qed.

Lemma filter_markets (market : string) (ps : list Risk.PortfolioPosition) :
  NoDup (map Risk.pos_marketId ps) ->
  NoDup (map Risk.pos_marketId
           (List.filter (fun p => negb (isMarket market p)) ps))
  /\ forall m,
       In m (map Risk.pos_marketId
               (List.filter (fun p => negb (isMarket market p)) ps))
       <-> In m (map Risk.pos_marketId ps) /\ m <> market.
Proof.
  induction ps as [|p ps IH]; simpl; intros ND.
  - split; [constructor | tauto].
  - apply NoDup_cons in ND as [Hnin ND]. rewrite list_elem_of_In in Hnin.
    destruct (IH ND) as [IH1 IH2].
    destruct (isMarket market p) eqn:E; simpl.
    + apply isMarket_eq in E. split; [exact IH1|].
      intros m. rewrite IH2. split; [tauto|].
      intros [[Hm|Hm] Hne]; [congruence | tauto].
    + assert (Hp : Risk.pos_marketId p <> market).
      { intros Hm. apply isMarket_eq in Hm. congruence. }
      split.
      * apply NoDup_cons. split; [|exact IH1].
        rewrite list_elem_of_In. intros Hin. apply IH2 in Hin. tauto.
      * intros m. rewrite IH2. split; [|tauto].
        intros [Hm|Hm]; [|tauto]. subst m. tauto.
Qed.

(** X25.  Books in order stay in order: when every position is of positive
    size with one position and one stop-loss manager per market held,
    an update for a positive amount (purchases) or any amount (sales)
    never divides by zero and leaves books of the same kind, although
    the call itself rejects. *)
Theorem books_stay_in_order (market : string) (amount price : Z)
  (isBuy : bool) (now : Z) (s : BaseAgent) :
  inOrder s ->
  (isBuy = true -> 0 < amount) ->
  exists s',
    updatePosition market amount price isBuy now s = Raised bigintError s'
    /\ inOrder s'.
Proof.
  intros (ND & Pos & Man) Hamt.
  unfold Agent.updatePosition, seq, this.
  destruct isBuy.
  - specialize (Hamt eq_refl).
    destruct (List.find _ _) as [existing|] eqn:F.
    + destruct (find_market_some _ _ _ F) as [Hin Hm].
      assert (Hpos : 0 < Risk.position existing).
      { rewrite List.Forall_forall in Pos. now apply Pos. }
      destruct (Z.eqb_spec (Risk.position existing + amount) 0) as [Z0|NZ];
        [lia|].
      eexists. unfold setPositions, addCash, updateTotalValue, modify. simpl.
      split; [apply logEvent_throws, update_not_serialisable|].
      unfold inOrder, markets. simpl.
      rewrite replaceFirst_markets by exact Hm.
      split; [exact ND|]. split.
      * apply replaceFirst_Forall; [simpl; lia | exact Pos].
      * intros m. rewrite lookup_insert_is_Some. rewrite (Man m).
        unfold markets.
        split; [|destruct (String.string_dec market m); tauto].
        intros [Hmm|[_ H]]; [|exact H]. subst m.
        apply in_map_iff. exists existing. split; assumption.
    + pose proof (find_market_none _ _ F) as Hnin.
      eexists. unfold setPositions, addCash, updateTotalValue, modify. simpl.
      split; [apply logEvent_throws, update_not_serialisable|].
      unfold inOrder, markets. simpl. rewrite map_app. simpl.
      split; [|split].
      * apply NoDup_app. split; [exact ND|]. split.
        -- intros m Hm1 Hm2. apply list_elem_of_In in Hm1.
           apply list_elem_of_In in Hm2. destruct Hm2 as [<-|[]]. tauto.
        -- apply NoDup_singleton.
      * apply Forall_app. split; [exact Pos|]. constructor; [simpl; lia|].
        constructor.
      * intros m. rewrite lookup_insert_is_Some, in_app_iff, (Man m).
        unfold markets. simpl.
        destruct (String.string_dec market m) as [->|Hne]; tauto.
  - destruct (List.find _ _) as [existing|] eqn:F.
    + destruct (find_market_some _ _ _ F) as [Hin Hm].
      destruct (Z.leb_spec (Risk.position existing - amount) 0) as [Hle|Hgt].
      * eexists. unfold setPositions, addCash, updateTotalValue, modify.
        simpl.
        split; [apply logEvent_throws, update_not_serialisable|].
        unfold inOrder, markets. simpl.
        rewrite replaceFirst_filter by exact Hm.
        destruct (filter_markets market _ ND) as [ND' In'].
        split; [exact ND'|]. split.
        -- rewrite List.Forall_forall in *. intros p Hp.
           apply filter_In in Hp as [Hp _]. now apply Pos.
        -- intros m. rewrite lookup_delete_is_Some, In', (Man m).
           unfold markets. intuition congruence.
      * eexists. unfold setPositions, addCash, updateTotalValue, modify, ret.
        simpl.
        split; [apply logEvent_throws, update_not_serialisable|].
        unfold inOrder, markets. simpl.
        rewrite replaceFirst_markets by exact Hm.
        split; [exact ND|]. split.
        -- apply replaceFirst_Forall; [simpl; lia | exact Pos].
        -- exact Man.
    + eexists. unfold setPositions, addCash, updateTotalValue, modify, ret.
      simpl.
      split; [apply logEvent_throws, update_not_serialisable|].
      unfold inOrder, markets. simpl. auto.
Qed.

Lemma failure_not_serialisable (d : TradeDecision) (text : string) :
  serialize numberToString
    (JObject [("decision", decisionToJS d); ("error", JString text)])
  = Throw bigintError.
Proof. reflexivity. Qed.

Lemma executeTrade_raises (decision : TradeDecision) (now : Z)
  (s : BaseAgent) :
  executeTrade decision now s = Raised bigintError s.
Proof.
  unfold Agent.executeTrade, tryCatch, seq.
  rewrite (logEvent_throws "EXECUTING_TRADE" _ now s bigintError
             (PipelineSpec.decision_not_serialisable numberToString decision)).
  rewrite (logEvent_throws "TRADE_FAILED" _ now s bigintError
             (failure_not_serialisable decision _)).
  reflexivity.
Qed.

Lemma sellAll_cases (held : list Risk.PortfolioPosition) (now : Z)
  (s : BaseAgent) :
  (held = [] /\ sellAll held now s = Ok tt s)
  \/ (held <> [] /\ sellAll held now s = Raised bigintError s).
Proof.
  destruct held as [|position rest]; [left; split; reflexivity|].
  right. split; [discriminate|]. simpl. unfold seq.
  fold (executeTrade). now rewrite executeTrade_raises.
Qed.

(** X26.  No trade is ever executed.  [executeTrade] never reaches
    [updatePosition]: its first audit entry holds the decision, whose
    amount is a bigint, and so does the TRADE_FAILED entry of its
    [catch] block; the call rejects and the agent, its portfolio and
    its ledger are as before.  [emergencyDeRisk] therefore sells
    nothing: it writes the EMERGENCY_DERISK_START entry and rejects, at
    the first position or, without positions, at the closing entry that
    holds the cash as a bigint. *)
Theorem trades_never_executed (decision : TradeDecision) (now : Z)
  (s : BaseAgent) :
  executeTrade decision now s = Raised bigintError s
  /\ exists l,
       emergencyDeRisk now s = Raised bigintError (with_auditLogger s l)
       /\ appended s (with_auditLogger s l) "EMERGENCY_DERISK_START"
                   (JObject []).
Proof.
  split; [apply executeTrade_raises|].
  destruct (PipelineSpec.logEvent_ok numberToString keccak256 signMessage
              chainLogEntry "EMERGENCY_DERISK_START" (JObject []) now s
              (Some "{}") eq_refl) as (l & E & A).
  exists l. split; [|exact A].
  unfold Agent.emergencyDeRisk, seq, this. rewrite E.
  destruct (sellAll_cases (Risk.positions (portfolio (with_auditLogger s l)))
              now (with_auditLogger s l)) as [[_ ->] | [_ ->]];
    [|reflexivity].
  apply logEvent_throws. reflexivity.
Qed.

Local Abbreviation makeTradingDecision :=
  (makeTradingDecision numberToString keccak256 signMessage chainLogEntry).
Local Abbreviation processMarketData :=
  (fun maxVolatility =>
     processMarketData numberToString keccak256 signMessage chainLogEntry
       (makeTradingDecision maxVolatility)).

Lemma strategy_appends (maxVolatility : Q) (md : MarketData)
  (pred : Prediction) (now : Z) (s : BaseAgent) :
  exists added,
    ledger (outcomeState (makeTradingDecision maxVolatility md pred now s))
    = (ledger s ++ added)%list.
Proof.
  assert (Hlog : forall ty d t,
             serialize numberToString d = Return t ->
             exists added,
               ledger (outcomeState
                         (seq (logEvent ty d now)
                              (fun _ => ret (@None TradeDecision)) s))
               = (ledger s ++ added)%list).
  { intros ty d t St.
    destruct (PipelineSpec.logEvent_ok numberToString keccak256 signMessage
                chainLogEntry ty d now s t St) as (l & E & e & He & _).
    unfold seq. rewrite E. simpl. exists [e]. exact He. }
  assert (Hnone : exists added, ledger s = (ledger s ++ added)%list)
    by (exists []; now rewrite app_nil_r).
  unfold Agent.makeTradingDecision.
  unfold seq at 1. unfold this at 1.
  destruct (num_lt (p_confidence pred) _); [exact Hnone|].
  destruct (liquidity md <? 500000000000000000);
    [eapply Hlog; reflexivity|].
  destruct (num_gt (volatility md) maxVolatility);
    [eapply Hlog; reflexivity|].
  unfold seq, this, ret.
  destruct (outcome pred);
    [destruct (0 <? _) | destruct (_ <=? 0)]; exact Hnone.
Qed.

(** X27.  What the conservative strategy proposes.  It never throws and
    writes at most one entry, for an illiquid or a volatile market.  A
    proposal changes nothing; it is made only for a prediction at or
    above the confidence threshold on a market with at least 0.5 ETH of
    liquidity and no excess volatility; it is a purchase only when no
    position is held in the market, and a sale only of the whole
    position that is held. *)
Theorem strategy_proposals (maxVolatility : Q) (md : MarketData)
  (pred : Prediction) (now : Z) (s : BaseAgent) :
  exists od s',
    makeTradingDecision maxVolatility md pred now s = Ok od s'
    /\ match od with
       | None =>
           s' = s
           \/ (liquidity md < 500000000000000000
               /\ appended s s' "LOW_LIQUIDITY"
                    (JObject [("marketId", JString (marketId md))]))
           \/ (num_gt (volatility md) maxVolatility = true
               /\ appended s s' "HIGH_VOLATILITY_SKIP"
                    (JObject [("volatility", JNumber (volatility md));
                              ("max", JNumber maxVolatility)]))
       | Some d =>
           s' = s
           /\ num_lt (p_confidence pred) (minConfidenceThreshold (config s))
              = false
           /\ 500000000000000000 <= liquidity md
           /\ num_gt (volatility md) maxVolatility = false
           /\ d_marketId d = marketId md
           /\ confidence d = p_confidence pred
           /\ ((action d = BUY /\ outcome pred = true
                /\ getPositionSize s (marketId md) <= 0 /\ amount d = 0)
               \/ (action d = SELL /\ outcome pred = false
                   /\ 0 < getPositionSize s (marketId md)
                   /\ amount d = getPositionSize s (marketId md)))
       end.
Proof.
  unfold Agent.makeTradingDecision, seq, this, ret.
  destruct (num_lt (p_confidence pred) _) eqn:C.
  { exists None, s. split; [reflexivity | left; reflexivity]. }
  destruct (Z.ltb_spec (liquidity md) 500000000000000000) as [L|L].
  { destruct (PipelineSpec.logEvent_ok numberToString keccak256 signMessage
                chainLogEntry "LOW_LIQUIDITY"
                (JObject [("marketId", JString (marketId md))]) now s
                _ eq_refl) as (l & -> & A).
    exists None, (with_auditLogger s l). split; [reflexivity|].
    right. left. split; assumption. }
  destruct (num_gt (volatility md) maxVolatility) eqn:V.
  { destruct (PipelineSpec.logEvent_ok numberToString keccak256 signMessage
                chainLogEntry "HIGH_VOLATILITY_SKIP"
                (JObject [("volatility", JNumber (volatility md));
                          ("max", JNumber maxVolatility)]) now s
                _ eq_refl) as (l & -> & A).
    exists None, (with_auditLogger s l). split; [reflexivity|].
    right. right. split; [reflexivity | exact A]. }
  destruct (outcome pred) eqn:O.
  - destruct (Z.ltb_spec 0 (getPositionSize s (marketId md))) as [G|G].
    + exists None, s. split; [reflexivity | left; reflexivity].
    + eexists (Some _), s. split; [reflexivity|]. simpl.
      repeat (split; [first [reflexivity | assumption]|]).
      left. repeat split; first [reflexivity | assumption].
  - destruct (Z.leb_spec (getPositionSize s (marketId md)) 0) as [G|G].
    + exists None, s. split; [reflexivity | left; reflexivity].
    + eexists (Some _), s. split; [reflexivity|]. simpl.
      repeat (split; [first [reflexivity | assumption]|]).
      right. repeat split; first [reflexivity | assumption].
Qed.

(** X28.  The conservative bot never returns a decision from
    [processMarketData], whatever the market, the prediction and the
    state of the agent: a proposal that passes risk validation fails to
    be written to the ledger (its amount is a bigint) and the [catch]
    block returns null. *)
Theorem conservative_bot_returns_null (maxVolatility : Q) (md : MarketData)
  (pred : Prediction) (now : Z) (s : BaseAgent) :
  exists s', processMarketData maxVolatility md pred now s = Ok None s'.
Proof.
  apply PipelineSpec.never_returns_decision.
  intros s0. apply strategy_appends.
Qed.

End Lifecycle.

Lemma books_stay_in_order_witness :
  exists s',
    Agent.updatePosition LedgerDefs.printNumber LedgerDefs.identityHash
      LedgerDefs.concatSign LedgerDefs.chainAccepts "A" 3 120 true
      SampleDefs.t0 holdingAgent
    = Raised bigintError s'
    /\ inOrder s'.
Proof.
  apply (books_stay_in_order LedgerDefs.printNumber LedgerDefs.identityHash
           LedgerDefs.concatSign LedgerDefs.chainAccepts "A" 3 120 true
           SampleDefs.t0 holdingAgent).
  - split; [|split].
    + apply NoDup_singleton.
    + repeat constructor.
    + intros market. unfold holdingAgent, markets. simpl.
      rewrite lookup_insert_is_Some, lookup_empty, is_Some_alt.
      intuition discriminate.
  - intros _. reflexivity.
Defined.

(** The averaged position of the sample: 5 units at 100 and 3 at 120
    are 8 units at 107, and the stop loss is set anew at 120. *)
Example averaged_position :
  let s' := outcomeState
              (Agent.updatePosition LedgerDefs.printNumber
                 LedgerDefs.identityHash LedgerDefs.concatSign
                 LedgerDefs.chainAccepts "A" 3 120 true SampleDefs.t0
                 holdingAgent) in
  map (fun p => (Risk.position p, Risk.pos_entryPrice p))
      (Risk.positions (portfolio s')) = [(8, 107)]
  /\ Risk.cash (portfolio s') = Risk.cash (portfolio holdingAgent) - 360
  /\ option_map (fun m => Risk.entryPrice (Risk.params m))
                (stopLossManagers s' !! "A") = Some 120.
Proof. vm_compute. repeat split; reflexivity. Qed.

(** A sale in a market that is not held still credits the cash. *)
Example unheld_sale_credits_cash :
  let s' := outcomeState
              (Agent.updatePosition LedgerDefs.printNumber
                 LedgerDefs.identityHash LedgerDefs.concatSign
                 LedgerDefs.chainAccepts "B" 4 50 false SampleDefs.t0
                 holdingAgent) in
  Risk.positions (portfolio s') = Risk.positions (portfolio holdingAgent)
  /\ Risk.cash (portfolio s') = Risk.cash (portfolio holdingAgent) + 200
  /\ Risk.totalValue (portfolio s')
     = Risk.totalValue (portfolio holdingAgent) + 200.
Proof. vm_compute. repeat split; reflexivity. Qed.

Lemma quotient_nonneg (a b : Z) (q : Q) :
  0 <= a -> 0 <= b -> numberQuotient a b = Finite q -> (0 <= q)%Q.
Proof.
  unfold numberQuotient. intros Ha Hb.
  destruct (Z.eqb_spec b 0) as [->|Hne].
  - destruct (a =? 0); [discriminate|]. destruct (0 <? a); discriminate.
  - intros [= <-]. unfold Number. apply Qle_shift_div_l.
    + change 0%Q with (inject_Z 0). rewrite <- Zlt_Qlt. lia.
    + rewrite Qmult_0_l. change 0%Q with (inject_Z 0).
      rewrite <- Zle_Qle. exact Ha.
Qed.

Lemma capped_confidence (x : Q) :
  (0 <= x)%Q ->
  (0 <= Math_min x (95 # 100) /\ Math_min x (95 # 100) <= 95 # 100)%Q.
Proof.
  intros Hx. unfold Math_min.
  destruct (num_lt (95 # 100) x) eqn:E.
  - split; [discriminate | apply Qle_refl].
  - apply JSFacts.num_lt_false_iff in E. split; assumption.
Qed.

Lemma prediction_outcome (maxVolatility : Q) (md : MarketData) (now : Z)
  (s : BaseAgent) (p : Prediction) :
  generatePrediction maxVolatility md now s = Some p ->
  0 <= currentPrice md -> 0 <= liquidity md -> outcome p = false.
Proof.
  unfold generatePrediction. intros G Hp Hl.
  destruct (num_gt (volatility md) maxVolatility);
    [injection G as <-; reflexivity|].
  destruct (numberQuotient _ _) as [q| | |] eqn:Q0; [| | |discriminate];
    injection G as <-;
    match goal with
    | |- context [num_lt ?c (minConfidenceThreshold _)] =>
        destruct (num_lt c (minConfidenceThreshold (config s)))
    end; try reflexivity; simpl.
  - apply JSFacts.num_lt_false_iff.
    exact (quotient_nonneg _ _ _ Hp Hl Q0).
  - unfold numberQuotient in Q0.
    destruct (liquidity md =? 0); [|discriminate].
    destruct (Z.eqb_spec (currentPrice md) 0); [discriminate|].
    destruct (Z.ltb_spec 0 (currentPrice md)); [discriminate | lia].
Qed.

(** X29.  The predictions of the conservative bot.  A prediction is either
    the empty one (confidence 0, outcome false) or has a confidence
    between the threshold of the bot and 0.95, on a market within the
    volatility limit, with half the confidence as expected value.  For
    a market whose price and liquidity are not negative the predicted
    outcome is always false. *)
Theorem prediction_range (maxVolatility : Q) (md : MarketData) (now : Z)
  (s : BaseAgent) (p : Prediction) :
  generatePrediction maxVolatility md now s = Some p ->
  (p = noPrediction md now
   \/ (num_gt (volatility md) maxVolatility = false
       /\ p_marketId p = marketId md
       /\ num_lt (p_confidence p) (minConfidenceThreshold (config s)) = false
       /\ (0 <= p_confidence p)%Q /\ (p_confidence p <= 95 # 100)%Q
       /\ expectedValue p = (p_confidence p * (5 # 10))%Q))
  /\ (0 <= currentPrice md -> 0 <= liquidity md -> outcome p = false).
Proof.
  unfold generatePrediction.
  destruct (num_gt (volatility md) maxVolatility) eqn:V.
  { intros [= <-]. split; [left; reflexivity | reflexivity]. }
  assert (Hpredict : forall c neg,
             (0 <= c)%Q -> (c <= 95 # 100)%Q ->
             (0 <= currentPrice md -> 0 <= liquidity md -> neg = false) ->
             forall p',
               p' = (if num_lt c (minConfidenceThreshold (config s))
                     then noPrediction md now
                     else {| p_marketId := marketId md; outcome := neg;
                             p_confidence := c;
                             expectedValue := (c * (5 # 10))%Q;
                             p_timestamp := now |}) ->
               (p' = noPrediction md now
                \/ (false = false
                    /\ p_marketId p' = marketId md
                    /\ num_lt (p_confidence p')
                              (minConfidenceThreshold (config s)) = false
                    /\ (0 <= p_confidence p')%Q
                    /\ (p_confidence p' <= 95 # 100)%Q
                    /\ expectedValue p' = (p_confidence p' * (5 # 10))%Q))
               /\ (0 <= currentPrice md -> 0 <= liquidity md ->
                   outcome p' = false)).
  { intros c neg H0 H1 Hneg p' ->.
    destruct (num_lt c _) eqn:C.
    - split; [left; reflexivity | reflexivity].
    - split; [right; simpl; auto 10 | exact Hneg]. }
  destruct (numberQuotient _ _) as [q| | |] eqn:Q0; intros [= <-].
  - destruct (capped_confidence (Math_abs q * 10)) as [H0 H1].
    { apply Qmult_le_0_compat; [apply Qabs_nonneg | discriminate]. }
    apply (Hpredict _ (num_lt q 0) H0 H1); [|reflexivity].
    intros Hp Hl. apply JSFacts.num_lt_false_iff.
    exact (quotient_nonneg _ _ _ Hp Hl Q0).
  - apply (Hpredict (95 # 100) false);
      [discriminate | apply Qle_refl | reflexivity | reflexivity].
  - apply (Hpredict (95 # 100) true);
      [discriminate | apply Qle_refl | | reflexivity].
    intros Hp Hl. unfold numberQuotient in Q0.
    destruct (liquidity md =? 0); [|discriminate].
    destruct (Z.eqb_spec (currentPrice md) 0); [discriminate|].
    destruct (Z.ltb_spec 0 (currentPrice md)); [discriminate | lia].
Qed.

Lemma prediction_range_witness :
  (noPrediction SampleDefs.sampleMarket SampleDefs.t0
   = noPrediction SampleDefs.sampleMarket SampleDefs.t0
   \/ (num_gt (volatility SampleDefs.sampleMarket) (3 # 10) = false
       /\ p_marketId (noPrediction SampleDefs.sampleMarket SampleDefs.t0)
          = marketId SampleDefs.sampleMarket
       /\ num_lt (p_confidence
                    (noPrediction SampleDefs.sampleMarket SampleDefs.t0))
                 (minConfidenceThreshold (config SampleDefs.sampleAgent))
          = false
       /\ (0 <= p_confidence
                  (noPrediction SampleDefs.sampleMarket SampleDefs.t0))%Q
       /\ (p_confidence (noPrediction SampleDefs.sampleMarket SampleDefs.t0)
           <= 95 # 100)%Q
       /\ expectedValue (noPrediction SampleDefs.sampleMarket SampleDefs.t0)
          = (p_confidence (noPrediction SampleDefs.sampleMarket SampleDefs.t0)
             * (5 # 10))%Q))
  /\ (0 <= currentPrice SampleDefs.sampleMarket ->
      0 <= liquidity SampleDefs.sampleMarket ->
      outcome (noPrediction SampleDefs.sampleMarket SampleDefs.t0) = false).
Proof.
  apply (prediction_range (3 # 10) SampleDefs.sampleMarket SampleDefs.t0
           SampleDefs.sampleAgent).
  vm_compute. reflexivity.
Defined.

(** X30.  Fed with its own prediction the conservative bot never proposes a
    purchase on a market whose price and liquidity are not negative:
    the outcome it predicts is [priceChange < 0], and the price change
    is a quotient of the two.  What it proposes, if anything, is the
    sale of a position held. *)
Theorem own_prediction_never_buys
  (numberToString : Q -> string) (keccak256 : string -> string)
  (signMessage : string -> string -> string)
  (chainLogEntry : string -> option string -> Z -> string -> bool)
  (maxVolatility : Q) (md : MarketData) (now : Z) (s : BaseAgent)
  (p : Prediction) :
  0 <= currentPrice md ->
  0 <= liquidity md ->
  generatePrediction maxVolatility md now s = Some p ->
  exists od s',
    makeTradingDecision numberToString keccak256 signMessage chainLogEntry
      maxVolatility md p now s = Ok od s'
    /\ match od with
       | None => True
       | Some d => action d = SELL
                   /\ amount d = getPositionSize s (marketId md)
                   /\ 0 < amount d
       end.
Proof.
  intros Hp Hl G.
  pose proof (prediction_outcome _ _ _ _ _ G Hp Hl) as O.
  assert (Hlog : forall ty d t,
             serialize numberToString d = Return t ->
             exists od s',
               seq (Agent.logEvent numberToString keccak256 signMessage
                      chainLogEntry ty d now)
                   (fun _ => ret (@None TradeDecision)) s = Ok od s'
               /\ match od with
                  | None => True
                  | Some d => action d = SELL
                              /\ amount d = getPositionSize s (marketId md)
                              /\ 0 < amount d
                  end).
  { intros ty d t St.
    destruct (PipelineSpec.logEvent_ok numberToString keccak256 signMessage
                chainLogEntry ty d now s t St) as (l & E & _).
    unfold seq. rewrite E. exists None, (with_auditLogger s l).
    split; [reflexivity | exact I]. }
  unfold Agent.makeTradingDecision.
  unfold seq at 1. unfold this at 1.
  destruct (num_lt (p_confidence p) _);
    [exists None, s; split; [reflexivity | exact I]|].
  destruct (liquidity md <? 500000000000000000);
    [eapply Hlog; reflexivity|].
  destruct (num_gt (volatility md) maxVolatility);
    [eapply Hlog; reflexivity|].
  unfold seq, this, ret. rewrite O.
  destruct (Z.leb_spec (getPositionSize s (marketId md)) 0) as [H|H].
  - exists None, s. split; [reflexivity | exact I].
  - eexists (Some _), s. split; [reflexivity|]. simpl. auto.
Qed.

Lemma own_prediction_never_buys_witness :
  exists od s',
    makeTradingDecision LedgerDefs.printNumber LedgerDefs.identityHash
      LedgerDefs.concatSign LedgerDefs.chainAccepts (3 # 10) deepMarket
      {| p_marketId := "A"; outcome := false; p_confidence := 95 # 100;
         expectedValue := (95 # 100) * (5 # 10); p_timestamp := SampleDefs.t0 |}
      SampleDefs.t0 holdingAgent
    = Ok od s'
    /\ match od with
       | None => True
       | Some d => action d = SELL
                   /\ amount d = getPositionSize holdingAgent
                                   (marketId deepMarket)
                   /\ 0 < amount d
       end.
Proof.
  apply (own_prediction_never_buys LedgerDefs.printNumber
           LedgerDefs.identityHash LedgerDefs.concatSign
           LedgerDefs.chainAccepts (3 # 10) deepMarket SampleDefs.t0
           holdingAgent).
  - discriminate.
  - discriminate.
  - vm_compute. reflexivity.
Defined.

(** On the sample the bot proposes to sell the five units it holds. *)
Example own_prediction_sells :
  option_map (fun p =>
    match makeTradingDecision LedgerDefs.printNumber LedgerDefs.identityHash
            LedgerDefs.concatSign LedgerDefs.chainAccepts (3 # 10)
            deepMarket p SampleDefs.t0 holdingAgent with
    | Ok (Some d) _ => Some (action d, amount d)
    | _ => None
    end)
    (generatePrediction (3 # 10) deepMarket SampleDefs.t0 holdingAgent)
  = Some (Some (SELL, 5)).
Proof. vm_compute. reflexivity. Qed.

End LifecycleFacts.

(** ** Merkle root of the ledger *)

Module MerkleFacts.
Import TrailDefs.
Import Json Audit.

Section Merkle.

Variable hashPair : string -> string -> string.

Local Abbreviation nextLevel := (nextLevel hashPair).
Local Abbreviation merkleFrom := (merkleFrom hashPair).
Local Abbreviation computeMerkleRoot := (computeMerkleRoot hashPair).

Lemma pair_induction (P : list string -> Prop) :
  P [] -> (forall a, P [a]) -> (forall a b rest, P rest -> P (a :: b :: rest)) ->
  forall l, P l.
Proof.
  intros H0 H1 H2 l.
  assert (H : P l /\ forall a, P (a :: l)).
  { induction l as [|b l [IHl IHal]]; [split; [exact H0 | exact H1]|].
    split; [apply IHal|]. intros a. apply H2, IHl. }
  exact (proj1 H).
Qed.

Lemma nextLevel_length (l : list string) :
  (length (nextLevel l) <= length l)%nat.
Proof.
  induction l as [|a|a b rest IH] using pair_induction; simpl; lia.
Qed.

Lemma nextLevel_shorter (a b : string) (rest : list string) :
  (length (nextLevel (a :: b :: rest)) < length (a :: b :: rest))%nat.
Proof. simpl. pose proof (nextLevel_length rest). lia. Qed.


(** Any fuel from the number of hashes on gives the same root. *)
Lemma merkleFrom_fuel (f1 f2 : nat) (l : list string) :
  (length l <= f1)%nat -> (length l <= f2)%nat ->
  merkleFrom f1 l = merkleFrom f2 l.
Proof.
  revert f2 l. induction f1 as [|f1 IH]; intros f2 l H1 H2.
  - destruct l; [|simpl in H1; lia]. destruct f2; reflexivity.
  - destruct l as [|a [|b rest]].
    + destruct f2; reflexivity.
    + destruct f2; reflexivity.
    + destruct f2 as [|f2]; [simpl in H2; lia|].
      pose proof (nextLevel_shorter a b rest) as Hs.
      change (merkleFrom f1 (nextLevel (a :: b :: rest))
              = merkleFrom f2 (nextLevel (a :: b :: rest))).
      apply IH; simpl in *; lia.
Qed.

(** The recursion of the source: the model ends at the root, for every
    list of hashes. *)
Lemma computeMerkleRoot_equations :
  computeMerkleRoot [] = ZeroHash
  /\ (forall h, computeMerkleRoot [h] = h)
  /\ (forall a b rest,
        computeMerkleRoot (a :: b :: rest)
        = computeMerkleRoot (nextLevel (a :: b :: rest))).
Proof.
  split; [reflexivity|]. split; [reflexivity|].
  intros a b rest. unfold Audit.computeMerkleRoot.
  pose proof (nextLevel_shorter a b rest) as Hs.
  change (merkleFrom (S (length rest)) (nextLevel (a :: b :: rest))
          = merkleFrom (length (nextLevel (a :: b :: rest)))
                       (nextLevel (a :: b :: rest))).
  apply merkleFrom_fuel; simpl in *; lia.
Qed.

Lemma nextLevel_duplicate (l : list string) (c : string) :
  Nat.even (length l) = true ->
  nextLevel (l ++ [c]) = nextLevel (l ++ [c; c]).
Proof.
  induction l as [|a|a b rest IH] using pair_induction; intros E.
  - simpl. destruct (String.eqb c EmptyString); reflexivity.
  - discriminate.
  - simpl. f_equal. apply IH. exact E.
Qed.

(** X18.  Ledgers of different length with the same Merkle root: when the
    number of entries is odd (three or more), repeating the last hash
    gives the same root, because the last hash of an odd level is
    paired with itself. *)
Theorem duplicated_leaf_same_root (a b c : string) (rest : list string) :
  Nat.even (length rest) = true ->
  computeMerkleRoot (a :: b :: rest ++ [c])
  = computeMerkleRoot (a :: b :: rest ++ [c; c]).
Proof.
  intros E. destruct computeMerkleRoot_equations as (_ & _ & Eq).
  rewrite !Eq.
  change (a :: b :: rest ++ [c])%list with ((a :: b :: rest) ++ [c])%list.
  change (a :: b :: rest ++ [c; c])%list
    with ((a :: b :: rest) ++ [c; c])%list.
  now rewrite (nextLevel_duplicate (a :: b :: rest) c E).
Qed.

Hypothesis hashPair_nonEmpty : forall a b, nonEmpty (hashPair a b).





End Merkle.

Lemma pairText_injective (a b c d : string) :
  pairText a b = pairText c d -> a = c /\ b = d.
Proof.
  revert c. induction a as [|x a IH]; intros [|y c]; simpl; intros H.
  - injection H as ->. split; reflexivity.
  - discriminate.
  - discriminate.
  - injection H as -> H. destruct (IH _ H) as [-> ->]. split; reflexivity.
Qed.

Lemma pairText_nonEmpty (a b : string) : nonEmpty (pairText a b).
Proof. destruct a; discriminate. Qed.

Lemma duplicated_leaf_same_root_witness :
  computeMerkleRoot pairText ["0xa1"; "0xb2"; "0xc3"]
  = computeMerkleRoot pairText ["0xa1"; "0xb2"; "0xc3"; "0xc3"].
Proof.
  apply (duplicated_leaf_same_root pairText "0xa1" "0xb2" "0xc3" []).
  reflexivity.
Defined.



End MerkleFacts.

(** ** Verification of a trail *)

Module TrailFacts.
Import TrailDefs.
Import Json Audit.

Section Trail.

Variable numberToString : Q -> string.
Variable keccak256 : string -> string.
Variable verifyMessage : string -> string -> bool.
Variable heap : Ref -> AuditEntry.

Local Abbreviation checkEntry :=
  (checkEntry numberToString keccak256 verifyMessage heap).
Local Abbreviation checkEntries :=
  (checkEntries numberToString keccak256 verifyMessage heap).
Local Abbreviation verifyTrail :=
  (verifyTrail numberToString keccak256 verifyMessage heap).
Local Abbreviation intact := (intact numberToString keccak256).
Local Abbreviation wellSigned := (wellSigned verifyMessage).
Local Abbreviation orderedAt := (orderedAt heap).
Local Abbreviation clean :=
  (clean numberToString keccak256 verifyMessage heap).

Lemma snoc_not_nil {A} (l : list A) (x : A) : (l ++ [x])%list <> [].
Proof. destruct l; discriminate. Qed.

Ltac order_holds :=
  let b := fresh "b" in
  let p := fresh "p" in
  let Hb := fresh "Hb" in
  let Hp := fresh "Hp" in
  intros b p Hb Hp; try discriminate Hb; injection Hb as <-;
  first
    [ congruence
    | match goal with
      | N : nth_error _ _ = Some _ |- _ =>
          rewrite N in Hp; injection Hp as <-; lia
      end ].

Ltac no_issue Hint :=
  exists []; rewrite app_nil_r; split; [reflexivity|];
  split; [simpl; lia|];
  split; [intros _ | intros _; reflexivity];
  split; [exact Hint|];
  split; [first [exact I | left; assumption | right; reflexivity]
         | order_holds].

Ltac with_issues :=
  first [ eexists [_]; split; [reflexivity|]
        | eexists [_; _]; rewrite <- app_assoc; split; [reflexivity|] ];
  split; [simpl; lia|];
  split; [intros Hnil; discriminate Hnil|];
  let Hsig := fresh "Hsig" in
  let Hord := fresh "Hord" in
  intros (_ & Hsig & Hord); exfalso;
  first
    [ destruct Hsig; congruence
    | match goal with
      | N : nth_error _ _ = Some _ |- _ =>
          specialize (Hord _ _ eq_refl N); lia
      end ].

(** One pass of the loop: the issues found are appended, the count
    grows by their number, and there is none exactly for a clean
    entry. *)
Lemma checkEntry_spec (trail : list Ref) (found found' : list string * Z)
  (r : Ref) :
  checkEntry trail found r = Return found' ->
  exists added,
    fst found' = (fst found ++ added)%list
    /\ snd found' = snd found + Z.of_nat (length added)
    /\ (added = [] <-> clean trail r).
Proof.
  destruct found as [issues n]. unfold Audit.checkEntry, TrailDefs.clean,
    TrailDefs.intact, TrailDefs.wellSigned, TrailDefs.orderedAt.
  destruct (generateHash _ _ _ _ _ _) as [h|err] eqn:G; simpl;
    [|discriminate].
  destruct (bool_decide_reflect (hash (heap r) = Some h)) as [Hh|Hh]; simpl.
  - rewrite Hh.
    assert (Hint : exists h0, Return h = Return h0 /\ Some h = Some h0)
      by (exists h; split; reflexivity).
    destruct (signature (heap r)) as [sig|];
      [destruct (String.eqb_spec sig EmptyString) as [Hs|Hs];
       [|destruct (verifyMessage h sig) eqn:V]|];
      (destruct (indexOf trail r) as [[|before]|] eqn:Hi;
       [|destruct (nth_error trail before) as [prev|] eqn:N;
         [destruct (Z.ltb_spec (timestamp (heap r)) (timestamp (heap prev)))
           as [Hlt|Hge]|]|]);
      simpl; intros [= <-]; simpl;
      first [no_issue Hint | with_issues].
  - intros [= <-]. eexists [_]. split; [reflexivity|].
    split; [simpl; lia|]. split; [intros Hnil; discriminate Hnil|].
    intros ((h0 & [= <-] & Hh0) & _). contradiction.
Qed.

Lemma checkEntries_spec (trail rest : list Ref)
  (found found' : list string * Z) :
  checkEntries trail found rest = Return found' ->
  exists added,
    fst found' = (fst found ++ added)%list
    /\ snd found' = snd found + Z.of_nat (length added)
    /\ (added = [] <-> Forall (clean trail) rest).
Proof.
  revert found. induction rest as [|r rest IH]; intros found; simpl.
  - intros [= <-]. exists []. rewrite app_nil_r.
    split; [reflexivity|]. split; [simpl; lia|].
    split; [constructor | reflexivity].
  - destruct (checkEntry trail found r) as [found1|err] eqn:E; simpl;
      [|discriminate].
    intros H. destruct (checkEntry_spec _ _ _ _ E) as (a1 & F1 & C1 & I1).
    destruct (IH _ H) as (a2 & F2 & C2 & I2).
    exists (a1 ++ a2)%list. rewrite F2, F1, C2, C1, length_app, <- app_assoc.
    split; [reflexivity|]. split; [lia|].
    split.
    + intros Hnil. apply app_eq_nil in Hnil as [H1 H2].
      constructor; [now apply I1 | now apply I2].
    + intros Hall. inversion Hall as [|? ? Hr Hrest]; subst.
      apply I1 in Hr. apply I2 in Hrest. now subst.
Qed.

(** The report of [verifyTrail]: the count is the number of issues,
    and the trail is valid exactly when every entry is clean, that is,
    when no check finds fault with any entry. *)
Lemma verifyTrail_report (trail : list Ref) (report : TrailReport) :
  verifyTrail trail = Return report ->
  invalidCount report = Z.of_nat (length (tr_issues report))
  /\ (valid report = true <-> tr_issues report = [])
  /\ (valid report = true <-> Forall (clean trail) trail).
Proof.
  unfold Audit.verifyTrail.
  destruct (checkEntries trail ([], 0) trail) as [found|err] eqn:E; simpl;
    [|discriminate].
  intros [= <-]. simpl.
  destruct (checkEntries_spec _ _ _ _ E) as (added & F & C & I).
  simpl in F, C. rewrite F, C.
  split; [reflexivity|]. rewrite <- I.
  assert ((Z.of_nat (length added) =? 0) = true <-> added = []).
  { rewrite Z.eqb_eq. destruct added; simpl; split; intros H;
      first [reflexivity | discriminate | lia]. }
  tauto.
Qed.

Lemma indexOf_nth (trail : list Ref) (r : Ref) (i : nat) :
  indexOf trail r = Some i -> nth_error trail i = Some r.
Proof.
  revert i. induction trail as [|x rest IH]; intros i; simpl; [discriminate|].
  destruct (Nat.eqb_spec x r) as [->|Hne].
  - intros [= <-]. reflexivity.
  - destruct (indexOf rest r) as [j|]; simpl; [|discriminate].
    intros [= <-]. simpl. now apply IH.
Qed.

Lemma nth_indexOf (trail : list Ref) (r : Ref) (i : nat) :
  NoDup trail -> nth_error trail i = Some r -> indexOf trail r = Some i.
Proof.
  revert i. induction trail as [|x rest IH]; intros i ND; simpl.
  - destruct i; discriminate.
  - apply NoDup_cons in ND as [Hx ND]. destruct i as [|i]; simpl.
    + intros [= ->]. now rewrite Nat.eqb_refl.
    + intros Hn. destruct (Nat.eqb_spec x r) as [->|Hne].
      * exfalso. apply Hx. apply list_elem_of_In.
        exact (nth_error_In _ _ Hn).
      * now rewrite (IH i ND Hn).
Qed.

(** X20.  [verifyTrail] on a trail of distinct entry objects: the count is
    the number of issues reported, and the trail is valid exactly when
    every entry carries the hash of its content, every signature
    present is well formed, and the time stamps never go back along the
    trail. *)
Theorem verifyTrail_valid_iff (trail : list Ref) (report : TrailReport) :
  NoDup trail ->
  verifyTrail trail = Return report ->
  invalidCount report = Z.of_nat (length (tr_issues report))
  /\ (valid report = true <-> tr_issues report = [])
  /\ (valid report = true
      <-> Forall (fun r => intact (heap r) /\ wellSigned (heap r)) trail
          /\ timeSorted (map (fun r => timestamp (heap r)) trail)).
Proof.
  intros ND V. destruct (verifyTrail_report _ _ V) as (Hc & Hi & Hv).
  split; [exact Hc|]. split; [exact Hi|]. rewrite Hv.
  rewrite !List.Forall_forall. unfold TrailDefs.clean, TrailDefs.timeSorted.
  split.
  - intros H. split; [intros r Hr; destruct (H r Hr) as (? & ? & _); auto|].
    intros i a b. rewrite !nth_error_map.
    destruct (nth_error trail i) as [prev|] eqn:Ni; [|discriminate].
    destruct (nth_error trail (S i)) as [r|] eqn:Nr; [|discriminate].
    simpl. intros [= <-] [= <-].
    destruct (H r (nth_error_In _ _ Nr)) as (_ & _ & Hord).
    exact (Hord i prev (nth_indexOf _ _ _ ND Nr) Ni).
  - intros [H T] r Hr. destruct (H r Hr) as [Hi' Hs].
    split; [exact Hi'|]. split; [exact Hs|].
    intros before prev Hidx Hprev.
    apply (T before); rewrite nth_error_map.
    + now rewrite Hprev.
    + now rewrite (indexOf_nth _ _ _ Hidx).
Qed.

(** The hash check of [verifyTrail] is the one of
    [AuditLogger.verifyEntry]. *)
Lemma intact_verifyEntry (l : AuditLogger) (e : AuditEntry) :
  intact e <-> verifyEntry numberToString keccak256 l e = Return true.
Proof.
  unfold TrailDefs.intact, Audit.verifyEntry.
  destruct (generateHash _ _ _ _ _ _) as [h|err]; simpl.
  - split.
    + intros (h0 & [= <-] & ->). now rewrite bool_decide_eq_true_2.
    + intros [= H]. apply bool_decide_eq_true_1 in H. eauto.
  - split; [intros (h0 & H & _) | intros H]; discriminate.
Qed.

End Trail.

Lemma verifyTrail_valid_iff_witness :
  invalidCount {| valid := true; invalidCount := 0; tr_issues := [] |}
  = Z.of_nat (length (tr_issues
                        {| valid := true; invalidCount := 0;
                           tr_issues := [] |}))
  /\ (valid {| valid := true; invalidCount := 0; tr_issues := [] |} = true
      <-> tr_issues {| valid := true; invalidCount := 0; tr_issues := [] |}
          = [])
  /\ (valid {| valid := true; invalidCount := 0; tr_issues := [] |} = true
      <-> Forall (fun r =>
                    intact LedgerDefs.printNumber LedgerDefs.identityHash
                           (sampleHeap r)
                    /\ wellSigned anySignature (sampleHeap r))
                 [0%nat; 1%nat]
          /\ timeSorted (map (fun r => timestamp (sampleHeap r))
                             [0%nat; 1%nat])).
Proof.
  apply (verifyTrail_valid_iff LedgerDefs.printNumber LedgerDefs.identityHash
           anySignature sampleHeap [0%nat; 1%nat]).
  - apply NoDup_cons. split; [|apply NoDup_singleton].
    intros H. apply list_elem_of_In in H. destruct H as [H|[]]. discriminate H.
  - vm_compute. reflexivity.
Defined.

(** Distinct objects are needed: when the first entry object occurs
    again after a later entry, [indexOf] finds its first occurrence and
    the step back in time goes unnoticed; with a third object of the
    same content it is reported. *)
Example repeated_object_unnoticed :
  option_map valid
    (match verifyTrail LedgerDefs.printNumber LedgerDefs.identityHash
             anySignature sampleHeap [0%nat; 1%nat; 0%nat] with
     | Return report => Some report
     | Throw _ => None
     end) = Some true
  /\ option_map invalidCount
       (match verifyTrail LedgerDefs.printNumber LedgerDefs.identityHash
                anySignature sampleHeap [0%nat; 1%nat; 2%nat] with
        | Return report => Some report
        | Throw _ => None
        end) = Some 1
  /\ map (fun r => timestamp (sampleHeap r)) [0%nat; 1%nat; 0%nat]
     = [1700000000000; 1700000000500; 1700000000000].
Proof. vm_compute. repeat split; reflexivity. Qed.

Section TypedLogs.

Variable numberToString : Q -> string.
Variable keccak256 : string -> string.
Variable signMessage : string -> string -> string.
Variable chainLogEntry : string -> option string -> Z -> string -> bool.

Local Abbreviation logTrade :=
  (logTrade numberToString keccak256 signMessage chainLogEntry).

(** X17.  [logTrade] never throws: it converts the bigints of a trade to
    strings before they reach [JSON.stringify].  It appends one TRADE
    entry, stamped with the time of the call, which verifies. *)
Theorem logTrade_always_logs (l : AuditLogger) (now : Z)
  (params : TradeParams) :
  exists e l',
    logTrade l now params = Return (e, l')
    /\ entries l' = (entries l ++ [e])%list
    /\ type e = "TRADE" /\ agent e = tp_agent params
    /\ data e = tradePayload params
    /\ timestamp e = now
    /\ verifyEntry numberToString keccak256 l' e = Return true.
Proof.
  unfold Audit.logTrade.
  set (rq := {| rq_type := "TRADE"; rq_agent := tp_agent params;
                rq_data := tradePayload params; rq_timestamp := now |}).
  destruct (LedgerSpec.log_total numberToString keccak256 signMessage
              chainLogEntry l now rq _ eq_refl) as (e & l' & E).
  exists e, l'. split; [exact E|].
  destruct (LedgerSpec.log_returns _ _ _ _ _ _ _ _ _ E)
    as (text & _ & _ & He & Hty & Hag & Hd).
  split; [exact He|]. split; [exact Hty|]. split; [exact Hag|].
  split; [exact Hd|]. split.
  - unfold Audit.log in E.
    destruct (generateHash _ _ _ _ _ _) as [h|err]; simpl in E;
      [|discriminate].
    injection E as <- _. simpl. destruct (Z.eqb_spec now 0); congruence.
  - exact (LedgerFacts.logged_entry_verifies _ _ _ _ _ _ _ _ _ _ E).
Qed.

End TypedLogs.

End TrailFacts.

(** ** Oracle monitor: price updates *)

Module OracleFeedFacts.
Import OracleRuns.
Import Security.

Lemma sum_zero (l : list Q) (acc : Q) :
  (acc == 0)%Q -> Forall (fun q => (q == 0)%Q) l ->
  (fold_left Qplus l acc == 0)%Q.
Proof.
  revert acc. induction l as [|q l IH]; intros acc Ha Hl; simpl.
  - exact Ha.
  - inversion Hl as [|? ? Hq Hl']; subst. apply IH; [|exact Hl'].
    rewrite Ha, Hq. reflexivity.
Qed.

Lemma average_zero (l : list Q) :
  Forall (fun q => (q == 0)%Q) l -> (average l == 0)%Q.
Proof.
  intros H. unfold average. destruct l as [|q l]; [reflexivity|].
  rewrite (sum_zero (q :: l) 0 (Qeq_refl 0) H). unfold Qdiv.
  apply Qmult_0_l.
Qed.

Lemma sum_nonneg (l : list Q) (acc : Q) :
  (0 <= acc)%Q -> Forall (fun q => (0 <= q)%Q) l ->
  (0 <= fold_left Qplus l acc)%Q.
Proof.
  revert acc. induction l as [|q l IH]; intros acc Ha Hl; simpl.
  - exact Ha.
  - inversion Hl as [|? ? Hq Hl']; subst. apply IH; [|exact Hl'].
    change 0%Q with (0 + 0)%Q. apply Qplus_le_compat; assumption.
Qed.

Lemma average_nonneg (l : list Q) :
  Forall (fun q => (0 <= q)%Q) l -> (0 <= average l)%Q.
Proof.
  intros H. unfold average. destruct l as [|q l]; [discriminate|].
  apply Qle_shift_div_l.
  - unfold Number. change 0%Q with (inject_Z 0). rewrite <- Zlt_Qlt.
    simpl length. lia.
  - rewrite Qmult_0_l. apply sum_nonneg; [discriminate | exact H].
Qed.

Lemma deviation_in (m : OracleMonitor) (src : string) (price : Z) (q : Q) :
  In q (deviationsFrom m src price) ->
  exists other st,
    sourceStates m !! other = Some st /\ other <> src /\ 0 < os_price st
    /\ q = (Math_abs (Number (price - os_price st)) / Number (os_price st))%Q.
Proof.
  unfold deviationsFrom. intros H. apply list_elem_of_In in H.
  apply list_elem_of_omap in H as ([other st] & Hin & Hq).
  apply elem_of_map_to_list in Hin.
  destruct (String.eqb_spec other src) as [->|Hne]; simpl in Hq;
    [discriminate|].
  destruct (Z.ltb_spec 0 (os_price st)); [|discriminate].
  injection Hq as <-. eauto 10.
Qed.

Lemma deviations_nonneg (m : OracleMonitor) (src : string) (price : Z) :
  Forall (fun q => (0 <= q)%Q) (deviationsFrom m src price).
Proof.
  apply List.Forall_forall. intros q Hq.
  destruct (deviation_in _ _ _ _ Hq) as (other & st & _ & _ & Hp & ->).
  apply Qle_shift_div_l.
  - unfold Number. change 0%Q with (inject_Z 0). now rewrite <- Zlt_Qlt.
  - rewrite Qmult_0_l. apply Qabs_nonneg.
Qed.

Lemma deviations_agree (m : OracleMonitor) (src : string) (p : Z) :
  allQuote m p ->
  Forall (fun q => (q == 0)%Q) (deviationsFrom m src p).
Proof.
  intros Hall. apply List.Forall_forall. intros q Hq.
  destruct (deviation_in _ _ _ _ Hq) as (other & st & Hst & _ & Hp & ->).
  rewrite (Hall _ _ Hst), Z.sub_diag. unfold Qdiv. apply Qmult_0_l.
Qed.

Lemma score_finite (x limit : Q) :
  ~ (limit == 0)%Q -> exists v, score x limit = Some v.
Proof.
  intros H. unfold score. destruct (Qeq_bool limit 0) eqn:E.
  - apply Qeq_bool_iff in E. contradiction.
  - eauto.
Qed.

(** One update.  The new status is stored under its source and nothing
    else changes; it records the age of the price at the time of the
    call and a deviation that is never negative and is zero when no
    other source has a positive price; and a status that is active never
    counts against the health of the monitor. *)
Theorem update_recorded (m m' : OracleMonitor) (now : Z) (src : string)
  (price ts : Z) (st : OracleStatus) :
  updatePrice m now src price ts = Some (st, m') ->
  sourceStates m' = <[src := st]> (sourceStates m)
  /\ sources m' = sources m
  /\ maxStalenessMs m' = maxStalenessMs m
  /\ maxDeviationPercent m' = maxDeviationPercent m
  /\ os_price st = price /\ lastUpdate st = ts
  /\ stalenessMs st = now - ts
  /\ (0 <= deviation st)%Q
  /\ (deviationsFrom m src price = [] -> deviation st = 0%Q)
  /\ (os_isActive st = true -> sourceIssues m' src = []).
Proof.
  unfold updatePrice.
  destruct (calculateConfidence _ _ _) as [c|]; [|discriminate].
  intros [= <- <-]. simpl.
  repeat (split; [reflexivity|]).
  split; [apply average_nonneg, deviations_nonneg|].
  split; [intros ->; reflexivity|].
  intros Hact. apply andb_true_iff in Hact as [Hs Hd].
  apply Z.ltb_lt in Hs. apply JSFacts.num_lt_iff in Hd.
  apply OracleFacts.sourceIssues_nil. simpl. rewrite lookup_insert_eq.
  eexists. split; [reflexivity|]. simpl. split; [lia|].
  apply Qlt_le_weak. exact Hd.
Qed.

Lemma feed_agreeing (p : Z) (updates : list PriceUpdate) (m : OracleMonitor) :
  0 < maxStalenessMs m ->
  (0 < maxDeviationPercent m)%Q ->
  allQuote m p ->
  (forall src st, sourceStates m !! src = Some st ->
     stalenessMs st <= maxStalenessMs m /\ (deviation st == 0)%Q) ->
  Forall (fun u => u_price u = p
                   /\ u_now u - u_timestamp u <= maxStalenessMs m) updates ->
  exists m',
    feed m updates = Some m'
    /\ sources m' = sources m
    /\ maxStalenessMs m' = maxStalenessMs m
    /\ maxDeviationPercent m' = maxDeviationPercent m
    /\ (forall src st, sourceStates m' !! src = Some st ->
          stalenessMs st <= maxStalenessMs m /\ (deviation st == 0)%Q)
    /\ (forall src,
          is_Some (sourceStates m !! src) \/ In src (map u_source updates) ->
          is_Some (sourceStates m' !! src)).
Proof.
  revert m. induction updates as [|u rest IH]; intros m Hs Hd Hq Hinv Hu.
  - exists m. simpl. repeat (split; [reflexivity|]).
    split; [exact Hinv|]. intros src [H|[]]. exact H.
  - inversion Hu as [|? ? [Hp Hfresh] Hrest]; subst. simpl.
    pose proof (average_zero _ (deviations_agree m (u_source u) (u_price u) Hq))
      as Havg.
    unfold updatePrice, calculateConfidence.
    destruct (score_finite (Number (u_now u - u_timestamp u))
                (Number (maxStalenessMs m))) as [v1 ->].
    { unfold Number. change 0%Q with (inject_Z 0). rewrite inject_Z_injective.
      lia. }
    destruct (score_finite
                (average (deviationsFrom m (u_source u) (u_price u)))
                (maxDeviationPercent m)) as [v2 ->].
    { intros E. rewrite E in Hd. discriminate. }
    match goal with
    | |- context [feed ?m1 rest] =>
        destruct (IH m1) as (m' & F & I1 & I2 & I3 & I4 & I5)
    end; unfold allQuote; simpl; try assumption.
    + intros src st. rewrite lookup_insert_Some.
      intros [[_ <-]|[_ H]]; [reflexivity | exact (Hq _ _ H)].
    + intros src st. rewrite lookup_insert_Some.
      intros [[_ <-]|[_ H]]; [simpl; auto | exact (Hinv _ _ H)].
    + exists m'. split; [exact F|]. simpl in *.
      repeat (split; [assumption|]).
      intros src Hsrc. apply I5.
      destruct (String.string_dec (u_source u) src) as [->|Hne].
      * left. rewrite lookup_insert_eq. eauto.
      * destruct Hsrc as [H|[H|H]]; [| contradiction | right; exact H].
        left. now rewrite lookup_insert_ne.
Qed.

(** X12.  Feeding an empty monitor: when every configured source reports the
    same price, each report no older than the staleness limit, the
    monitor ends up healthy; the order of the reports, repeated reports
    and reports of sources that are not configured do not matter. *)
Theorem agreeing_feed_is_healthy (m : OracleMonitor) (p : Z)
  (updates : list PriceUpdate) :
  sourceStates m = ∅ ->
  0 < maxStalenessMs m ->
  (0 < maxDeviationPercent m)%Q ->
  Forall (fun u => u_price u = p
                   /\ u_now u - u_timestamp u <= maxStalenessMs m) updates ->
  (forall src, In src (sources m) -> In src (map u_source updates)) ->
  exists m', feed m updates = Some m' /\ healthy (checkHealth m') = true.
Proof.
  intros He Hs Hd Hu Hall.
  destruct (feed_agreeing p updates m Hs Hd) as (m' & F & I1 & I2 & I3 & I4 & I5);
    try assumption.
  - intros src st. rewrite He, lookup_empty. discriminate.
  - intros src st. rewrite He, lookup_empty. discriminate.
  - exists m'. split; [exact F|]. apply OracleFacts.healthy_sources.
    rewrite I1. intros src Hsrc. apply OracleFacts.sourceIssues_nil.
    destruct (I5 src (or_intror (Hall src Hsrc))) as [st Hst].
    exists st. split; [exact Hst|]. destruct (I4 _ _ Hst) as [H1 H2].
    rewrite I2, I3. split; [exact H1|]. rewrite H2. apply Qlt_le_weak, Hd.
Qed.

Lemma agreeing_feed_is_healthy_witness :
  exists m',
    feed (new_OracleMonitor ["chainlink"; "uniswap"; "binance"] None None)
         [quote 1700000000000 "uniswap" 2500;
          quote 1700000001000 "chainlink" 2500;
          quote 1700000002000 "binance" 2500;
          quote 1700000003000 "uniswap" 2500] = Some m'
    /\ healthy (checkHealth m') = true.
Proof.
  apply (agreeing_feed_is_healthy
           (new_OracleMonitor ["chainlink"; "uniswap"; "binance"] None None)
           2500).
  - reflexivity.
  - reflexivity.
  - reflexivity.
  - repeat constructor; simpl; lia.
  - simpl. tauto.
Defined.

Lemma update_recorded_witness :
  sourceStates (snd firstReport)
  = <["chainlink" := fst firstReport]>
      (sourceStates (new_OracleMonitor ["chainlink"; "uniswap"] None None))
  /\ sources (snd firstReport) = ["chainlink"; "uniswap"]
  /\ maxStalenessMs (snd firstReport) = 300000
  /\ maxDeviationPercent (snd firstReport) = 2 # 100
  /\ os_price (fst firstReport) = 2500
  /\ lastUpdate (fst firstReport) = 1699999999000
  /\ stalenessMs (fst firstReport) = 1700000000000 - 1699999999000
  /\ (0 <= deviation (fst firstReport))%Q
  /\ (deviationsFrom (new_OracleMonitor ["chainlink"; "uniswap"] None None)
                     "chainlink" 2500 = [] ->
      deviation (fst firstReport) = 0%Q)
  /\ (os_isActive (fst firstReport) = true ->
      sourceIssues (snd firstReport) "chainlink" = []).
Proof.
  apply (update_recorded
           (new_OracleMonitor ["chainlink"; "uniswap"] None None)
           (snd firstReport) 1700000000000 "chainlink" 2500 1699999999000
           (fst firstReport)).
  vm_compute. reflexivity.
Defined.

(** Sources that disagree: a second source quoting 10% more is recorded
    as deviating and makes the monitor unhealthy, while the first source,
    which reported when it was alone, keeps its deviation of zero. *)
Example disagreeing_feed :
  option_map (fun m => (healthy (checkHealth m),
                        option_map os_isActive (sourceStates m !! "chainlink"),
                        option_map os_isActive (sourceStates m !! "uniswap")))
    (feed (new_OracleMonitor ["chainlink"; "uniswap"] None None)
          [quote 1700000000000 "chainlink" 2500;
           quote 1700000001000 "uniswap" 2750])
  = Some (false, Some true, Some false).
Proof. vm_compute. reflexivity. Qed.

End OracleFeedFacts.
